(** * coldProxy: the confidential storage core and its HTTP gates

    A shallow embedding of the TypeScript sources

    - [packages/http-api/src/middleware/rate-limiter.ts] ([RateLimiter])
    - [packages/http-api/src/middleware/kill-switch.ts]
    - [packages/http-api/src/middleware/session.ts] ([getSession],
      [saveSession], [requireFreshWebAuthn])
    - the API router ([APIRouter.registerHandlers], [wrapHandler],
      [handleRequest]) and the request-id middleware
    - the asynchronous database writer ([AsyncDbWriter])
    - [packages/core/src/security/crypto.service.ts] ([CryptoService],
      [SetupService]) and [unlock.service.ts] ([UnlockService]: the PIN and
      the WebAuthn unlock)
    - the key-store repository ([KeyStoreRepository])

    Mutable objects are modelled by explicit state passing.  [Date.now()] is
    an explicit argument (or a field of the request world): every call of a
    modelled function observes one clock reading.  JavaScript numbers that
    hold counters and epoch milliseconds are modelled by [Z]. *)

From Stdlib Require Import ZArith List Lia Bool Ascii.
From Stdlib.Strings Require Import Byte.
From stdpp Require Import base option list strings gmap.

Local Open Scope Z_scope.

(** ** JavaScript values shared by all modules *)

(** The errors thrown by the modelled code.  The first five are the
    [HttpError] factories of [@ccflare/http-common]. *)
Inductive js_error :=
| TooManyRequests (msg : string)
| ServiceUnavailable (msg : string)
| Forbidden (msg : string)
| Unauthorized (msg : string)
| BadRequest (msg : string)
| Error (msg : string)            (* [new Error(msg)] *)
| TypeError (msg : string)
| DecryptFailed                   (* libsodium: the AEAD tag does not verify *)
| SodiumError (msg : string)      (* any other [Error] raised in libsodium *)
| SqliteConstraint (msg : string).

(** The completion of a synchronous call: a value or an exception. *)
Inductive outcome (A : Type) :=
| Return (a : A)
| Throw (e : js_error).
Arguments Return {A} a.
Arguments Throw {A} e.

Definition obind {A B} (o : outcome A) (k : A -> outcome B) : outcome B :=
  match o with
  | Return a => k a
  | Throw e => Throw e
  end.

(** ** HTTP requests *)

Module Http.

(** [req.headers]: header names are case-insensitive, so keys are kept in
    lower case. *)
Record Request := {
  headers : gmap string string;
  body : string;
}.

(** [req.headers.get(name)] *)
Definition headers_get (req : Request) (name : string) : option string :=
  headers req !! name.

(** A JavaScript string in a boolean position: [null] and the empty string
    are falsy. *)
Definition truthy_str (v : option string) : bool :=
  match v with
  | Some EmptyString => false
  | Some _ => true
  | None => false
  end.

(** [a || b] on string-or-null operands. *)
Definition or_str (a b : option string) : option string :=
  if truthy_str a then a else b.

Record Response := {
  status : Z;
  payload : string;
}.

End Http.

(** ** middleware/rate-limiter.ts *)

Module RateLimiter.

Record RateLimitInfo := {
  count : Z;
  startTime : Z;
}.

Record t := {
  store : gmap string RateLimitInfo;
  maxRequests : Z;
  windowMs : Z;
}.

(** [new RateLimiter({ maxRequests, windowMs })] *)
Definition create (maxRequests windowMs : Z) : t :=
  {| store := ∅; maxRequests := maxRequests; windowMs := windowMs |}.

(** [limit(key)]: returns [true] when the request must be refused.  The
    [info] object is either the stored one or a fresh one; it is updated in
    place and written back under [key]. *)
Definition limit (now : Z) (key : string) (rl : t) : bool * t :=
  let windowStart := now - windowMs rl in
  let info := default {| count := 0; startTime := now |} (store rl !! key) in
  let info :=
    if startTime info <? windowStart
    then {| count := 0; startTime := now |}      (* reset window *)
    else info in
  let info := {| count := count info + 1; startTime := startTime info |} in
  (maxRequests rl <? count info,
   {| store := <[key := info]> (store rl);
      maxRequests := maxRequests rl;
      windowMs := windowMs rl |}).

(** The key of a request:
    [x-forwarded-for || x-real-ip || "unknown"]. *)
Definition client_key (req : Http.Request) : string :=
  default "unknown"
    (Http.or_str (Http.or_str (Http.headers_get req "x-forwarded-for")
                              (Http.headers_get req "x-real-ip"))
                 (Some "unknown")).

End RateLimiter.

(** ** The request world of the HTTP API

  The objects that the middleware closures capture by reference: the
  [Config] (kill switch), the two [RateLimiter] instances owned by the
  router, and the module-level [sessions] map of [session.ts]. *)

Module Api.

(** A session object, [{ userId?, challenge?, lastUVAt? }]. *)
Record Session := {
  userId : option string;
  challenge : option string;
  lastUVAt : option Z;
}.

Definition empty_session : Session :=
  {| userId := None; challenge := None; lastUVAt := None |}.

Record world := {
  clock : Z;                               (* [Date.now()] *)
  killSwitch : bool;                       (* [config.getKillSwitch()] *)
  unlockRateLimiter : RateLimiter.t;
  exportRateLimiter : RateLimiter.t;
  sessions : gmap string Session;
}.

(** A route handler, [(req, url) => Response]: it may change the world and
    either returns a response or throws. *)
Definition Handler : Type :=
  Http.Request -> world -> outcome Http.Response * world.

(** The limiter object a rate-limit middleware was created with. *)
Inductive limiter_ref := UnlockLimiter | ExportLimiter.

Definition get_limiter (r : limiter_ref) (w : world) : RateLimiter.t :=
  match r with
  | UnlockLimiter => unlockRateLimiter w
  | ExportLimiter => exportRateLimiter w
  end.

Definition set_limiter (r : limiter_ref) (rl : RateLimiter.t) (w : world)
  : world :=
  match r with
  | UnlockLimiter =>
      {| clock := clock w; killSwitch := killSwitch w;
         unlockRateLimiter := rl;
         exportRateLimiter := exportRateLimiter w;
         sessions := sessions w |}
  | ExportLimiter =>
      {| clock := clock w; killSwitch := killSwitch w;
         unlockRateLimiter := unlockRateLimiter w;
         exportRateLimiter := rl;
         sessions := sessions w |}
  end.

(** *** middleware/rate-limiter.ts: [createRateLimitMiddleware] *)
Definition createRateLimitMiddleware (rateLimiter : limiter_ref)
    (handler : Handler) : Handler :=
  fun req w =>
    let ip := RateLimiter.client_key req in
    let '(over, rl) :=
      RateLimiter.limit (clock w) ip (get_limiter rateLimiter w) in
    let w := set_limiter rateLimiter rl w in
    if over
    then (Throw (TooManyRequests
                   "Too many requests, please try again later."), w)
    else handler req w.

(** *** middleware/kill-switch.ts: [createKillSwitchMiddleware] *)
Definition createKillSwitchMiddleware (handler : Handler) : Handler :=
  fun req w =>
    if killSwitch w
    then (Throw (ServiceUnavailable
            "Service is temporarily unavailable. Please try again later."),
          w)
    else handler req w.

(** *** middleware/session.ts *)

(** The capture group [[^;]+]: the longest run of characters other than
    [';']. *)
Fixpoint until_semicolon (s : string) : string :=
  match s with
  | EmptyString => EmptyString
  | String c r =>
      if Ascii.eqb c ";" then EmptyString else String c (until_semicolon r)
  end.

Fixpoint strip_prefix (p s : string) : option string :=
  match p, s with
  | EmptyString, _ => Some s
  | String a p', String b s' =>
      if Ascii.eqb a b then strip_prefix p' s' else None
  | String _ _, EmptyString => None
  end.

(** [cookie.match(/session_id=([^;]+)/)]: the leftmost position at which
    the literal is followed by at least one character other than [';']. *)
Fixpoint match_session_id (cookie : string) : option string :=
  let here :=
    match strip_prefix "session_id=" cookie with
    | Some tl =>
        match until_semicolon tl with
        | EmptyString => None
        | v => Some v
        end
    | None => None
    end in
  match here with
  | Some v => Some v
  | None =>
      match cookie with
      | EmptyString => None
      | String _ rest => match_session_id rest
      end
  end.

Definition getSessionId (req : Http.Request) : option string :=
  match Http.headers_get req "cookie" with
  | Some cookie =>
      if Http.truthy_str (Some cookie) then match_session_id cookie else None
  | None => None
  end.

(** [getSession(req)]: the stored session object, or a fresh [{}]. *)
Definition getSession (req : Http.Request) (w : world) : Session :=
  match getSessionId req with
  | Some sessionId =>
      match sessions w !! sessionId with
      | Some s => s
      | None => empty_session
      end
  | None => empty_session
  end.

(** *** middleware/auth.ts *)

Definition FRESH_WEBAUTHN_TTL : Z := 5 * 60 * 1000.

(** [!session.lastUVAt]: [undefined] and the number [0] are falsy. *)
Definition not_lastUVAt (v : option Z) : bool :=
  match v with
  | None => true
  | Some t => t =? 0
  end.

(** The guard of [requireFreshWebAuthn]:
    [!session.lastUVAt || Date.now() - session.lastUVAt > TTL]. *)
Definition stale (session : Session) (now : Z) : bool :=
  not_lastUVAt (lastUVAt session)
  || match lastUVAt session with
     | Some t => FRESH_WEBAUTHN_TTL <? now - t
     | None => false
     end.

Definition requireFreshWebAuthn (handler : Handler) : Handler :=
  fun req w =>
    let session := getSession req w in
    if stale session (clock w)
    then (Throw (Forbidden "Fresh WebAuthn authentication required."), w)
    else handler req w.

Definition requireAuth (handler : Handler) : Handler :=
  fun req w =>
    let session := getSession req w in
    match userId session with
    | Some (String _ _) => handler req w
    | _ => (Throw (Unauthorized "Authentication required."), w)
    end.

End Api.

(** ** The API router: [APIRouter] *)

Module Router.
Import Api.

(** The world right after [new APIRouter(context)]: both limiters are
    fresh, 5 requests per minute for unlock and 2 per minute for export. *)
Definition init (now : Z) (kill : bool) : world :=
  {| clock := now; killSwitch := kill;
     unlockRateLimiter := RateLimiter.create 5 60000;
     exportRateLimiter := RateLimiter.create 2 60000;
     sessions := ∅ |}.

Section Routes.

  (** The handler bodies created from the API context; their code is not
      part of the routes' gating. *)
Variables unlockPinHandler webauthnChallengeHandler webauthnFinishHandler
            setKillSwitchHandler exportHandler rotateKeyHandler
            decryptHandler : Handler.

Definition withUnlockRateLimit := createRateLimitMiddleware UnlockLimiter.
Definition withExportRateLimit := createRateLimitMiddleware ExportLimiter.
Definition withKillSwitch := createKillSwitchMiddleware.

  (** [registerHandlers]: the unlock, admin and decrypting routes, in the
      order of the [this.handlers.set] calls. *)
Definition registerHandlers : gmap string Handler :=
    let h : gmap string Handler := ∅ in
    let h := <["POST:/unlock/pin" :=
                 withKillSwitch (withUnlockRateLimit unlockPinHandler)]> h in
    let h := <["POST:/unlock/webauthn/challenge" :=
                 withKillSwitch
                   (withUnlockRateLimit webauthnChallengeHandler)]> h in
    let h := <["POST:/unlock/webauthn/finish" :=
                 withKillSwitch
                   (withUnlockRateLimit webauthnFinishHandler)]> h in
    let h := <["POST:/api/admin/kill-switch" :=
                 requireFreshWebAuthn setKillSwitchHandler]> h in
    let h := <["GET:/export" :=
                 withKillSwitch
                   (withExportRateLimit
                      (requireFreshWebAuthn exportHandler))]> h in
    let h := <["POST:/rotate-key" :=
                 withKillSwitch (requireFreshWebAuthn rotateKeyHandler)]> h in
    let h := <["GET:/decrypt/:id" := withKillSwitch decryptHandler]> h in
    h.

  (** Dispatch of a request on a registered route key. *)
Definition dispatch (route : string) (req : Http.Request) (w : world)
    : option (outcome Http.Response * world) :=
    match registerHandlers !! route with
    | Some handler => Some (handler req w)
    | None => None
    end.

Definition unlock_routes : list string :=
    ["POST:/unlock/pin"; "POST:/unlock/webauthn/challenge";
     "POST:/unlock/webauthn/finish"].

End Routes.

End Router.

(** ** The asynchronous database writer: [AsyncDbWriter]

    JavaScript runs every synchronous segment to completion, so the writer is
    a state machine whose transitions are those segments: the body of
    [enqueue], the body of the timer callback, the part of [processQueue]
    between two suspensions at [await job()], and the part of [dispose] before
    its [await].  The [logger] calls have no effect on the writer and are left
    out ([warnThreshold] only guards one of them). *)

Module AsyncDbWriter.

(** A job closure, identified by a tag. *)
Definition DbJob : Type := nat.

Record t := {
  queue : list DbJob;
  running : bool;
  intervalId : option nat;                 (* [Timer | null] *)
  maxQueueSize : Z;
  queueDepth : Z;
  droppedJobs : Z;
  totalJobs : Z;
  executed : list DbJob;   (* ghost: the jobs called so far, in call order *)
}.

(** [new AsyncDbWriter(maxQueueSize = 1000)]; [timer] is the handle returned
    by [setInterval]. *)
Definition create (maxQueueSize : Z) (timer : nat) : t :=
  {| queue := []; running := false; intervalId := Some timer;
     maxQueueSize := maxQueueSize;
     queueDepth := 0; droppedJobs := 0; totalJobs := 0; executed := [] |}.

Definition default_maxQueueSize : Z := 1000.

(** How a call of [processQueue] proceeds after its synchronous part. *)
Inductive progress :=
| Finished      (* the call returned: its promise is already resolved *)
| Suspended.    (* the call is suspended at [await job()] *)

(** One turn of [while (this.queue.length > 0) { job = shift(); await job() }]
    with its [finally { this.running = false }]: either a job is taken off
    the queue and called, and the loop suspends, or the loop exits. *)
Definition loop_turn (w : t) : t * progress :=
  match queue w with
  | [] =>
      ({| queue := []; running := false; intervalId := intervalId w;
          maxQueueSize := maxQueueSize w; queueDepth := queueDepth w;
          droppedJobs := droppedJobs w; totalJobs := totalJobs w;
          executed := executed w |}, Finished)
  | job :: rest =>
      ({| queue := rest; running := running w; intervalId := intervalId w;
          maxQueueSize := maxQueueSize w; queueDepth := queueDepth w;
          droppedJobs := droppedJobs w; totalJobs := totalJobs w;
          executed := executed w ++ [job] |}, Suspended)
  end.

(** [processQueue()], up to its first suspension. *)
Definition processQueue (w : t) : t * progress :=
  if running w || (Z.of_nat (length (queue w)) =? 0)
  then (w, Finished)
  else
    loop_turn
      {| queue := queue w; running := true; intervalId := intervalId w;
         maxQueueSize := maxQueueSize w; queueDepth := queueDepth w;
         droppedJobs := droppedJobs w; totalJobs := totalJobs w;
         executed := executed w |}.

(** The continuation of a suspended [processQueue] once the job it awaits
    has settled (a rejection is caught and logged): the next loop turn. *)
Definition resume (w : t) : t * progress := loop_turn w.

(** A suspended loop run until it exits, every awaited job settling. *)
Fixpoint drain (fuel : nat) (w : t) : t :=
  match fuel with
  | O => w
  | S fuel =>
      match resume w with
      | (w', Finished) => w'
      | (w', Suspended) => drain fuel w'
      end
  end.

(** [enqueue(job)] *)
Definition enqueue (job : DbJob) (w : t) : bool * t :=
  let totalJobs' := totalJobs w + 1 in
  let queueDepth' := Z.of_nat (length (queue w)) in
  if maxQueueSize w <=? queueDepth'
  then
    (false,
     {| queue := queue w; running := running w; intervalId := intervalId w;
        maxQueueSize := maxQueueSize w; queueDepth := queueDepth';
        droppedJobs := droppedJobs w + 1; totalJobs := totalJobs';
        executed := executed w |})
  else
    let w1 :=
      {| queue := queue w ++ [job]; running := running w;
         intervalId := intervalId w;
         maxQueueSize := maxQueueSize w; queueDepth := queueDepth';
         droppedJobs := droppedJobs w; totalJobs := totalJobs';
         executed := executed w |} in
    (true, fst (processQueue w1)).       (* [void this.processQueue()] *)

(** The timer callback, [() => void this.processQueue()]; it only fires
    while the interval is set. *)
Definition tick (w : t) : t :=
  match intervalId w with
  | Some _ => fst (processQueue w)
  | None => w
  end.

(** [dispose()], up to its [await this.processQueue()]: the writer after the
    synchronous part, and whether the awaited call is still running. *)
Definition dispose (w : t) : t * progress :=
  processQueue
    {| queue := queue w; running := running w; intervalId := None;
       maxQueueSize := maxQueueSize w; queueDepth := queueDepth w;
       droppedJobs := droppedJobs w; totalJobs := totalJobs w;
       executed := executed w |}.

(** The writer at the moment [dispose()] returns (its promise resolves), when
    nothing else is enqueued meanwhile: when the awaited [processQueue] call
    had returned at once there is nothing to wait for; otherwise [dispose]
    resumes when the loop started by that call exits. *)
Definition dispose_returns (w : t) : t :=
  match dispose w with
  | (w', Finished) => w'
  | (w', Suspended) => drain (S (length (queue w'))) w'
  end.

(** The synchronous segments, as events. *)
Inductive event :=
| Enqueue (job : DbJob)
| JobSettled
| Tick.

Definition step (e : event) (w : t) : t :=
  match e with
  | Enqueue job => snd (enqueue job w)
  | JobSettled => if running w then fst (resume w) else w
  | Tick => tick w
  end.

Definition run (es : list event) (w : t) : t :=
  fold_left (fun w e => step e w) es w.

End AsyncDbWriter.

(** ** JavaScript [Map] with its insertion order

    [Map.prototype.keys()] iterates in insertion order, and [set] on a key
    that is present keeps the key's position.  The map is the list of its
    entries, oldest insertion first. *)

Module JsMap.

Section JsMap.
Context {V : Type}.

Definition t : Type := list (string * V).

Fixpoint get (k : string) (m : t) : option V :=
  match m with
  | [] => None
  | (k', v) :: r => if decide (k = k') then Some v else get k r
  end.

Fixpoint set (k : string) (v : V) (m : t) : t :=
  match m with
  | [] => [(k, v)]
  | (k', v') :: r =>
      if decide (k = k') then (k, v) :: r else (k', v') :: set k v r
  end.

Fixpoint delete (k : string) (m : t) : t :=
  match m with
  | [] => []
  | (k', v') :: r =>
      if decide (k = k') then r else (k', v') :: delete k r
  end.

Definition size (m : t) : Z := Z.of_nat (length m).

(** [m.keys().next().value] *)
Definition first_key (m : t) : option string :=
  match m with
  | [] => None
  | (k, _) :: _ => Some k
  end.

Definition keys (m : t) : list string := map fst m.

End JsMap.

Arguments t V : clear implicits.

End JsMap.

(** ** Bytes, hexadecimal text and JSON metadata *)

Definition bytes : Type := list byte.

Module Hex.

Definition digit (n : N) : ascii :=
  match n with
  | 0 => "0" | 1 => "1" | 2 => "2" | 3 => "3" | 4 => "4" | 5 => "5"
  | 6 => "6" | 7 => "7" | 8 => "8" | 9 => "9" | 10 => "a" | 11 => "b"
  | 12 => "c" | 13 => "d" | 14 => "e" | _ => "f"
  end%N%char.

Definition value (c : ascii) : option N :=
  let n := N_of_ascii c in
  if (48 <=? n)%N && (n <=? 57)%N then Some (n - 48)%N
  else if (97 <=? n)%N && (n <=? 102)%N then Some (n - 87)%N
  else if (65 <=? n)%N && (n <=? 70)%N then Some (n - 55)%N
  else None.

(** [Buffer.from(b).toString("hex")] *)
Fixpoint encode (b : bytes) : string :=
  match b with
  | [] => EmptyString
  | x :: r =>
      String (digit (Byte.to_N x / 16)) (String (digit (Byte.to_N x mod 16))
        (encode r))
  end.

(** [Buffer.from(s, "hex")]: decoding stops at the first pair that is not
    two hexadecimal digits. *)
Fixpoint decode (s : string) : bytes :=
  match s with
  | String a (String b r) =>
      match value a, value b with
      | Some h, Some l =>
          match Byte.of_N (16 * h + l) with
          | Some x => x :: decode r
          | None => []
          end
      | _, _ => []
      end
  | _ => []
  end.

End Hex.

(** The [meta] column holds the text of a flat JSON object (§6 of the
    specification lists the schemas); the model keeps the object that
    [JSON.parse] yields for it, [JSON.stringify] being its inverse on such
    objects. *)
Module Json.

Inductive value :=
| JNull
| JNumber (n : Z)
| JString (s : string).

Definition object : Type := list (string * value).

(** Property access [o.name]: [None] is [undefined]. *)
Fixpoint field (name : string) (o : object) : option value :=
  match o with
  | [] => None
  | (k, v) :: r => if decide (name = k) then Some v else field name r
  end.

(** [Buffer.from(v, "hex")]: only a string is accepted. *)
Definition buffer_from_hex (v : option value) : outcome bytes :=
  match v with
  | Some (JString s) => Return (Hex.decode s)
  | _ => Throw (TypeError "The first argument must be of type string")
  end.

End Json.

(** ** Promises

    An [async] function never throws to its caller: it returns a promise,
    which settles with the function's value or with the exception it raised.
    Only [await] turns the promise back into a value or an exception.  A slot
    typed [Uint8Array] holds whatever the code stored there: bytes, or a
    promise when the code did not [await]. *)

Inductive promise (A : Type) :=
| Fulfilled (a : A)
| Rejected (e : js_error).
Arguments Fulfilled {A} a.
Arguments Rejected {A} e.

Definition settle {A} (o : outcome A) : promise A :=
  match o with
  | Return a => Fulfilled a
  | Throw e => Rejected e
  end.

Inductive jsval :=
| VBytes (b : bytes)
| VPromise (p : promise bytes).

(** ** libsodium

    The audited library behind [getSodium()].  Its functions are parameters
    of the development.  Arguments that the code may pass un-awaited are typed
    [jsval]: what the library does with them is the library's choice. *)

Inductive sodium_error :=
| InvalidInput (msg : string)     (* a [TypeError]: wrong type or length *)
| CannotDecrypt                   (* the ciphertext does not open *)
| OtherFailure (msg : string).

Inductive sodium_result (A : Type) :=
| Ok (a : A)
| Fail (e : sodium_error).
Arguments Ok {A} a.
Arguments Fail {A} e.

(** The exception a failed library call raises in the caller. *)
Definition raised (e : sodium_error) : js_error :=
  match e with
  | InvalidInput msg => TypeError msg
  | CannotDecrypt => DecryptFailed
  | OtherFailure msg => SodiumError msg
  end.

Definition call_sodium {A} (r : sodium_result A) : outcome A :=
  match r with
  | Ok a => Return a
  | Fail e => Throw (raised e)
  end.

Record Sodium := {
  (** [randombytes_buf(n)] at the [i]-th draw of the process *)
  randombytes_buf : nat -> nat -> bytes;
  (** [crypto_aead_xchacha20poly1305_ietf_encrypt(m, null, null, nonce, key)] *)
  crypto_aead_xchacha20poly1305_ietf_encrypt :
    bytes -> bytes -> bytes -> sodium_result bytes;
  (** [crypto_aead_xchacha20poly1305_ietf_decrypt(null, c, null, nonce, key)] *)
  crypto_aead_xchacha20poly1305_ietf_decrypt :
    bytes -> bytes -> jsval -> sodium_result bytes;
  (** [crypto_pwhash(32, pin, salt, 3, 134217728, ALG_DEFAULT)] *)
  crypto_pwhash : string -> jsval -> sodium_result bytes;
}.

(** ** The key store: [KeyStoreRepository] *)

Module KeyStore.

Record KeyStoreItem := {
  id : string;
  type : string;
  blob : bytes;
  nonce : string;                       (* hex *)
  meta : option Json.object;            (* [string | null] *)
}.

(** The [key_store] table, keyed by its primary key [id]. *)
Abbreviation t := (gmap string KeyStoreItem).

(** [create(item)]: the [INSERT] fails on a duplicate primary key. *)
Definition create (item : KeyStoreItem) (ks : t) : outcome unit * t :=
  match ks !! id item with
  | Some _ =>
      (Throw (SqliteConstraint "UNIQUE constraint failed: key_store.id"), ks)
  | None => (Return tt, <[id item := item]> ks)
  end.

(** [findById(id)] *)
Definition findById (i : string) (ks : t) : option KeyStoreItem := ks !! i.

End KeyStore.

(** ** The core services: [CryptoService], [SetupService], [UnlockService]

    The services share the key store ([dbOps]) and libsodium's generator; the
    unlock service owns the master-key cache and the PIN-failure map.  The
    code is written in a state-and-exception monad over these objects. *)

Module Core.

Record CacheEntry := {
  key : jsval;                       (* typed [Uint8Array] *)
  expires : Z;
}.

Record FailureInfo := {
  count : Z;
  lastAttempt : Z;
}.

Record world := {
  keyStore : KeyStore.t;
  draws : nat;                       (* calls of [randombytes_buf] so far *)
  mkCache : JsMap.t CacheEntry;
  pinFailures : gmap string FailureInfo;
}.

Definition M (A : Type) : Type := world -> outcome A * world.

#[global] Instance M_ret : MRet M := fun A a w => (Return a, w).
#[global] Instance M_bind : MBind M := fun A B k c w =>
  match c w with
  | (Return a, w') => k a w'
  | (Throw e, w') => (Throw e, w')
  end.

Definition throw {A} (e : js_error) : M A := fun w => (Throw e, w).

(** [try { body } catch (error) { handler }]: what [body] did to the objects
    before it threw stays done. *)
Definition try_catch {A} (body : M A) (handler : js_error -> M A) : M A :=
  fun w =>
    match body w with
    | (Return a, w') => (Return a, w')
    | (Throw e, w') => handler e w'
    end.

(** [await p] *)
Definition await {A} (p : promise A) : M A :=
  match p with
  | Fulfilled a => mret a
  | Rejected e => throw e
  end.

(** [await f(...)] for an [async] call [f(...)] *)
Definition awaiting {A} (call : M (promise A)) : M A := call ≫= await.

(** The body of an [async] function: the call itself never throws. *)
Definition async {A} (body : M A) : M (promise A) :=
  fun w =>
    match body w with
    | (Return a, w') => (Return (Fulfilled a), w')
    | (Throw e, w') => (Return (Rejected e), w')
    end.

Definition get_keyStore : M KeyStore.t := fun w => (Return (keyStore w), w).
Definition get_mkCache : M (JsMap.t CacheEntry) :=
  fun w => (Return (mkCache w), w).
Definition get_pinFailures : M (gmap string FailureInfo) :=
  fun w => (Return (pinFailures w), w).

Definition put_mkCache (c : JsMap.t CacheEntry) : M unit := fun w =>
  (Return tt, {| keyStore := keyStore w; draws := draws w;
                 mkCache := c; pinFailures := pinFailures w |}).
Definition put_pinFailures (f : gmap string FailureInfo) : M unit := fun w =>
  (Return tt, {| keyStore := keyStore w; draws := draws w;
                 mkCache := mkCache w; pinFailures := f |}).

(** [keyStore.create(item)] *)
Definition keyStore_create (item : KeyStore.KeyStoreItem) : M unit := fun w =>
  let '(r, ks) := KeyStore.create item (keyStore w) in
  (r, {| keyStore := ks; draws := draws w;
         mkCache := mkCache w; pinFailures := pinFailures w |}).

Section Services.
Variable sodium : Sodium.

(** *** crypto.service.ts: [CryptoService] *)

Definition generateKey (length : nat) : M (promise bytes) := fun w =>
  (Return (Fulfilled (randombytes_buf sodium (draws w) length)),
   {| keyStore := keyStore w; draws := S (draws w);
      mkCache := mkCache w; pinFailures := pinFailures w |}).

Definition aeadEncrypt (plaintext nonce key : bytes) : M (promise bytes) :=
  async (fun w =>
    (call_sodium
       (crypto_aead_xchacha20poly1305_ietf_encrypt sodium plaintext nonce
          key), w)).

Definition aeadDecrypt (ciphertext nonce : bytes) (key : jsval)
  : M (promise bytes) :=
  async (fun w =>
    (call_sodium
       (crypto_aead_xchacha20poly1305_ietf_decrypt sodium ciphertext nonce
          key), w)).

Definition deriveKeyFromPin (pin : string) (salt : jsval)
  : M (promise bytes) :=
  async (fun w => (call_sodium (crypto_pwhash sodium pin salt), w)).

Definition crypto_aead_xchacha20poly1305_ietf_NPUBBYTES : nat := 24.

Record WrappedKey := {
  ciphertext : bytes;
  wrap_nonce : bytes;                       (* the field [nonce] *)
}.

Definition wrapKey (keyToWrap wrappingKey : bytes) : M (promise WrappedKey) :=
  async (
    nonce ← awaiting
              (generateKey crypto_aead_xchacha20poly1305_ietf_NPUBBYTES);
    ciphertext ← awaiting (aeadEncrypt keyToWrap nonce wrappingKey);
    mret {| ciphertext := ciphertext; wrap_nonce := nonce |}).

(** [async unwrapKey(...) { return this.aeadDecrypt(...) }]: the returned
    promise settles as the inner one does. *)
Definition unwrapKey (ciphertext nonce : bytes) (wrappingKey : jsval)
  : M (promise bytes) :=
  async (awaiting (aeadDecrypt ciphertext nonce wrappingKey)).

(** *** crypto.service.ts: [SetupService] *)

Definition setPin (userId pin : string) : M (promise unit) :=
  async (
    mk ← awaiting (generateKey 32);
    dek ← awaiting (generateKey 32);
    (* wrap DEK with MK *)
    wrappedDek ← awaiting (wrapKey dek mk);
    _ ← keyStore_create
          {| KeyStore.id := "dek_" +:+ userId;
             KeyStore.type := "data_encryption_key";
             KeyStore.blob := ciphertext wrappedDek;
             KeyStore.nonce := Hex.encode (wrap_nonce wrappedDek);
             KeyStore.meta := Some [("version", Json.JNumber 1)] |};
    (* derive KEK from PIN *)
    salt ← awaiting (generateKey 16);
    kek ← awaiting (deriveKeyFromPin pin (VBytes salt));
    (* wrap MK with KEK and store it *)
    wrappedMk ← awaiting (wrapKey mk kek);
    keyStore_create
      {| KeyStore.id := "mk_pin_" +:+ userId;
         KeyStore.type := "master_key_pin";
         KeyStore.blob := ciphertext wrappedMk;
         KeyStore.nonce := Hex.encode (wrap_nonce wrappedMk);
         KeyStore.meta :=
           Some [("salt", Json.JString (Hex.encode salt))] |}).

(** *** unlock.service.ts: [UnlockService] *)

Definition mkCacheTTL : Z := 30 * 60 * 1000.
Definition pinLockoutDuration : Z := 15 * 60 * 1000.
Definition maxPinAttempts : Z := 5.

Definition getMasterKeyFromCache (now : Z) (userId : string)
  : M (option jsval) :=
  cache ← get_mkCache;
  match JsMap.get userId cache with
  | Some cached =>
      if now <? expires cached
      then
        (* reset TTL on access: [cached.expires = ...] updates the entry *)
        _ ← put_mkCache
              (JsMap.set userId
                 {| key := key cached; expires := now + mkCacheTTL |} cache);
        mret (Some (key cached))
      else
        _ ← put_mkCache (JsMap.delete userId cache);
        mret None
  | None =>
      _ ← put_mkCache (JsMap.delete userId cache);
      mret None
  end.

Definition setMasterKeyInCache (now : Z) (userId : string) (k : jsval)
  : M unit :=
  cache ← get_mkCache;
  let cache :=
    if 100 <=? JsMap.size cache
    then
      (* remove the oldest entry *)
      match JsMap.first_key cache with
      | Some oldestKey => JsMap.delete oldestKey cache
      | None => cache
      end
    else cache in
  put_mkCache
    (JsMap.set userId {| key := k; expires := now + mkCacheTTL |} cache).

Definition account_locked : js_error :=
  Error "Account is locked due to too many failed PIN attempts.".

(** [failureInfo && failureInfo.count >= maxPinAttempts
     && Date.now() - failureInfo.lastAttempt < pinLockoutDuration] *)
Definition locked_out (now : Z) (failureInfo : option FailureInfo) : bool :=
  match failureInfo with
  | Some fi =>
      (maxPinAttempts <=? count fi)
      && (now - lastAttempt fi <? pinLockoutDuration)
  | None => false
  end.

Definition unlockWithPin (now : Z) (userId pin : string) : M (promise bool) :=
  async (
    failures ← get_pinFailures;
    let failureInfo := failures !! userId in
    if locked_out now failureInfo then throw account_locked
    else
      keyStore ← get_keyStore;
      let wrappedMkItem := KeyStore.findById ("mk_pin_" +:+ userId) keyStore in
      match wrappedMkItem ≫= (fun item =>
              KeyStore.meta item ≫= (fun m => Some (item, m))) with
      | None =>
          (* dummy key derivation; [generateKey] is not awaited *)
          dummySalt ← generateKey 16;
          _ ← awaiting (deriveKeyFromPin pin (VPromise dummySalt));
          mret false
      | Some (wrappedMkItem, meta) =>
          salt ← (fun w => (Json.buffer_from_hex (Json.field "salt" meta), w));
          kek ← awaiting (deriveKeyFromPin pin (VBytes salt));
          try_catch
            ((* [unwrapKey] is not awaited: [mk] is its promise *)
             mk ← unwrapKey (KeyStore.blob wrappedMkItem)
                    (Hex.decode (KeyStore.nonce wrappedMkItem)) (VBytes kek);
             _ ← setMasterKeyInCache now userId (VPromise mk);
             failures ← get_pinFailures;
             _ ← put_pinFailures (delete userId failures);
             mret true)
            (fun error =>
               failures ← get_pinFailures;
               _ ← put_pinFailures
                     (<[userId :=
                          {| count := from_option count 0 failureInfo + 1;
                             lastAttempt := now |}]> failures);
               mret false)
      end).

(** [getDecryptedDek(userId)]: a synchronous function; the value it returns
    for [dek] is the promise of the un-awaited [unwrapKey]. *)
Definition getDecryptedDek (now : Z) (userId : string) : M (option jsval) :=
  mk ← getMasterKeyFromCache now userId;
  match mk with
  | None => mret None
  | Some mk =>
      keyStore ← get_keyStore;
      match KeyStore.findById ("dek_" +:+ userId) keyStore with
      | None => mret None
      | Some wrappedDekItem =>
          try_catch
            (dek ← unwrapKey (KeyStore.blob wrappedDekItem)
                     (Hex.decode (KeyStore.nonce wrappedDekItem)) mk;
             mret (Some (VPromise dek)))
            (fun error => mret None)
      end
  end.

End Services.

(** [new UnlockService(dbOps, crypto)] over a given key store. *)
Definition init (ks : KeyStore.t) : world :=
  {| keyStore := ks; draws := 0; mkCache := []; pinFailures := ∅ |}.

End Core.

(** ** Runs of the rate limiter *)

Module RateLimiterRuns.

(** The limiter called once per event [(now, key)]; the answers of [limit]
    ([true]: refused) in order. *)
Fixpoint run (evs : list (Z * string)) (rl : RateLimiter.t)
  : list bool * RateLimiter.t :=
  match evs with
  | [] => ([], rl)
  | (now, key) :: r =>
      let '(over, rl1) := RateLimiter.limit now key rl in
      let '(ds, rl2) := run r rl1 in
      (over :: ds, rl2)
  end.

(** The requests of one key at the given times. *)
Definition decisions (key : string) (ts : list Z) (rl : RateLimiter.t)
  : list bool :=
  fst (run (map (fun t => (t, key)) ts) rl).

(** The number of admitted requests with a time in [[t, t + window)]. *)
Definition admitted_within (t window : Z) (log : list (Z * bool)) : Z :=
  Z.of_nat (length (filter
    (fun e => negb (snd e) && (t <=? fst e) && (fst e <? t + window)) log)).

(** A sliding-window bound on a log of (time, refused) pairs. *)
Definition sliding_window_bound (maxRequests window : Z)
    (log : list (Z * bool)) : Prop :=
  forall t, admitted_within t window log <= maxRequests.

(** Ten requests of one address: one at 0 ms, four at 59 s, five just after
    60 s. *)
Definition burst : list Z :=
  [0; 59000; 59000; 59000; 59000; 60001; 60001; 60001; 60001; 60001].

Definition burst_log : list (Z * bool) :=
  combine burst
    (decisions "203.0.113.7" burst (RateLimiter.create 5 60000)).

End RateLimiterRuns.

(** ** Sample requests and worlds *)

Module Samples.
Import Api.

(** A handler that answers [200 OK] and leaves the world alone. *)
Definition ok_handler : Handler :=
  fun req w => (Return {| Http.status := 200; Http.payload := "OK" |}, w).

(** A handler that records its call by opening a session. *)
Definition marking_handler : Handler :=
  fun req w =>
    (Return {| Http.status := 200; Http.payload := "OK" |},
     {| clock := clock w; killSwitch := killSwitch w;
        unlockRateLimiter := unlockRateLimiter w;
        exportRateLimiter := exportRateLimiter w;
        sessions := <["called" := empty_session]> (sessions w) |}).

Definition request_of (hs : list (string * string)) : Http.Request :=
  {| Http.headers := list_to_map hs; Http.body := EmptyString |}.

(** A request of a browser that holds the session cookie [s1]. *)
Definition cookie_request : Http.Request :=
  request_of [("cookie", "theme=dark; session_id=s1; lang=en");
              ("x-forwarded-for", "203.0.113.7")].

(** A world in which session [s1] passed user verification at
    1700000000000 ms and the clock reads [now]. *)
Definition verified_world (now : Z) (kill : bool) : world :=
  {| clock := now; killSwitch := kill;
     unlockRateLimiter := RateLimiter.create 5 60000;
     exportRateLimiter := RateLimiter.create 2 60000;
     sessions :=
       {[ "s1" := {| userId := Some "u1"; challenge := None;
                     lastUVAt := Some 1700000000000 |} ]} |}.

End Samples.

(** ** A small libsodium for running the services

    A stand-in with the interface of [Sodium] on which the services can be
    evaluated: the generator returns the draw index repeated, the AEAD seals
    a message by prefixing key and nonce (opening checks the prefix), and the
    password hash pads PIN and salt to 32 bytes.  Like libsodium's wrappers
    it raises [TypeError] on an argument that is not a byte array, and on a
    salt that is not 16 bytes long. *)

Module ToySodium.

Fixpoint bytes_eqb (a b : bytes) : bool :=
  match a, b with
  | [], [] => true
  | x :: a', y :: b' => Byte.eqb x y && bytes_eqb a' b'
  | _, _ => false
  end.

Definition byte_of_nat (n : nat) : byte :=
  default x00 (Byte.of_N (N.of_nat n mod 256)%N).

Definition toy_randombytes_buf (i n : nat) : bytes :=
  repeat (byte_of_nat (S i)) n.

Definition toy_encrypt (message nonce k : bytes) : sodium_result bytes :=
  Ok (k ++ nonce ++ message).

Definition toy_decrypt (c nonce : bytes) (k : jsval) : sodium_result bytes :=
  match k with
  | VBytes k =>
      let tag := k ++ nonce in
      if bytes_eqb (take (length tag) c) tag
      then Ok (drop (length tag) c)
      else Fail CannotDecrypt
  | VPromise _ => Fail (InvalidInput "unsupported input type for key")
  end.

Definition toy_pwhash (pin : string) (salt : jsval) : sodium_result bytes :=
  match salt with
  | VBytes s =>
      if Nat.eqb (length s) 16
      then Ok (take 32 (String.list_byte_of_string pin ++ s
                        ++ repeat x00 32))
      else Fail (InvalidInput "invalid salt length")
  | VPromise _ => Fail (InvalidInput "unsupported input type for salt")
  end.

Definition toy : Sodium :=
  {| randombytes_buf := toy_randombytes_buf;
     crypto_aead_xchacha20poly1305_ietf_encrypt := toy_encrypt;
     crypto_aead_xchacha20poly1305_ietf_decrypt := toy_decrypt;
     crypto_pwhash := toy_pwhash |}.

End ToySodium.

(** ** Calls of the core services, in sequence *)

Module Calls.
Import Core.

Inductive call :=
| UnlockWithPin (now : Z) (userId pin : string)
| SetPin (userId pin : string)
| GetDecryptedDek (now : Z) (userId : string).

Inductive answer :=
| Unlocked (r : outcome (promise bool))
| PinSet (r : outcome (promise unit))
| Dek (r : outcome (option jsval)).

Definition perform (sodium : Sodium) (c : call) (w : world) : answer * world :=
  match c with
  | UnlockWithPin now userId pin =>
      let '(r, w') := unlockWithPin sodium now userId pin w in (Unlocked r, w')
  | SetPin userId pin =>
      let '(r, w') := setPin sodium userId pin w in (PinSet r, w')
  | GetDecryptedDek now userId =>
      let '(r, w') := getDecryptedDek sodium now userId w in (Dek r, w')
  end.

(** The calls performed one after the other, each with its answer. *)
Fixpoint trace (sodium : Sodium) (cs : list call) (w : world)
  : list (call * answer) :=
  match cs with
  | [] => []
  | c :: cs' =>
      let '(a, w') := perform sodium c w in
      (c, a) :: trace sodium cs' w'
  end.

Definition provisions (userId : string) (c : call) : Prop :=
  match c with
  | SetPin u _ => u = userId
  | _ => False
  end.

(** The state of a user who was never given a PIN. *)
Definition unprovisioned (userId : string) (w : world) : Prop :=
  keyStore w !! ("mk_pin_" +:+ userId) = None
  /\ pinFailures w !! userId = None.

End Calls.

(** The world after a sequence of calls. *)
Definition run_calls (sodium : Sodium) (cs : list Calls.call) (w : Core.world)
  : Core.world :=
  fold_left (fun w c => snd (Calls.perform sodium c w)) cs w.

(** ** The master-key cache as the unlock service drives it *)

Module MkCache.
Import Core.

(** The two private methods on the cache alone. *)
Definition read (now : Z) (userId : string) (c : JsMap.t CacheEntry)
  : option jsval * JsMap.t CacheEntry :=
  match JsMap.get userId c with
  | Some cached =>
      if now <? expires cached
      then (Some (key cached),
            JsMap.set userId
              {| key := key cached; expires := now + mkCacheTTL |} c)
      else (None, JsMap.delete userId c)
  | None => (None, JsMap.delete userId c)
  end.

Definition write (now : Z) (userId : string) (k : jsval)
    (c : JsMap.t CacheEntry) : JsMap.t CacheEntry :=
  JsMap.set userId {| key := k; expires := now + mkCacheTTL |}
    (if 100 <=? JsMap.size c
     then match JsMap.first_key c with
          | Some oldestKey => JsMap.delete oldestKey c
          | None => c
          end
     else c).

(** The caches that the service can build from the empty one. *)
Inductive reachable : JsMap.t CacheEntry -> Prop :=
| reach_empty : reachable []
| reach_write now userId k c :
    reachable c -> reachable (write now userId k c)
| reach_read now userId c :
    reachable c -> reachable (snd (read now userId c)).

End MkCache.

(** ** Scenarios of the core services *)

Module Scenarios.
Import Core.

(** The world after [set_pin("u1", "1234")] on an empty key store. *)
Definition provisioned : world :=
  snd (setPin ToySodium.toy "u1" "1234" (init ∅)).

(** The DEK and MK that this [setPin] generated: its second and first
    draws. *)
Definition u1_mk : bytes := randombytes_buf ToySodium.toy 0 32.
Definition u1_dek : bytes := randombytes_buf ToySodium.toy 1 32.

(** Six attempts on ["u1"] with a wrong PIN, one per second. *)
Definition six_wrong_pins : list Calls.call :=
  map (fun i => Calls.UnlockWithPin (1000 * i) "u1" "0000") [1; 2; 3; 4; 5; 6].

(** A world with [n] failures on record for ["u1"], the last one at time
    [last]. *)
Definition with_failures (n last : Z) (w : world) : world :=
  {| keyStore := keyStore w; draws := draws w; mkCache := mkCache w;
     pinFailures :=
       <["u1" := {| count := n; lastAttempt := last |}]> (pinFailures w) |}.

End Scenarios.

Ltac monad_unfold :=
  unfold mbind, Core.M_bind, mret, Core.M_ret, Core.throw, Core.try_catch,
    Core.await, Core.awaiting, Core.async, Core.get_keyStore,
    Core.get_mkCache, Core.get_pinFailures, Core.put_mkCache,
    Core.put_pinFailures, Core.keyStore_create in *.

(** Evaluation of [setPin] down to the library calls and the key-store
    lookups. *)
Ltac run_monad :=
  cbv [Core.setPin Core.wrapKey Core.generateKey Core.aeadEncrypt
       Core.deriveKeyFromPin Core.awaiting Core.await Core.async
       mbind Core.M_bind mret Core.M_ret Core.throw Core.keyStore_create
       KeyStore.create call_sodium] in *;
  cbn [Core.keyStore Core.draws Core.mkCache Core.pinFailures KeyStore.id
       Core.ciphertext Core.wrap_nonce fst snd] in *.

(** Case analysis on the next library call or key-store lookup. *)
Ltac break_call :=
  match goal with
  | |- context [match crypto_aead_xchacha20poly1305_ietf_encrypt ?s ?a ?b ?c
                with _ => _ end] =>
      destruct (crypto_aead_xchacha20poly1305_ietf_encrypt s a b c) eqn:?
  | |- context [match crypto_pwhash ?s ?a ?b with _ => _ end] =>
      destruct (crypto_pwhash s a b) eqn:?
  | |- context [match ?m !! ?k with _ => _ end] =>
      destruct (m !! k) eqn:?
  | H : context [match crypto_aead_xchacha20poly1305_ietf_encrypt ?s ?a ?b ?c
                 with _ => _ end] |- _ =>
      destruct (crypto_aead_xchacha20poly1305_ietf_encrypt s a b c) eqn:?
  | H : context [match crypto_pwhash ?s ?a ?b with _ => _ end] |- _ =>
      destruct (crypto_pwhash s a b) eqn:?
  | H : context [match ?m !! ?k with _ => _ end] |- _ =>
      destruct (m !! k) eqn:?
  end.

(** ** States of the asynchronous writer *)

Module AsyncWriterStates.
Import AsyncDbWriter.

(** Between two segments, a writer whose loop is not running has nothing
    queued. *)
Definition idle_means_empty (w : t) : Prop :=
  running w = false -> queue w = [].

(** Three jobs enqueued back to back on a new writer. *)
Definition three_enqueued : t :=
  run [Enqueue 1%nat; Enqueue 2%nat; Enqueue 3%nat]
    (create default_maxQueueSize 7).

End AsyncWriterStates.

(** ** Logs of the rate limiter *)

Module RateLimiterLogs.
Import RateLimiter RateLimiterRuns.

(** The times at which one key asks, in an interleaved run. *)
Definition times_of (key : string) (evs : list (Z * string)) : list Z :=
  map fst (List.filter (fun e => bool_decide (snd e = key)) evs).

(** The answers one key gets in an interleaved run. *)
Definition answers_for (key : string) (evs : list (Z * string))
    (rl : RateLimiter.t) : list bool :=
  map snd
    (List.filter (fun e => bool_decide (snd (fst e) = key))
       (combine evs (fst (run evs rl)))).

(** The (time, refused) log of the requests of one key. *)
Definition log_of (key : string) (ts : list Z) (rl : RateLimiter.t)
  : list (Z * bool) :=
  combine ts (decisions key ts rl).

(** The number of admitted requests with a time up to [x]. *)
Definition admitted_upto (x : Z) (log : list (Z * bool)) : Z :=
  Z.of_nat (length (List.filter
    (fun e => negb (snd e) && (fst e <=? x)) log)).

(** The clock never runs backwards. *)
Fixpoint nondecreasing (ts : list Z) : Prop :=
  match ts with
  | [] => True
  | t :: r => Forall (fun u => t <= u) r /\ nondecreasing r
  end.

(** Clients ["a"] and ["b"] interleaved. *)
Definition two_clients : list (Z * string) :=
  [(0, "a"); (10, "b"); (59000, "a"); (59000, "a"); (59000, "b");
   (59000, "a"); (59000, "a"); (60001, "a"); (60001, "a"); (60001, "a");
   (60001, "b"); (60001, "a"); (60001, "a")].

End RateLimiterLogs.

(** ** Runs of the asynchronous writer *)

Module AsyncWriterRuns.
Import AsyncDbWriter.

(** The jobs that [enqueue] accepted (returned [true] for) during a run, in
    the order of the calls. *)
Fixpoint accepted (es : list event) (w : t) : list DbJob :=
  match es with
  | [] => []
  | Enqueue job :: es' =>
      if fst (enqueue job w)
      then job :: accepted es' (step (Enqueue job) w)
      else accepted es' (step (Enqueue job) w)
  | e :: es' => accepted es' (step e w)
  end.

(** The jobs that [enqueue] refused during a run. *)
Fixpoint refused (es : list event) (w : t) : list DbJob :=
  match es with
  | [] => []
  | Enqueue job :: es' =>
      if fst (enqueue job w)
      then refused es' (step (Enqueue job) w)
      else job :: refused es' (step (Enqueue job) w)
  | e :: es' => refused es' (step e w)
  end.

(** A burst of five jobs on a writer that queues at most two, the awaited
    job settling once in between. *)
Definition small_burst : list event :=
  [Enqueue 1%nat; Enqueue 2%nat; Enqueue 3%nat; Enqueue 4%nat; JobSettled;
   Tick; Enqueue 5%nat].

End AsyncWriterRuns.

(** ** What the services ask of libsodium *)

Module SodiumLaws.

(** The AEAD opens what it sealed, under the same nonce and key. *)
Definition aead_opens (sodium : Sodium) : Prop :=
  forall message nonce k c,
    crypto_aead_xchacha20poly1305_ietf_encrypt sodium message nonce k = Ok c ->
    crypto_aead_xchacha20poly1305_ietf_decrypt sodium c nonce (VBytes k)
    = Ok message.

(** A libsodium whose password hash cannot allocate its 128 MiB. *)
Definition out_of_memory : Sodium :=
  {| randombytes_buf := ToySodium.toy_randombytes_buf;
     crypto_aead_xchacha20poly1305_ietf_encrypt := ToySodium.toy_encrypt;
     crypto_aead_xchacha20poly1305_ietf_decrypt := ToySodium.toy_decrypt;
     crypto_pwhash := fun _ _ => Fail (OtherFailure "out of memory") |}.

End SodiumLaws.

(** ** The rest of [KeyStoreRepository] *)

Module KeyStoreOps.
Import KeyStore.

(** [update(id, blob, nonce, meta)]: an [UPDATE ... WHERE id = ?] that finds
    no row changes nothing and raises nothing.  [meta || null] is the
    metadata itself when it is the text of an object. *)
Definition update (i : string) (blob : bytes) (nonce : string)
    (meta : option Json.object) (ks : t) : t :=
  match ks !! i with
  | Some item =>
      <[i := {| id := id item; type := type item; blob := blob;
                nonce := nonce; meta := meta |}]> ks
  | None => ks
  end.

(** ASCII letters compared without case, as SQLite's [LIKE] does. *)
Definition lower (c : ascii) : ascii :=
  let n := N_of_ascii c in
  if (65 <=? n)%N && (n <=? 90)%N then ascii_of_N (n + 32) else c.

(** SQLite's [s LIKE p]: ['%'] stands for any run of characters, ['_'] for
    any one character. *)
Fixpoint like (p : string) : string -> bool :=
  match p with
  | EmptyString => fun s => match s with EmptyString => true | _ => false end
  | String c p' =>
      if Ascii.eqb c "%"
      then fix any (s : string) : bool :=
             like p' s
             || match s with
                | EmptyString => false
                | String _ s' => any s'
                end
      else if Ascii.eqb c "_"
      then fun s => match s with
                    | EmptyString => false
                    | String _ s' => like p' s'
                    end
      else fun s => match s with
                    | EmptyString => false
                    | String d s' =>
                        Ascii.eqb (lower c) (lower d) && like p' s'
                    end
  end.

(** [hasMasterKey()]:
    [SELECT COUNT( * ) ... WHERE type LIKE 'master_key_%'], then
    [count > 0]. *)
Definition hasMasterKey (ks : t) : bool :=
  bool_decide
    (0 < size (filter (fun kv => like "master_key_%" (type (snd kv)) = true)
                 ks))%nat.

End KeyStoreOps.

(** ** [unlockWithWebAuthn] and [deriveKeyFromWebAuthn]

    The assertion is an object of the shape the browser's WebAuthn API
    produces: an [id] and a [response] with [clientDataJSON] and
    [signature]; whatever else it holds is for the verifier alone. *)

Module WebAuthn.
Import Core.

Record AssertionResponse := {
  assertion_id : string;                    (* [assertionResponse.id] *)
  clientDataJSON : string;                  (* [.response.clientDataJSON] *)
  signature : string;                       (* [.response.signature] *)
  authenticatorData : string;
}.

Record Authenticator := {
  credentialID : bytes;
  credentialPublicKey : bytes;
  counter : option Json.value;              (* as found in the metadata *)
}.

(** The libraries behind the WebAuthn unlock. *)
Record Libs := {
  (** [Buffer.from(s, "base64")] on a string *)
  base64_decode : string -> bytes;
  (** [await verifyAuthenticationResponse({ response, expectedChallenge,
      expectedOrigin, expectedRPID, authenticator })]: [verified] and
      [authenticationInfo.newCounter] *)
  verifyAuthenticationResponse :
    AssertionResponse -> string -> string -> string -> Authenticator ->
    outcome (bool * Z);
  (** [JSON.parse(clientDataJSON).challenge] *)
  client_data_challenge : string -> outcome (option Json.value);
  (** [sodium.from_base64(v, URLSAFE_NO_PADDING)] *)
  from_base64 : option Json.value -> sodium_result bytes;
  (** [hkdf("sha256", ikm, salt, info, length, callback)] *)
  hkdf_sha256 : bytes -> bytes -> string -> nat -> outcome bytes;
}.

(** [Buffer.from(v, "base64")]: only a string is accepted. *)
Definition buffer_from_base64 (libs : Libs) (v : option Json.value)
  : outcome bytes :=
  match v with
  | Some (Json.JString s) => Return (base64_decode libs s)
  | _ => Throw (TypeError "The first argument must be of type string")
  end.

(** [{ ...o, name: v }] *)
Fixpoint set_field (name : string) (v : Json.value) (o : Json.object)
  : Json.object :=
  match o with
  | [] => [(name, v)]
  | (k, v') :: r =>
      if decide (name = k) then (k, v) :: r else (k, v') :: set_field name v r
  end.

(** A synchronous computation that leaves the objects alone. *)
Definition pure {A} (o : outcome A) : M A := fun w => (o, w).

(** [keyStore.update(id, blob, nonce, meta)] *)
Definition keyStore_update (i : string) (blob : bytes) (nonce : string)
    (meta : option Json.object) : M unit := fun w =>
  (Return tt,
   {| keyStore := KeyStoreOps.update i blob nonce meta (keyStore w);
      draws := draws w; mkCache := mkCache w;
      pinFailures := pinFailures w |}).

Section WebAuthnServices.
Variable sodium : Sodium.
Variable libs : Libs.

(** *** crypto.service.ts: [deriveKeyFromWebAuthn] *)
Definition deriveKeyFromWebAuthn (clientDataJSON credentialId signature
    : string) (salt : bytes) : M (promise bytes) :=
  async (
    challenge ← pure (client_data_challenge libs clientDataJSON);
    challengeBytes ← pure (call_sodium (from_base64 libs challenge));
    credentialIdBytes ←
      pure (call_sodium
              (from_base64 libs (Some (Json.JString credentialId))));
    signatureBytes ←
      pure (call_sodium
              (from_base64 libs (Some (Json.JString signature))));
    let ikm := challengeBytes ++ credentialIdBytes ++ signatureBytes in
    pure (hkdf_sha256 libs ikm salt "ccflare-webauthn-kek" 32)).

(** *** unlock.service.ts: [unlockWithWebAuthn] *)
Definition unlockWithWebAuthn (now : Z) (userId : string)
    (assertionResponse : AssertionResponse)
    (expectedChallenge rpID rpOrigin : string) : M (promise bool) :=
  async (
    keyStore ← get_keyStore;
    let fido2Key :=
      KeyStore.findById
        ("fido2_" +:+ userId +:+ "_" +:+ assertion_id assertionResponse)
        keyStore in
    match fido2Key ≫= (fun item =>
            KeyStore.meta item ≫= (fun m => Some (item, m))) with
    | None => mret false
    | Some (fido2Key, meta) =>
        credentialID ←
          pure (buffer_from_base64 libs (Json.field "credentialID" meta));
        credentialPublicKey ←
          pure (buffer_from_base64 libs
                  (Json.field "credentialPublicKey" meta));
        let authenticator :=
          {| credentialID := credentialID;
             credentialPublicKey := credentialPublicKey;
             counter := Json.field "counter" meta |} in
        verification ←
          pure (verifyAuthenticationResponse libs assertionResponse
                  expectedChallenge rpOrigin rpID authenticator);
        let '(verified, newCounter) := verification in
        if negb verified then mret false
        else
          (* update the counter *)
          let newMeta := set_field "counter" (Json.JNumber newCounter) meta in
          _ ← keyStore_update (KeyStore.id fido2Key) (KeyStore.blob fido2Key)
                (KeyStore.nonce fido2Key) (Some newMeta);
          salt ← pure (Json.buffer_from_hex (Json.field "salt" meta));
          kek ← awaiting
                  (deriveKeyFromWebAuthn (clientDataJSON assertionResponse)
                     (assertion_id assertionResponse)
                     (signature assertionResponse) salt);
          keyStore ← get_keyStore;
          match KeyStore.findById ("mk_fido_" +:+ userId) keyStore with
          | None => mret false
          | Some wrappedMkItem =>
              (* [unwrapKey] is not awaited: [mk] is its promise *)
              mk ← unwrapKey sodium (KeyStore.blob wrappedMkItem)
                     (Hex.decode (KeyStore.nonce wrappedMkItem)) (VBytes kek);
              _ ← setMasterKeyInCache now userId (VPromise mk);
              mret true
          end
    end).

End WebAuthnServices.

(** The key [deriveKeyFromWebAuthn] resolves to, when every step
    succeeds. *)
Definition webauthn_kek (libs : Libs) (a : AssertionResponse) (salt : bytes)
  : outcome bytes :=
  obind (client_data_challenge libs (clientDataJSON a)) (fun challenge =>
  obind (call_sodium (from_base64 libs challenge)) (fun challengeBytes =>
  obind (call_sodium
           (from_base64 libs (Some (Json.JString (assertion_id a)))))
    (fun credentialIdBytes =>
  obind (call_sodium (from_base64 libs (Some (Json.JString (signature a)))))
    (fun signatureBytes =>
  hkdf_sha256 libs (challengeBytes ++ credentialIdBytes ++ signatureBytes)
    salt "ccflare-webauthn-kek" 32)))).

(** The world after the counter update. *)
Definition counted (item : KeyStore.KeyStoreItem) (meta : Json.object)
    (c : Z) (w : world) : world :=
  {| keyStore :=
       KeyStoreOps.update (KeyStore.id item) (KeyStore.blob item)
         (KeyStore.nonce item)
         (Some (set_field "counter" (Json.JNumber c) meta)) (keyStore w);
     draws := draws w; mkCache := mkCache w;
     pinFailures := pinFailures w |}.

(** A world with other PIN failures on record. *)
Definition with_pinFailures (f : gmap string FailureInfo) (w : world)
  : world :=
  {| keyStore := keyStore w; draws := draws w; mkCache := mkCache w;
     pinFailures := f |}.

End WebAuthn.

(** ** Stand-ins for the WebAuthn libraries, and a registered passkey *)

Module ToyWebAuthn.
Import WebAuthn.

Definition text (v : option Json.value) : sodium_result bytes :=
  match v with
  | Some (Json.JString s) => Ok (String.list_byte_of_string s)
  | _ => Fail (InvalidInput "unsupported input type for input")
  end.

(** The verifier accepts the signature ["good"] over the expected challenge
    and counts one up. *)
Definition toy_verify (a : AssertionResponse)
    (expectedChallenge rpOrigin rpID : string) (auth : Authenticator)
  : outcome (bool * Z) :=
  Return (String.eqb (signature a) "good"
          && String.eqb (clientDataJSON a) expectedChallenge,
          match counter auth with
          | Some (Json.JNumber n) => n + 1
          | _ => 1
          end).

Definition toy_libs : Libs :=
  {| base64_decode := String.list_byte_of_string;
     verifyAuthenticationResponse := toy_verify;
     client_data_challenge := fun s => Return (Some (Json.JString s));
     from_base64 := text;
     hkdf_sha256 := fun ikm salt info n =>
       Return (take n (ikm ++ salt ++ repeat x00 n)) |}.

(** User ["u1"] with the passkey ["k1"]: its credential row, without and
    with a master key wrapped for it. *)
Definition passkey_row : KeyStore.KeyStoreItem :=
  {| KeyStore.id := "fido2_u1_k1"; KeyStore.type := "fido2_u1";
     KeyStore.blob := []; KeyStore.nonce := "";
     KeyStore.meta :=
       Some [("credentialID", Json.JString "k1");
             ("credentialPublicKey", Json.JString "pk");
             ("counter", Json.JNumber 7);
             ("salt", Json.JString "000102030405060708090a0b0c0d0e0f")] |}.

Definition wrapped_mk_row : KeyStore.KeyStoreItem :=
  {| KeyStore.id := "mk_fido_u1"; KeyStore.type := "master_key_fido";
     KeyStore.blob := [x01; x02; x03]; KeyStore.nonce := "0a0b";
     KeyStore.meta := None |}.

Definition passkey_only : Core.world :=
  Core.init {[ "fido2_u1_k1" := passkey_row ]}.

Definition enrolled : Core.world :=
  Core.init (<["mk_fido_u1" := wrapped_mk_row]>
               {[ "fido2_u1_k1" := passkey_row ]}).

Definition good_assertion : AssertionResponse :=
  {| assertion_id := "k1"; clientDataJSON := "c-42"; signature := "good";
     authenticatorData := "" |}.

Definition bad_assertion : AssertionResponse :=
  {| assertion_id := "k1"; clientDataJSON := "c-42"; signature := "forged";
     authenticatorData := "" |}.

End ToyWebAuthn.

(** ** middleware/session.ts: [saveSession] *)

Module SessionStore.
Import Api.

(** The [Set-Cookie] header of a saved session. *)
Definition set_cookie (sessionId : string) : string :=
  "session_id=" +:+ sessionId +:+ "; HttpOnly; Path=/; SameSite=Lax".

(** [saveSession(res, session)]: [uuid] is the value of [randomUUID()].  The
    result is the [Set-Cookie] header put on the response and the session
    id. *)
Definition saveSession (uuid : string) (session : Session) (w : world)
  : (string * string) * world :=
  let sessionId := uuid in
  ((set_cookie sessionId, sessionId),
   {| clock := clock w; killSwitch := killSwitch w;
      unlockRateLimiter := unlockRateLimiter w;
      exportRateLimiter := exportRateLimiter w;
      sessions := <[sessionId := session]> (sessions w) |}).

(** What a browser keeps of a [Set-Cookie] header and sends back: the
    name-value pair before the first [';']. *)
Definition cookie_pair (header : string) : string := until_semicolon header.

(** In [pre] followed by ["session_id="], the text ["session_id="] occurs
    at the end only. *)
Fixpoint first_at_end (pre : string) : bool :=
  match pre with
  | EmptyString => true
  | String _ pre' =>
      match strip_prefix "session_id=" (pre +:+ "session_id=") with
      | Some _ => false
      | None => first_at_end pre'
      end
  end.

End SessionStore.

(** ** The API router: [handleRequest]

    The route table of [registerHandlers] in full, the request-id middleware,
    [wrapHandler] and the dispatch of [handleRequest].  The bodies of the
    handlers, [errorResponse] and the UUID generator are parameters. *)

Module ApiRouter.
Import Api.

(** The exact routes registered without a gate, in the order of the
    [this.handlers.set] calls. *)
Definition plain_routes : list string :=
  ["GET:/health"; "GET:/api/stats"; "POST:/api/stats/reset";
   "GET:/api/accounts"; "POST:/api/accounts"; "POST:/api/oauth/init";
   "POST:/api/oauth/callback"; "GET:/api/requests";
   "GET:/api/requests/detail"; "GET:/api/requests/stream";
   "GET:/api/config"; "GET:/api/config/strategy";
   "POST:/api/config/strategy"; "GET:/api/strategies";
   "GET:/api/config/model"; "POST:/api/config/model";
   "GET:/api/config/retention"; "POST:/api/config/retention";
   "POST:/api/maintenance/cleanup"; "POST:/api/maintenance/compact";
   "GET:/api/logs/stream"; "GET:/api/logs/history"; "GET:/api/analytics";
   "GET:/api/agents"; "POST:/api/agents/bulk-preference";
   "GET:/api/workspaces"].

(** The routes registered when the personal-mode monitor exists. *)
Definition personal_routes : list string :=
  ["GET:/api/personal/sessions"; "GET:/api/personal/metrics";
   "POST:/api/personal/cleanup"].

(** The handlers built on the fly for the dynamic endpoints. *)
Inductive dynamic_route :=
| AccountTier (accountId : option string)
| AccountPause (accountId : option string)
| AccountResume (accountId : option string)
| AccountRename (accountId : option string)
| AccountRemove (accountId : option string)
| AgentPreference (agentId : option string)
| AgentUpdate (agentId : option string)
| PersonalAnalytics (userId : string)
| PersonalQuota (userId : string)
| PersonalSetQuota (userId : string).

(** [path.split("/")] *)
Fixpoint split_slash (s : string) : list string :=
  match s with
  | EmptyString => [EmptyString]
  | String c r =>
      if Ascii.eqb c "/" then EmptyString :: split_slash r
      else match split_slash r with
           | h :: t => String c h :: t
           | [] => [String c EmptyString]
           end
  end.

(** [s.endsWith(suffix)] *)
Definition ends_with (suffix s : string) : bool :=
  (String.length suffix <=? String.length s)%nat
  && String.eqb
       (String.substring (String.length s - String.length suffix)
          (String.length suffix) s)
       suffix.

(** A path segment in a boolean position. *)
Definition truthy_part (p : option string) : option string :=
  match p with
  | Some (String c r) => Some (String c r)
  | _ => None
  end.

(** The dynamic endpoints of [handleRequest], tried in the order of the
    code. *)
Definition dynamic (personalMode : bool) (method path : string)
  : option dynamic_route :=
  let parts := split_slash path in
  let accounts :=
    if String.prefix "/api/accounts/" path then
      let accountId := parts !! 3%nat in
      if ends_with "/tier" path && String.eqb method "POST"
      then Some (AccountTier accountId)
      else if ends_with "/pause" path && String.eqb method "POST"
      then Some (AccountPause accountId)
      else if ends_with "/resume" path && String.eqb method "POST"
      then Some (AccountResume accountId)
      else if ends_with "/rename" path && String.eqb method "POST"
      then Some (AccountRename accountId)
      else if Nat.eqb (length parts) 4 && String.eqb method "DELETE"
      then Some (AccountRemove accountId)
      else None
    else None in
  let agents :=
    if String.prefix "/api/agents/" path then
      let agentId := parts !! 3%nat in
      if ends_with "/preference" path && String.eqb method "POST"
      then Some (AgentPreference agentId)
      else if Nat.eqb (length parts) 4 && String.eqb method "PATCH"
      then Some (AgentUpdate agentId)
      else None
    else None in
  let personal :=
    if String.prefix "/api/personal/" path && personalMode then
      match parts !! 3%nat, truthy_part (parts !! 4%nat) with
      | Some kind, Some userId =>
          if String.eqb kind "analytics" && String.eqb method "GET"
          then Some (PersonalAnalytics userId)
          else if String.eqb kind "quota" && String.eqb method "GET"
          then Some (PersonalQuota userId)
          else if String.eqb kind "quota" && String.eqb method "POST"
          then Some (PersonalSetQuota userId)
          else None
      | _, _ => None
      end
    else None in
  match accounts with
  | Some d => Some d
  | None =>
      match agents with
      | Some d => Some d
      | None => personal
      end
  end.

(** The request after
    [if (!req.headers.has("X-Request-ID")) req.headers.set(..., randomUUID())];
    [uuid] is the value [randomUUID()] would give. *)
Definition request_id (uuid : string) (req : Http.Request) : Http.Request :=
  match Http.headers req !! "x-request-id" with
  | Some _ => req
  | None =>
      {| Http.headers := <["x-request-id" := uuid]> (Http.headers req);
         Http.body := Http.body req |}
  end.

(** The world when the clock reads [now]. *)
Definition at_clock (now : Z) (w : world) : world :=
  {| clock := now; killSwitch := killSwitch w;
     unlockRateLimiter := unlockRateLimiter w;
     exportRateLimiter := exportRateLimiter w;
     sessions := sessions w |}.

(** A request as the server receives it: the time of arrival, the method
    and path, the request object, and the UUID that [randomUUID()] has in
    store for it. *)
Record Arrival := {
  arrival_time : Z;
  arrival_method : string;
  arrival_path : string;
  arrival_request : Http.Request;
  arrival_uuid : string;
}.

Section Table.

Variables unlockPinHandler webauthnChallengeHandler webauthnFinishHandler
          setKillSwitchHandler exportHandler rotateKeyHandler
          decryptHandler : Handler.
(** The handlers of the ungated exact routes and of the dynamic ones. *)
Variable plainHandler : string -> Handler.
Variable dynamicHandler : dynamic_route -> Handler.
(** [errorResponse(error)] *)
Variable errorResponse : js_error -> Http.Response.
(** Whether [personalModeIntegration.getMonitor()] gives a monitor. *)
Variable personalMode : bool.

(** [this.handlers] after [registerHandlers()]. *)
Definition handlers : gmap string Handler :=
  let h := foldl (fun h k => <[k := plainHandler k]> h) ∅ plain_routes in
  let h :=
    Router.registerHandlers unlockPinHandler webauthnChallengeHandler
      webauthnFinishHandler setKillSwitchHandler exportHandler
      rotateKeyHandler decryptHandler ∪ h in
  if personalMode
  then foldl (fun h k => <[k := plainHandler k]> h) h personal_routes
  else h.

(** middleware/request-id.ts: [createRequestIdMiddleware()]. *)
Definition withRequestId (uuid : string) (handler : Handler) : Handler :=
  fun req w => handler (request_id uuid req) w.

(** [wrapHandler(handler)]: an exception becomes [errorResponse(error)]. *)
Definition wrapHandler (handler : Handler)
  : Http.Request -> world -> Http.Response * world :=
  fun req w =>
    match handler req w with
    | (Return res, w') => (res, w')
    | (Throw error, w') => (errorResponse error, w')
    end.

(** [handleRequest(url, req)] with [url.pathname = path] and
    [req.method = method]; [None] is [null], no matching route. *)
Definition handleRequest (uuid : string) (method path : string)
    (req : Http.Request) (w : world) : option (Http.Response * world) :=
  let key := method +:+ ":" +:+ path in
  match handlers !! key with
  | Some handler => Some (wrapHandler (withRequestId uuid handler) req w)
  | None =>
      match dynamic personalMode method path with
      | Some d => Some (wrapHandler (dynamicHandler d) req w)
      | None => None
      end
  end.

(** The requests handled one after the other; the answers in order. *)
Fixpoint serve (rs : list Arrival) (w : world)
  : list (option Http.Response) * world :=
  match rs with
  | [] => ([], w)
  | r :: rs' =>
      let w := at_clock (arrival_time r) w in
      match handleRequest (arrival_uuid r) (arrival_method r)
              (arrival_path r) (arrival_request r) w with
      | Some (res, w') =>
          let '(out, w'') := serve rs' w' in (Some res :: out, w'')
      | None =>
          let '(out, w'') := serve rs' w in (None :: out, w'')
      end
  end.

End Table.

(** The three unlock routes, as method and path. *)
Definition unlock_endpoints : list (string * string) :=
  [("POST", "/unlock/pin"); ("POST", "/unlock/webauthn/challenge");
   ("POST", "/unlock/webauthn/finish")].

(** A handler that leaves the kill switch and the router's unlock limiter
    alone, as every handler without access to them does. *)
Definition keeps_gates (h : Handler) : Prop :=
  forall req w,
    killSwitch (snd (h req w)) = killSwitch w
    /\ unlockRateLimiter (snd (h req w)) = unlockRateLimiter w.


(** The state of the unlock limiter for one address, [c] requests into the
    window opened at [t0]. *)
Definition counted_unlocks (ip : string) (c t0 : Z) (w : world) : Prop :=
  killSwitch w = false
  /\ RateLimiter.maxRequests (unlockRateLimiter w) = 5
  /\ RateLimiter.windowMs (unlockRateLimiter w) = 60000
  /\ RateLimiter.store (unlockRateLimiter w) !! ip
     = Some {| RateLimiter.count := c; RateLimiter.startTime := t0 |}.

(** Unlock requests of the address 203.0.113.7, one per second from
    1700000120000 ms on, over the three routes in turn. *)
Definition unlock_arrival (i : Z) (path : string) : Arrival :=
  {| arrival_time := 1700000120000 + 1000 * i;
     arrival_method := "POST"; arrival_path := path;
     arrival_request :=
       {| Http.headers := {[ "x-forwarded-for" := "203.0.113.7" ]};
          Http.body := EmptyString |};
     arrival_uuid := "7d444840-9dc0-11d1-b245-5ffdce74fad2" |}.

Definition five_more_unlocks : list Arrival :=
  [unlock_arrival 1 "/unlock/webauthn/challenge";
   unlock_arrival 2 "/unlock/webauthn/finish";
   unlock_arrival 3 "/unlock/pin";
   unlock_arrival 4 "/unlock/webauthn/challenge";
   unlock_arrival 5 "/unlock/webauthn/finish"].

Definition six_unlocks : list Arrival :=
  unlock_arrival 0 "/unlock/pin" :: five_more_unlocks.

End ApiRouter.

(** ** A full master-key cache *)

Module FullCache.
Import Core.

(** One hundred users, [user 0] inserted first, all unlocked at time 0. *)
Definition user (i : nat) : string :=
  String (ascii_of_nat (48 + i / 10)) (String (ascii_of_nat (48 + i mod 10))
    EmptyString).

Definition full : JsMap.t CacheEntry :=
  map (fun i => (user i, {| key := VBytes []; expires := 1800000 |}))
    (seq 0 100).

End FullCache.

(** ** Repeated use of a cached master key *)

Module CacheUse.
Import Core.

(** Each time lies before the expiry that the previous read set. *)
Fixpoint each_before_expiry (expiry : Z) (ts : list Z) : Prop :=
  match ts with
  | [] => True
  | t :: r => t < expiry /\ each_before_expiry (t + mkCacheTTL) r
  end.

(** The expiry after reads at the times [ts]. *)
Definition final_expiry (expiry : Z) (ts : list Z) : Z :=
  match last ts with
  | Some t => t + mkCacheTTL
  | None => expiry
  end.

(** ["u1"] unlocked at 1 s, then four reads 25 minutes apart. *)
Definition unlocked : world :=
  snd (unlockWithPin ToySodium.toy 1000 "u1" "1234" Scenarios.provisioned).

Definition four_reads : list Z := [1500000; 3000000; 4500000; 6000000].

End CacheUse.

(* ================================================================== *)
(** * Verified properties *)
(* ================================================================== *)

Module RateLimiterSpec.
Import RateLimiter RateLimiterRuns.

Lemma limit_params now key rl :
  maxRequests (snd (limit now key rl)) = maxRequests rl
  /\ windowMs (snd (limit now key rl)) = windowMs rl.
Proof. done. Qed.

(** Requests of other keys do not touch a key's window. *)
Lemma limit_frame now key key' rl :
  key <> key' ->
  store (snd (limit now key rl)) !! key' = store rl !! key'.
Proof. intros Hne. cbn. by rewrite lookup_insert_ne. Qed.

(** A request that finds no window, or a window opened more than [windowMs]
    ago, opens a window and is the first request of it. *)
Lemma limit_opens now key rl :
  (store rl !! key = None
   \/ exists info, store rl !! key = Some info
                   /\ startTime info < now - windowMs rl) ->
  limit now key rl
  = (maxRequests rl <? 1,
     {| store := <[key := {| count := 1; startTime := now |}]> (store rl);
        maxRequests := maxRequests rl; windowMs := windowMs rl |}).
Proof.
  intros [Hn | (info & Hs & Hlt)]; unfold limit; rewrite ?Hn, ?Hs; cbn.
  - destruct (now <? now - windowMs rl); reflexivity.
  - apply Z.ltb_lt in Hlt. rewrite Hlt. reflexivity.
Qed.

(** A request inside the open window is counted in it, and is refused as
    soon as the count exceeds [maxRequests]. *)
Lemma limit_counts now key rl info :
  store rl !! key = Some info ->
  now - windowMs rl <= startTime info ->
  limit now key rl
  = (maxRequests rl <? count info + 1,
     {| store := <[key := {| count := count info + 1;
                            startTime := startTime info |}]> (store rl);
        maxRequests := maxRequests rl; windowMs := windowMs rl |}).
Proof.
  intros Hs Hge. unfold limit. rewrite Hs. cbn.
  assert (Hf : (startTime info <? now - windowMs rl) = false)
    by (apply Z.ltb_ge; lia).
  rewrite Hf. reflexivity.
Qed.

Lemma decisions_cons key t ts rl :
  decisions key (t :: ts) rl
  = fst (limit t key rl) :: decisions key ts (snd (limit t key rl)).
Proof.
  unfold decisions. cbn [map run].
  destruct (limit t key rl) as [over rl1]. cbn [fst snd].
  destruct (run _ rl1). reflexivity.
Qed.

(** Inside one window the [i]-th further request sees the count [c + i + 1]. *)
Lemma decisions_in_window key ts : forall rl info,
  store rl !! key = Some info ->
  Forall (fun t => t <= startTime info + windowMs rl) ts ->
  decisions key ts rl
  = map (fun i => maxRequests rl <? count info + Z.of_nat i + 1)
        (seq 0 (length ts)).
Proof.
  induction ts as [|t ts IH]; intros rl info Hs Hall; [reflexivity|].
  apply Forall_cons in Hall as [Ht Hall].
  rewrite decisions_cons, (limit_counts _ _ _ info Hs) by lia.
  cbn [fst snd length seq map].
  f_equal; [f_equal; lia|].
  erewrite IH; cbn; [| apply lookup_insert_eq | exact Hall].
  rewrite <- seq_shift, map_map.
  apply map_ext. intros i. cbn [count]. f_equal. lia.
Qed.

End RateLimiterSpec.

Module RateLimitClaims.
Import RateLimiter RateLimiterRuns RateLimiterSpec Api.

Lemma client_key_forwarded req k :
  Http.headers_get req "x-forwarded-for" = Some k -> k <> EmptyString ->
  client_key req = k.
Proof.
  intros H Hk. unfold client_key, Http.or_str. rewrite H.
  destruct k; [done|]. reflexivity.
Qed.

Lemma client_key_real_ip req k :
  Http.truthy_str (Http.headers_get req "x-forwarded-for") = false ->
  Http.headers_get req "x-real-ip" = Some k -> k <> EmptyString ->
  client_key req = k.
Proof.
  intros Hf H Hk. unfold client_key, Http.or_str. rewrite Hf, H.
  destruct k; [done|]. reflexivity.
Qed.

Lemma client_key_unknown req :
  Http.truthy_str (Http.headers_get req "x-forwarded-for") = false ->
  Http.truthy_str (Http.headers_get req "x-real-ip") = false ->
  client_key req = "unknown".
Proof.
  intros Hf Hr. unfold client_key, Http.or_str. rewrite Hf, Hr. reflexivity.
Qed.

Lemma middleware_refuses_or_forwards ref handler req w :
  createRateLimitMiddleware ref handler req w
  = let '(over, rl) :=
      limit (clock w) (client_key req) (get_limiter ref w) in
    if over
    then (Throw (TooManyRequests "Too many requests, please try again later."),
          set_limiter ref rl w)
    else handler req (set_limiter ref rl w).
Proof.
  unfold createRateLimitMiddleware.
  destruct (limit _ _ _) as [over rl]. reflexivity.
Qed.

(** C6 (as stated): the bound "at most 5 admitted requests of one address in
    any sliding window of 60 s" fails.  In the run [burst] the limiter of the
    unlock routes admits nine requests between 59.000 s and 60.001 s: its
    window is a fixed one, opened at 0 s and again at 60.001 s. *)
Lemma sliding_window_bound_fails :
  ~ sliding_window_bound 5 60000 burst_log.
Proof.
  intros H. specialize (H 59000).
  vm_compute in H. apply H. reflexivity.
Qed.

(** C6 (amended): the limiter counts the requests of a key in fixed windows.
    A request that finds no window for its key, or a window opened more than
    [windowMs] before, opens a window and is request number 1 of it; any other
    request is counted in the open window; request number [n] of a window is
    refused exactly when [n > maxRequests].  So of the requests of a key that
    had no window, all within [windowMs] of the first, exactly the first
    [maxRequests] are admitted (the sixth of six on the unlock routes, the
    third of three on export, is refused).  A refused request fails with
    [TooManyRequests] without the wrapped handler being called, an admitted
    one is handed to it; with the kill switch off, the three unlock routes
    run behind the unlock limiter and the export route behind the export
    limiter.  The key is [x-forwarded-for] when that header is
    non-empty, else [x-real-ip] when non-empty, else ["unknown"].  The router
    creates the unlock limiter with 5 requests per 60000 ms and the export
    limiter with 2 per 60000 ms. *)
Theorem rate_limit_fixed_window (rl : RateLimiter.t) (key : string) :
  (forall now,
      (store rl !! key = None
       \/ exists info, store rl !! key = Some info
                       /\ startTime info < now - windowMs rl) ->
      limit now key rl
      = (maxRequests rl <? 1,
         {| store := <[key := {| count := 1; startTime := now |}]> (store rl);
            maxRequests := maxRequests rl; windowMs := windowMs rl |}))
  /\ (forall now info,
         store rl !! key = Some info ->
         now - windowMs rl <= startTime info ->
         limit now key rl
         = (maxRequests rl <? count info + 1,
            {| store := <[key := {| count := count info + 1;
                                   startTime := startTime info |}]> (store rl);
               maxRequests := maxRequests rl; windowMs := windowMs rl |}))
  /\ (forall t0 ts,
         store rl !! key = None ->
         Forall (fun t => t <= t0 + windowMs rl) ts ->
         decisions key (t0 :: ts) rl
         = map (fun i => maxRequests rl <? Z.of_nat i + 1)
               (seq 0 (S (length ts))))
  /\ (forall now key',
         key' <> key ->
         store (snd (limit now key' rl)) !! key = store rl !! key)
  /\ (forall ref handler req w,
         get_limiter ref w = rl -> client_key req = key ->
         createRateLimitMiddleware ref handler req w
         = if fst (limit (clock w) key rl)
           then (Throw (TooManyRequests
                          "Too many requests, please try again later."),
                 set_limiter ref (snd (limit (clock w) key rl)) w)
           else handler req (set_limiter ref (snd (limit (clock w) key rl)) w))
  /\ (forall req,
         client_key req
         = match Http.headers_get req "x-forwarded-for" with
           | Some (String c k) => String c k
           | _ =>
               match Http.headers_get req "x-real-ip" with
               | Some (String c k) => String c k
               | _ => "unknown"
               end
           end)
  /\ (forall now kill,
         maxRequests (unlockRateLimiter (Router.init now kill)) = 5
         /\ windowMs (unlockRateLimiter (Router.init now kill)) = 60000
         /\ maxRequests (exportRateLimiter (Router.init now kill)) = 2
         /\ windowMs (exportRateLimiter (Router.init now kill)) = 60000)
  /\ (forall pin challenge finish admin export rotate decrypt req w,
         killSwitch w = false ->
         Router.dispatch pin challenge finish admin export rotate decrypt
           "POST:/unlock/pin" req w
         = Some (createRateLimitMiddleware UnlockLimiter pin req w)
         /\ Router.dispatch pin challenge finish admin export rotate decrypt
              "POST:/unlock/webauthn/challenge" req w
            = Some (createRateLimitMiddleware UnlockLimiter challenge req w)
         /\ Router.dispatch pin challenge finish admin export rotate decrypt
              "POST:/unlock/webauthn/finish" req w
            = Some (createRateLimitMiddleware UnlockLimiter finish req w)
         /\ Router.dispatch pin challenge finish admin export rotate decrypt
              "GET:/export" req w
            = Some (createRateLimitMiddleware ExportLimiter
                      (requireFreshWebAuthn export) req w)).
Proof.
  repeat apply conj.
  - intros now H. by apply limit_opens.
  - intros now info Hs Hge. by apply limit_counts.
  - intros t0 ts Hn Hall.
    rewrite decisions_cons, limit_opens by (by left).
    cbn [fst snd length seq map]. f_equal.
    erewrite decisions_in_window; cbn;
      [| apply lookup_insert_eq | exact Hall].
    rewrite <- seq_shift, map_map.
    apply map_ext. intros i. cbn [count]. f_equal. lia.
  - intros now key' Hne. by apply limit_frame.
  - intros ref handler req w Hrl Hk.
    rewrite middleware_refuses_or_forwards, Hrl, Hk.
    destruct (limit (clock w) key rl) as [over rl']. reflexivity.
  - intros req. unfold client_key, Http.or_str.
    destruct (Http.headers_get req "x-forwarded-for") as [[|c k]|];
      cbn; try reflexivity;
      destruct (Http.headers_get req "x-real-ip") as [[|c' k']|];
      reflexivity.
  - intros now kill. done.
  - intros pin challenge finish admin export rotate decrypt req w Hk.
    unfold Router.dispatch, Router.registerHandlers, Router.withKillSwitch,
      Router.withUnlockRateLimit, Router.withExportRateLimit,
      createKillSwitchMiddleware.
    cbn zeta.
    repeat split;
      rewrite ?lookup_insert_ne by discriminate;
      rewrite lookup_insert_eq; by rewrite Hk.
Qed.

(** Six unlock requests of one address within 60 s, the address having no
    open window: five are admitted, the sixth is refused. *)
Lemma rate_limit_fixed_window_witness :
  decisions "203.0.113.7" [1000; 2000; 3000; 4000; 5000; 61000]
    (RateLimiter.create 5 60000)
  = [false; false; false; false; false; true].
Proof.
  destruct (rate_limit_fixed_window (RateLimiter.create 5 60000)
              "203.0.113.7") as (_ & _ & H & _).
  rewrite (H 1000 [2000; 3000; 4000; 5000; 61000]).
  - reflexivity.
  - reflexivity.
  - repeat constructor; cbn; lia.
Defined.

End RateLimitClaims.

Module SessionGateClaims.
Import Api.

Lemma stale_spec session now :
  (forall t, lastUVAt session = Some t -> t <> 0) ->
  stale session now = true
  <-> (lastUVAt session = None
       \/ exists t, lastUVAt session = Some t /\ now - t > 300000).
Proof.
  intros Hnz. unfold stale, not_lastUVAt, FRESH_WEBAUTHN_TTL.
  destruct (lastUVAt session) as [t|]; cbn.
  - assert (Ht : (t =? 0) = false) by (apply Z.eqb_neq; by apply Hnz).
    rewrite Ht. cbn. rewrite Z.ltb_lt. split.
    + intros H. right. exists t. split; [done | lia].
    + intros [H | (t' & [= <-] & H)]; [done | lia].
  - split; [by left | done].
Qed.

(** C7: [requireFreshWebAuthn] throws [Forbidden], without calling the
    wrapped handler, if and only if the request's session has no [lastUVAt]
    or [now - lastUVAt] exceeds 5 minutes (300000 ms); otherwise, [lastUVAt]
    being set and at most 5 minutes old, it returns what the wrapped handler
    returns.  [lastUVAt], when set, is a reading of [Date.now()], an epoch
    time other than 0 (which JavaScript's [!] would take for unset). *)
Theorem require_fresh_webauthn_iff (handler : Handler) (req : Http.Request)
    (w : world) :
  (forall t, lastUVAt (getSession req w) = Some t -> t <> 0) ->
  (stale (getSession req w) (clock w) = true
   <-> (lastUVAt (getSession req w) = None
        \/ exists t, lastUVAt (getSession req w) = Some t
                     /\ clock w - t > 300000))
  /\ (stale (getSession req w) (clock w) = true ->
      requireFreshWebAuthn handler req w
      = (Throw (Forbidden "Fresh WebAuthn authentication required."), w))
  /\ ((exists t, lastUVAt (getSession req w) = Some t
                 /\ clock w - t <= 300000) ->
      requireFreshWebAuthn handler req w = handler req w).
Proof.
  intros Hnz. split; [by apply stale_spec|]. split.
  - intros Hs. unfold requireFreshWebAuthn. by rewrite Hs.
  - intros (t & Ht & Hle). unfold requireFreshWebAuthn.
    destruct (stale (getSession req w) (clock w)) eqn:Hs; [|done].
    apply stale_spec in Hs as [Hs | (t' & Ht' & Hgt)]; [| | done].
    + congruence.
    + rewrite Ht in Ht'. injection Ht' as <-. lia.
Qed.

End SessionGateClaims.

Module SessionGateWitness.
Import Api Samples.

(** Two minutes after user verification the gate lets the request through. *)
Lemma require_fresh_webauthn_iff_witness :
  requireFreshWebAuthn ok_handler cookie_request
    (verified_world 1700000120000 false)
  = ok_handler cookie_request (verified_world 1700000120000 false).
Proof.
  apply (SessionGateClaims.require_fresh_webauthn_iff ok_handler
           cookie_request (verified_world 1700000120000 false)).
  - intros t. vm_compute. intros [= <-]. discriminate.
  - exists 1700000000000. split; [reflexivity | vm_compute; discriminate].
Defined.

End SessionGateWitness.

Module KillSwitchClaims.
Import Api Router.

(** C10: with the kill switch on, a request to any of the three unlock routes
    is refused with [ServiceUnavailable] by the outermost middleware: no
    inner handler runs and the world, in particular the counters of both rate
    limiters, is left as it was. *)
Theorem kill_switch_precedes_rate_limit
    (unlockPinHandler webauthnChallengeHandler webauthnFinishHandler
     setKillSwitchHandler exportHandler rotateKeyHandler decryptHandler
       : Handler)
    (route : string) (req : Http.Request) (w : world) :
  In route unlock_routes ->
  killSwitch w = true ->
  exists w',
    dispatch unlockPinHandler webauthnChallengeHandler webauthnFinishHandler
      setKillSwitchHandler exportHandler rotateKeyHandler decryptHandler
      route req w
    = Some (Throw (ServiceUnavailable
              "Service is temporarily unavailable. Please try again later."),
            w')
    /\ w' = w
    /\ RateLimiter.store (unlockRateLimiter w')
       = RateLimiter.store (unlockRateLimiter w)
    /\ RateLimiter.store (exportRateLimiter w')
       = RateLimiter.store (exportRateLimiter w).
Proof.
  intros Hr Hk. exists w.
  split; [| done].
  unfold dispatch, registerHandlers, withKillSwitch.
  cbn in Hr. destruct Hr as [<- | [<- | [<- | []]]]; cbn zeta;
    rewrite !lookup_insert_ne by discriminate;
    rewrite lookup_insert_eq;
    unfold createKillSwitchMiddleware; by rewrite Hk.
Qed.

End KillSwitchClaims.

Module KillSwitchWitness.
Import Api Router Samples.

(** With the switch on, an unlock request is turned away and the limiter has
    counted nothing. *)
Lemma kill_switch_precedes_rate_limit_witness :
  dispatch marking_handler marking_handler marking_handler marking_handler
    marking_handler marking_handler marking_handler
    "POST:/unlock/pin" cookie_request (verified_world 1700000120000 true)
  = Some (Throw (ServiceUnavailable
            "Service is temporarily unavailable. Please try again later."),
          verified_world 1700000120000 true).
Proof.
  destruct (KillSwitchClaims.kill_switch_precedes_rate_limit
              marking_handler marking_handler marking_handler marking_handler
              marking_handler marking_handler marking_handler
              "POST:/unlock/pin" cookie_request
              (verified_world 1700000120000 true))
    as (w' & H & -> & _).
  - left. reflexivity.
  - reflexivity.
  - exact H.
Defined.

End KillSwitchWitness.

(** ** Facts about the insertion-ordered map *)

Module JsMapFacts.
Section Facts.
Context {V : Type}.
Implicit Types (m : JsMap.t V) (k : string) (v : V).

Lemma get_set_eq k v m : JsMap.get k (JsMap.set k v m) = Some v.
Proof.
  induction m as [|[k' v'] m IH]; cbn.
  - by rewrite decide_True.
  - destruct (decide (k = k')) as [->|Hne]; cbn.
    + by rewrite decide_True.
    + by rewrite decide_False.
Qed.

Lemma get_set_ne k k' v m :
  k <> k' -> JsMap.get k' (JsMap.set k v m) = JsMap.get k' m.
Proof.
  intros Hne. induction m as [|[k1 v1] m IH]; cbn.
  - by rewrite decide_False.
  - destruct (decide (k = k1)) as [->|Hne1]; cbn.
    + by rewrite !decide_False.
    + destruct (decide (k' = k1)); [done | exact IH].
Qed.

Lemma get_None_keys k m : JsMap.get k m = None <-> k ∉ JsMap.keys m.
Proof.
  induction m as [|[k' v'] m IH]; cbn.
  - split; [intros _; apply not_elem_of_nil | done].
  - rewrite not_elem_of_cons. destruct (decide (k = k')) as [->|Hne].
    + split; [done | intros [? _]; done].
    + rewrite IH. tauto.
Qed.

Lemma set_absent k v m :
  JsMap.get k m = None -> JsMap.set k v m = m ++ [(k, v)].
Proof.
  induction m as [|[k' v'] m IH]; cbn; [done|].
  destruct (decide (k = k')); [done|]. intros H. by rewrite IH.
Qed.

Lemma set_present_length k v m :
  JsMap.get k m <> None -> length (JsMap.set k v m) = length m.
Proof.
  induction m as [|[k' v'] m IH]; cbn; [done|].
  destruct (decide (k = k')); cbn; [done|]. intros H. by rewrite IH.
Qed.

Lemma set_length_le k v m : (length (JsMap.set k v m) <= S (length m))%nat.
Proof.
  induction m as [|[k' v'] m IH]; cbn; [lia|].
  destruct (decide (k = k')); cbn; lia.
Qed.

Lemma delete_length_le k m : (length (JsMap.delete k m) <= length m)%nat.
Proof.
  induction m as [|[k' v'] m IH]; cbn; [lia|].
  destruct (decide (k = k')); cbn; lia.
Qed.

Lemma keys_set k v m :
  JsMap.keys (JsMap.set k v m)
  = match JsMap.get k m with
    | Some _ => JsMap.keys m
    | None => JsMap.keys m ++ [k]
    end.
Proof.
  unfold JsMap.keys. induction m as [|[k' v'] m IH]; cbn; [done|].
  destruct (decide (k = k')) as [->|Hne]; cbn; [done|].
  rewrite IH. by destruct (JsMap.get k m).
Qed.

Lemma keys_delete_sub k m k' :
  k' ∈ JsMap.keys (JsMap.delete k m) -> k' ∈ JsMap.keys m.
Proof.
  induction m as [|[k1 v1] m IH]; cbn; [done|].
  destruct (decide (k = k1)); cbn.
  - intros H. apply elem_of_cons. by right.
  - rewrite !elem_of_cons. intros [->|H]; [by left | right; by apply IH].
Qed.

Lemma NoDup_set k v m :
  NoDup (JsMap.keys m) -> NoDup (JsMap.keys (JsMap.set k v m)).
Proof.
  intros Hnd. rewrite keys_set. destruct (JsMap.get k m) eqn:E; [done|].
  apply NoDup_app. split; [done|]. split.
  - intros x Hx ->%list_elem_of_singleton. by apply get_None_keys in E.
  - apply NoDup_singleton.
Qed.

Lemma NoDup_delete k m :
  NoDup (JsMap.keys m) -> NoDup (JsMap.keys (JsMap.delete k m)).
Proof.
  induction m as [|[k1 v1] m IH]; cbn; [done|].
  rewrite NoDup_cons. intros [Hn Hnd].
  destruct (decide (k = k1)); cbn; [done|].
  apply NoDup_cons. split; [|by apply IH].
  intros H. apply Hn. by eapply keys_delete_sub.
Qed.

Lemma get_delete_eq k m :
  NoDup (JsMap.keys m) -> JsMap.get k (JsMap.delete k m) = None.
Proof.
  induction m as [|[k1 v1] m IH]; cbn; [done|].
  rewrite NoDup_cons. intros [Hn Hnd].
  destruct (decide (k = k1)) as [->|Hne]; cbn.
  - by apply get_None_keys.
  - rewrite decide_False by done. by apply IH.
Qed.

Lemma get_delete_ne k k' m :
  k <> k' -> JsMap.get k' (JsMap.delete k m) = JsMap.get k' m.
Proof.
  intros Hne. induction m as [|[k1 v1] m IH]; cbn; [done|].
  destruct (decide (k = k1)) as [->|Hne1]; cbn.
  - by rewrite decide_False.
  - destruct (decide (k' = k1)); [done | exact IH].
Qed.

Lemma delete_absent k m : JsMap.get k m = None -> JsMap.delete k m = m.
Proof.
  induction m as [|[k' v'] m IH]; cbn; [done|].
  destruct (decide (k = k')); [done|]. intros H. by rewrite IH.
Qed.

End Facts.
End JsMapFacts.

(** ** Facts about the master-key cache *)

Module MkCacheFacts.
Import Core MkCache JsMapFacts.

Lemma getMasterKeyFromCache_read now userId w :
  getMasterKeyFromCache now userId w
  = (Return (fst (read now userId (mkCache w))),
     {| keyStore := keyStore w; draws := draws w;
        mkCache := snd (read now userId (mkCache w));
        pinFailures := pinFailures w |}).
Proof.
  unfold getMasterKeyFromCache, read. monad_unfold.
  destruct (JsMap.get userId (mkCache w)) as [cached|]; [|reflexivity].
  destruct (now <? expires cached); reflexivity.
Qed.

Lemma setMasterKeyInCache_write now userId k w :
  setMasterKeyInCache now userId k w
  = (Return tt,
     {| keyStore := keyStore w; draws := draws w;
        mkCache := write now userId k (mkCache w);
        pinFailures := pinFailures w |}).
Proof. reflexivity. Qed.

Lemma write_NoDup now userId k c :
  NoDup (JsMap.keys c) -> NoDup (JsMap.keys (write now userId k c)).
Proof.
  intros H. unfold write. apply NoDup_set.
  destruct (100 <=? JsMap.size c); [|done].
  destruct (JsMap.first_key c); [by apply NoDup_delete | done].
Qed.

Lemma read_NoDup now userId c :
  NoDup (JsMap.keys c) -> NoDup (JsMap.keys (snd (read now userId c))).
Proof.
  intros H. unfold read.
  destruct (JsMap.get userId c) as [cached|]; cbn; [|by apply NoDup_delete].
  destruct (now <? expires cached); cbn;
    [by apply NoDup_set | by apply NoDup_delete].
Qed.

Lemma reachable_NoDup c : reachable c -> NoDup (JsMap.keys c).
Proof.
  induction 1; [apply NoDup_nil_2 | by apply write_NoDup | by apply read_NoDup].
Qed.

Lemma write_size now userId k c :
  JsMap.size c <= 100 -> JsMap.size (write now userId k c) <= 100.
Proof.
  unfold write, JsMap.size. intros Hle.
  destruct (100 <=? Z.of_nat (length c)) eqn:E.
  - apply Z.leb_le in E. destruct c as [|[k0 e0] rest]; cbn in *; [lia|].
    rewrite decide_True by done.
    pose proof (set_length_le userId
      {| key := k; expires := now + mkCacheTTL |} rest). lia.
  - apply Z.leb_gt in E.
    pose proof (set_length_le userId
      {| key := k; expires := now + mkCacheTTL |} c). lia.
Qed.

Lemma read_size now userId c :
  JsMap.size (snd (read now userId c)) <= JsMap.size c.
Proof.
  unfold read, JsMap.size.
  destruct (JsMap.get userId c) as [cached|] eqn:E; cbn.
  - destruct (now <? expires cached); cbn.
    + rewrite set_present_length by congruence. lia.
    + pose proof (delete_length_le userId c). lia.
  - pose proof (delete_length_le userId c). lia.
Qed.

Lemma reachable_size c : reachable c -> JsMap.size c <= 100.
Proof.
  induction 1.
  - unfold JsMap.size. cbn. lia.
  - by apply write_size.
  - pose proof (read_size now userId c). lia.
Qed.

(** Writing a new user into a full cache drops the head of the list, the
    entry inserted first, and appends the new entry. *)
Lemma write_evicts_oldest now userId k k0 e0 rest :
  100 <= JsMap.size ((k0, e0) :: rest) ->
  JsMap.get userId rest = None ->
  write now userId k ((k0, e0) :: rest)
  = rest ++ [(userId, {| key := k; expires := now + mkCacheTTL |})].
Proof.
  intros Hfull Habs. unfold write.
  apply Z.leb_le in Hfull. rewrite Hfull. cbn [JsMap.first_key JsMap.delete].
  rewrite decide_True by done. by apply set_absent.
Qed.

Lemma write_below_capacity now userId k c :
  JsMap.size c < 100 ->
  write now userId k c
  = JsMap.set userId {| key := k; expires := now + mkCacheTTL |} c.
Proof.
  intros Hlt. unfold write. apply Z.leb_gt in Hlt. by rewrite Hlt.
Qed.

Lemma write_get now userId k c :
  JsMap.get userId (write now userId k c)
  = Some {| key := k; expires := now + 1800000 |}.
Proof. unfold write. by rewrite get_set_eq. Qed.

Lemma read_hit now userId c cached :
  JsMap.get userId c = Some cached ->
  now < expires cached ->
  read now userId c
  = (Some (key cached),
     JsMap.set userId {| key := key cached; expires := now + 1800000 |} c).
Proof.
  intros Hg Hlt. unfold read. rewrite Hg.
  apply Z.ltb_lt in Hlt. by rewrite Hlt.
Qed.

Lemma read_expired now userId c cached :
  JsMap.get userId c = Some cached ->
  expires cached <= now ->
  read now userId c = (None, JsMap.delete userId c).
Proof.
  intros Hg Hle. unfold read. rewrite Hg.
  apply Z.ltb_ge in Hle. by rewrite Hle.
Qed.

Lemma read_absent now userId c :
  JsMap.get userId c = None -> read now userId c = (None, c).
Proof.
  intros Hg. unfold read. rewrite Hg. by rewrite delete_absent.
Qed.

Section Dek.
Variable sodium : Sodium.

Lemma getDecryptedDek_miss now userId w :
  fst (read now userId (mkCache w)) = None ->
  getDecryptedDek sodium now userId w
  = (Return None,
     {| keyStore := keyStore w; draws := draws w;
        mkCache := snd (read now userId (mkCache w));
        pinFailures := pinFailures w |}).
Proof.
  intros H. unfold getDecryptedDek.
  unfold mbind at 1; unfold M_bind at 1.
  rewrite getMasterKeyFromCache_read, H. reflexivity.
Qed.

End Dek.
End MkCacheFacts.

(** ** Facts about the core services *)

Module HexFacts.

Lemma decode_encode_byte x s :
  Hex.decode (String (Hex.digit (Byte.to_N x / 16))
                (String (Hex.digit (Byte.to_N x mod 16)) s))
  = x :: Hex.decode s.
Proof. destruct x; reflexivity. Qed.

Lemma decode_encode b : Hex.decode (Hex.encode b) = b.
Proof.
  induction b as [|x r IH]; [reflexivity|].
  cbn [Hex.encode]. rewrite decode_encode_byte. by rewrite IH.
Qed.

End HexFacts.

Module CoreFacts.
Import Core MkCache JsMapFacts MkCacheFacts.

Section Facts.
Variable sodium : Sodium.

(** [unlockWithPin], case by case.  The [catch] branch does not appear: the
    [try] block cannot throw, [unwrapKey] being an [async] function whose
    promise is never awaited. *)
Lemma unlockWithPin_eq now userId pin w :
  unlockWithPin sodium now userId pin w
  = if locked_out now (pinFailures w !! userId)
    then (Return (Rejected account_locked), w)
    else
      match (keyStore w !! ("mk_pin_" +:+ userId)) ≫= (fun item =>
               KeyStore.meta item ≫= (fun m => Some (item, m))) with
      | None =>
          (Return (settle (obind
             (call_sodium (crypto_pwhash sodium pin
                (VPromise (Fulfilled
                   (randombytes_buf sodium (draws w) 16)))))
             (fun _ => Return false))),
           {| keyStore := keyStore w; draws := S (draws w);
              mkCache := mkCache w; pinFailures := pinFailures w |})
      | Some (item, meta) =>
          match obind (Json.buffer_from_hex (Json.field "salt" meta))
                  (fun salt =>
                     call_sodium (crypto_pwhash sodium pin (VBytes salt)))
          with
          | Throw e => (Return (Rejected e), w)
          | Return kek =>
              (Return (Fulfilled true),
               {| keyStore := keyStore w; draws := draws w;
                  mkCache :=
                    write now userId
                      (VPromise (settle (call_sodium
                         (crypto_aead_xchacha20poly1305_ietf_decrypt sodium
                            (KeyStore.blob item)
                            (Hex.decode (KeyStore.nonce item))
                            (VBytes kek)))))
                      (mkCache w);
                  pinFailures := delete userId (pinFailures w) |})
          end
      end.
Proof.
  unfold unlockWithPin, KeyStore.findById. monad_unfold.
  destruct (locked_out now (pinFailures w !! userId)); [reflexivity|].
  cbn. destruct (keyStore w !! ("mk_pin_" +:+ userId)) as [item|]; cbn;
    [destruct (KeyStore.meta item) as [meta|]; cbn|].
  - destruct (Json.buffer_from_hex _) as [salt|e]; cbn; [|reflexivity].
    unfold deriveKeyFromPin, call_sodium. monad_unfold.
    destruct (crypto_pwhash sodium pin (VBytes salt)) as [kek|e];
      [|reflexivity].
    unfold unwrapKey, aeadDecrypt, setMasterKeyInCache, write, call_sodium.
    monad_unfold. cbn.
    destruct (crypto_aead_xchacha20poly1305_ietf_decrypt _ _ _ _);
      reflexivity.
  - unfold generateKey, deriveKeyFromPin, call_sodium. monad_unfold.
    destruct (crypto_pwhash _ _ _); reflexivity.
  - unfold generateKey, deriveKeyFromPin, call_sodium. monad_unfold.
    destruct (crypto_pwhash _ _ _); reflexivity.
Qed.

Lemma getDecryptedDek_eq now userId w :
  getDecryptedDek sodium now userId w
  = let w' := {| keyStore := keyStore w; draws := draws w;
                 mkCache := snd (read now userId (mkCache w));
                 pinFailures := pinFailures w |} in
    match fst (read now userId (mkCache w)) with
    | None => (Return None, w')
    | Some mk =>
        match keyStore w !! ("dek_" +:+ userId) with
        | None => (Return None, w')
        | Some item =>
            (Return (Some (VPromise (settle (call_sodium
               (crypto_aead_xchacha20poly1305_ietf_decrypt sodium
                  (KeyStore.blob item) (Hex.decode (KeyStore.nonce item))
                  mk))))), w')
        end
    end.
Proof.
  unfold getDecryptedDek.
  unfold mbind at 1; unfold M_bind at 1.
  rewrite getMasterKeyFromCache_read.
  destruct (fst (read now userId (mkCache w))) as [mk|]; [|reflexivity].
  unfold KeyStore.findById. monad_unfold. cbn.
  destruct (keyStore w !! _) as [item|]; [|reflexivity].
  unfold unwrapKey, aeadDecrypt, call_sodium. monad_unfold.
  destruct (crypto_aead_xchacha20poly1305_ietf_decrypt _ _ _ _);
    reflexivity.
Qed.



Lemma setPin_frame userId pin w :
  mkCache (snd (setPin sodium userId pin w)) = mkCache w
  /\ pinFailures (snd (setPin sodium userId pin w)) = pinFailures w
  /\ forall k, k <> "dek_" +:+ userId -> k <> "mk_pin_" +:+ userId ->
       keyStore (snd (setPin sodium userId pin w)) !! k = keyStore w !! k.
Proof.
  run_monad.
  repeat (break_call; run_monad).
  all: repeat split; intros; rewrite ?lookup_insert_ne by congruence; done.
Qed.

Lemma setPin_provisions userId pin w0 w :
  setPin sodium userId pin w0 = (Return (Fulfilled tt), w) ->
  exists item salt kek,
    keyStore w !! ("mk_pin_" +:+ userId) = Some item
    /\ KeyStore.meta item = Some [("salt", Json.JString (Hex.encode salt))]
    /\ crypto_pwhash sodium pin (VBytes salt) = Ok kek.
Proof.
  intros H. run_monad.
  repeat (break_call; run_monad; simplify_eq).
  eexists _, _, _. split; [apply lookup_insert_eq|]. split; [reflexivity|].
  eassumption.
Qed.

End Facts.
End CoreFacts.

(** ** The unlock service: lockout, cache and provisioning *)

Module UnlockClaims.
Import Core MkCache Calls JsMapFacts MkCacheFacts HexFacts CoreFacts.

Section Claims.
Variable sodium : Sodium.

Lemma locked_out_spec now fi :
  locked_out now (Some fi) = true
  <-> 5 <= count fi /\ now - lastAttempt fi < 900000.
Proof.
  unfold locked_out, maxPinAttempts, pinLockoutDuration.
  rewrite andb_true_iff, Z.leb_le, Z.ltb_lt. lia.
Qed.

(** C3: while the failure record of a user holds [count >= 5] and a
    [lastAttempt] less than 15 minutes (900000 ms) old, [unlockWithPin]
    fails with the account-locked error whatever PIN is submitted, and
    changes nothing.  Once 15 minutes have passed since [lastAttempt], a call
    with the PIN that [setPin] provisioned returns [true] and leaves no
    failure record for the user. *)
Theorem pin_lockout_window (userId pin : string) (now : Z) (w : world)
    (fi : FailureInfo) :
  pinFailures w !! userId = Some fi ->
  (5 <= count fi -> now - lastAttempt fi < 15 * 60 * 1000 ->
   forall submitted,
     unlockWithPin sodium now userId submitted w
     = (Return (Rejected account_locked), w))
  /\ (15 * 60 * 1000 <= now - lastAttempt fi ->
      forall w0 w1,
        setPin sodium userId pin w0 = (Return (Fulfilled tt), w1) ->
        keyStore w = keyStore w1 ->
        exists w',
          unlockWithPin sodium now userId pin w = (Return (Fulfilled true), w')
          /\ pinFailures w' !! userId = None).
Proof.
  intros Hfi. split.
  - intros Hc Ht submitted. rewrite unlockWithPin_eq, Hfi.
    assert (Hl : locked_out now (Some fi) = true)
      by (apply locked_out_spec; lia).
    by rewrite Hl.
  - intros Ht w0 w1 Hset Hks.
    destruct (setPin_provisions sodium _ _ _ _ Hset)
      as (item & salt & kek & Hitem & Hmeta & Hkek).
    rewrite unlockWithPin_eq, Hfi.
    assert (Hl : locked_out now (Some fi) = false).
    { destruct (locked_out now (Some fi)) eqn:E; [|done].
      apply locked_out_spec in E. lia. }
    rewrite Hl, Hks, Hitem. cbn. rewrite Hmeta.
    cbn -[Hex.decode Hex.encode]. rewrite decide_True by done.
    cbn -[Hex.decode Hex.encode]. rewrite decode_encode, Hkek. cbn.
    eexists. split; [reflexivity|]. cbn. apply lookup_delete_eq.
Qed.


Lemma unlockWithPin_keyStore now userId pin w :
  keyStore (snd (unlockWithPin sodium now userId pin w)) = keyStore w.
Proof.
  rewrite unlockWithPin_eq.
  destruct (locked_out _ _); [done|].
  destruct (_ ≫= _) as [[item meta]|]; [|done].
  destruct (obind _ _); done.
Qed.

(** A call for one user leaves the failure records of the others alone. *)
Lemma unlockWithPin_frame now userId other pin w :
  other <> userId ->
  pinFailures (snd (unlockWithPin sodium now userId pin w)) !! other
  = pinFailures w !! other.
Proof.
  intros Hne. rewrite unlockWithPin_eq.
  destruct (locked_out _ _); [done|].
  destruct (_ ≫= _) as [[item meta]|]; [|done].
  destruct (obind _ _); [|done]. cbn. by rewrite lookup_delete_ne.
Qed.

(** Without a [mk_pin_] record the call reads the failure map and nothing
    more. *)
Lemma unlockWithPin_unprovisioned now userId pin w :
  keyStore w !! ("mk_pin_" +:+ userId) = None ->
  pinFailures (snd (unlockWithPin sodium now userId pin w)) = pinFailures w
  /\ (locked_out now (pinFailures w !! userId) = false ->
      fst (unlockWithPin sodium now userId pin w) = Return (Fulfilled false)
      \/ exists e,
           fst (unlockWithPin sodium now userId pin w)
           = Return (Rejected (raised e))).
Proof.
  intros Hks. rewrite unlockWithPin_eq, Hks. cbn.
  destruct (locked_out _ _); [done|]. split; [done|]. intros _.
  unfold call_sodium. destruct (crypto_pwhash _ _ _) as [k|e]; cbn;
    [by left | right; by exists e].
Qed.

Lemma mk_pin_inj u u' : "mk_pin_" +:+ u = "mk_pin_" +:+ u' -> u = u'.
Proof. intros H. by simplify_eq. Qed.

Lemma mk_pin_not_dek u u' : "mk_pin_" +:+ u <> "dek_" +:+ u'.
Proof. intros H. cbn in H. discriminate. Qed.

Lemma raised_not_account_locked e : raised e <> account_locked.
Proof. by destruct e. Qed.

Lemma getDecryptedDek_frame now userId w :
  keyStore (snd (getDecryptedDek sodium now userId w)) = keyStore w
  /\ pinFailures (snd (getDecryptedDek sodium now userId w)) = pinFailures w.
Proof.
  rewrite getDecryptedDek_eq. cbn.
  destruct (fst (read _ _ _)); [|done].
  destruct (keyStore w !! _); done.
Qed.

Lemma perform_unprovisioned userId c w :
  ~ provisions userId c ->
  unprovisioned userId w ->
  unprovisioned userId (snd (perform sodium c w)).
Proof.
  intros Hc [Hks Hpf]. unfold unprovisioned.
  destruct c as [now u pin | u pin | now u]; cbn [perform].
  - destruct (unlockWithPin sodium now u pin w) as [r w'] eqn:E.
    assert (Hw : w' = snd (unlockWithPin sodium now u pin w)) by by rewrite E.
    cbn [snd]. subst w'. split.
    + by rewrite unlockWithPin_keyStore.
    + destruct (decide (userId = u)) as [<-|Hne].
      * destruct (unlockWithPin_unprovisioned now userId pin w Hks) as [-> _].
        done.
      * by rewrite unlockWithPin_frame.
  - destruct (setPin sodium u pin w) as [r w'] eqn:E.
    assert (Hw : w' = snd (setPin sodium u pin w)) by by rewrite E.
    cbn [snd]. subst w'. cbn in Hc.
    destruct (setPin_frame sodium u pin w) as (_ & Hf & Hk). split.
    + rewrite Hk; [done | apply mk_pin_not_dek |].
      intros H%mk_pin_inj. by apply Hc.
    + by rewrite Hf.
  - destruct (getDecryptedDek sodium now u w) as [r w'] eqn:E.
    assert (Hw : w' = snd (getDecryptedDek sodium now u w)) by by rewrite E.
    cbn [snd]. subst w'.
    destruct (getDecryptedDek_frame now u w) as [-> ->]. done.
Qed.

(** C9: a call of [unlockWithPin] for a user without a [mk_pin_<userId>]
    record leaves the whole PIN-failure map as it was.  Hence, whatever
    calls the services receive, as long as no [setPin] is made for that user,
    a user that starts without a failure record never gets one and none of
    its unlock attempts fails with the account-locked error. *)
Theorem unprovisioned_user_never_locked (userId : string) :
  (forall now pin w,
      keyStore w !! ("mk_pin_" +:+ userId) = None ->
      pinFailures (snd (unlockWithPin sodium now userId pin w))
      = pinFailures w)
  /\ (forall cs w,
         keyStore w !! ("mk_pin_" +:+ userId) = None ->
         pinFailures w !! userId = None ->
         Forall (fun c => ~ provisions userId c) cs ->
         pinFailures (run_calls sodium cs w) !! userId = None
         /\ forall now pin a,
              In (UnlockWithPin now userId pin, a) (trace sodium cs w) ->
              a <> Unlocked (Return (Rejected account_locked))).
Proof.
  split.
  - intros now pin w Hks. by apply unlockWithPin_unprovisioned.
  - intros cs. induction cs as [|c cs IH]; intros w Hks Hpf Hcs.
    + split; [done | intros ? ? ? []].
    + apply Forall_cons in Hcs as [Hc Hcs].
      destruct (perform_unprovisioned userId c w Hc (conj Hks Hpf))
        as [Hks' Hpf'].
      destruct (IH _ Hks' Hpf' Hcs) as [IH1 IH2].
      split; [exact IH1|].
      intros now pin a. cbn [trace].
      destruct (perform sodium c w) as [a0 w'] eqn:E. cbn [snd] in *.
      intros [Hhd | Htl]; [| by eapply IH2].
      injection Hhd as -> ->. cbn in E.
      destruct (unlockWithPin sodium now userId pin w) as [r w1] eqn:E1.
      injection E as <- <-.
      destruct (unlockWithPin_unprovisioned now userId pin w Hks)
        as [_ Hres].
      rewrite E1, Hpf in Hres. cbn in Hres.
      destruct (Hres eq_refl) as [-> | (e & ->)]; [done|].
      intros [= H]. by apply (raised_not_account_locked e).
Qed.

Lemma perform_reachable c w :
  reachable (mkCache w) -> reachable (mkCache (snd (perform sodium c w))).
Proof.
  intros Hr. destruct c as [now u pin | u pin | now u]; cbn [perform].
  - destruct (unlockWithPin sodium now u pin w) as [r w'] eqn:E.
    assert (Hw : w' = snd (unlockWithPin sodium now u pin w)) by by rewrite E.
    cbn [snd]. subst w'. rewrite unlockWithPin_eq.
    destruct (locked_out _ _); [done|].
    destruct (_ ≫= _) as [[item meta]|]; [|done].
    destruct (obind _ _); [|done]. cbn. by constructor.
  - destruct (setPin sodium u pin w) as [r w'] eqn:E.
    assert (Hw : w' = snd (setPin sodium u pin w)) by by rewrite E.
    cbn [snd]. subst w'.
    destruct (setPin_frame sodium u pin w) as (-> & _). done.
  - destruct (getDecryptedDek sodium now u w) as [r w'] eqn:E.
    assert (Hw : w' = snd (getDecryptedDek sodium now u w)) by by rewrite E.
    cbn [snd]. subst w'. rewrite getDecryptedDek_eq. cbn zeta.
    destruct (fst (read _ _ _)); [destruct (keyStore w !! _)|];
      cbn; by constructor.
Qed.

Lemma run_calls_reachable cs : forall w,
  reachable (mkCache w) -> reachable (mkCache (run_calls sodium cs w)).
Proof.
  induction cs as [|c cs IH]; intros w Hr; [done|].
  cbn. apply IH. by apply perform_reachable.
Qed.

(** C5: the master-key cache never holds more than 100 entries, whatever
    calls the services receive (and whatever reads and writes are made on
    it).  Writing a user that is not cached into a
    cache of 100 entries removes the entry at the head of the insertion
    order, the one inserted first, and appends the new one; below 100 entries
    nothing is removed.  A read that finds an entry whose [expires] lies
    after [now] returns its key and sets [expires] to [now] + 30 minutes
    (1800000 ms); a read that finds an entry with [expires <= now] removes
    it and returns a miss.  An unlock stores [expires = now + 30 minutes];
    so when more than 30 minutes passed since the entry was written or last
    read, [getDecryptedDek] returns [null] and removes the entry, and it
    keeps returning [null] while the user has no entry. *)
Theorem mk_cache_policy :
  (forall cs ks, JsMap.size (mkCache (run_calls sodium cs (init ks))) <= 100)
  /\ (forall c, reachable c -> JsMap.size c <= 100)
  /\ (forall now userId w,
         getMasterKeyFromCache now userId w
         = (Return (fst (read now userId (mkCache w))),
            {| keyStore := keyStore w; draws := draws w;
               mkCache := snd (read now userId (mkCache w));
               pinFailures := pinFailures w |})
         /\ forall k,
              setMasterKeyInCache now userId k w
              = (Return tt,
                 {| keyStore := keyStore w; draws := draws w;
                    mkCache := write now userId k (mkCache w);
                    pinFailures := pinFailures w |}))
  /\ (forall now userId k k0 e0 rest,
         100 <= JsMap.size ((k0, e0) :: rest) ->
         JsMap.get userId rest = None ->
         write now userId k ((k0, e0) :: rest)
         = rest ++ [(userId, {| key := k; expires := now + 1800000 |})])
  /\ (forall now userId k c,
         JsMap.size c < 100 ->
         write now userId k c
         = JsMap.set userId {| key := k; expires := now + 1800000 |} c)
  /\ (forall now userId k c,
         JsMap.get userId (write now userId k c)
         = Some {| key := k; expires := now + 1800000 |})
  /\ (forall now userId c cached,
         JsMap.get userId c = Some cached ->
         now < expires cached ->
         read now userId c
         = (Some (key cached),
            JsMap.set userId
              {| key := key cached; expires := now + 1800000 |} c)
         /\ JsMap.get userId (snd (read now userId c))
            = Some {| key := key cached; expires := now + 1800000 |})
  /\ (forall now userId c cached,
         reachable c ->
         JsMap.get userId c = Some cached ->
         expires cached <= now ->
         read now userId c = (None, JsMap.delete userId c)
         /\ JsMap.get userId (JsMap.delete userId c) = None)
  /\ (forall now t userId w cached,
         reachable (mkCache w) ->
         JsMap.get userId (mkCache w) = Some cached ->
         expires cached = t + 1800000 ->
         1800000 < now - t ->
         exists w',
           getDecryptedDek sodium now userId w = (Return None, w')
           /\ JsMap.get userId (mkCache w') = None)
  /\ (forall now userId w,
         JsMap.get userId (mkCache w) = None ->
         exists w',
           getDecryptedDek sodium now userId w = (Return None, w')
           /\ JsMap.get userId (mkCache w') = None).
Proof.
  split.
  { intros cs ks. apply reachable_size, run_calls_reachable. constructor. }
  split; [apply reachable_size|].
  split.
  { intros now userId w. split; [apply getMasterKeyFromCache_read|].
    intros k. apply setMasterKeyInCache_write. }
  split; [intros; by apply write_evicts_oldest|].
  split; [intros; by apply write_below_capacity|].
  split; [intros; apply write_get|].
  split.
  { intros now userId c cached Hg Hlt. split; [by apply read_hit|].
    erewrite read_hit by eassumption. cbn. apply get_set_eq. }
  split.
  { intros now userId c cached Hr Hg Hle. split; [by eapply read_expired|].
    apply get_delete_eq. by apply reachable_NoDup. }
  split.
  - intros now t userId w cached Hr Hg He Ht.
    eexists. split.
    + apply getDecryptedDek_miss.
      erewrite read_expired; [done | eassumption | lia].
    + cbn. erewrite read_expired; [| eassumption | lia]. cbn.
      apply get_delete_eq. by apply reachable_NoDup.
  - intros now userId w Hg. eexists. split.
    + apply getDecryptedDek_miss. by rewrite read_absent.
    + cbn. by rewrite read_absent.
Qed.

(** Whatever PIN is submitted for a provisioned user who is not locked out,
    the call answers [true] as soon as the KEK derivation returns: the
    outcome of the un-awaited [unwrapKey] only shows in the promise that is
    put in the cache. *)
Lemma unlockWithPin_any_pin now userId submitted w item meta hex kek :
  locked_out now (pinFailures w !! userId) = false ->
  keyStore w !! ("mk_pin_" +:+ userId) = Some item ->
  KeyStore.meta item = Some meta ->
  Json.field "salt" meta = Some (Json.JString hex) ->
  crypto_pwhash sodium submitted (VBytes (Hex.decode hex)) = Ok kek ->
  unlockWithPin sodium now userId submitted w
  = (Return (Fulfilled true),
     {| keyStore := keyStore w; draws := draws w;
        mkCache :=
          write now userId
            (VPromise (settle (call_sodium
               (crypto_aead_xchacha20poly1305_ietf_decrypt sodium
                  (KeyStore.blob item) (Hex.decode (KeyStore.nonce item))
                  (VBytes kek)))))
            (mkCache w);
        pinFailures := delete userId (pinFailures w) |}).
Proof.
  intros Hl Hks Hm Hs Hk. rewrite unlockWithPin_eq, Hl, Hks. cbn.
  rewrite Hm. cbn. rewrite Hs. cbn. by rewrite Hk.
Qed.

(** [getDecryptedDek] never returns a byte array. *)
Lemma getDecryptedDek_never_bytes now userId w b :
  fst (getDecryptedDek sodium now userId w) <> Return (Some (VBytes b)).
Proof.
  rewrite getDecryptedDek_eq. cbn zeta.
  destruct (fst (read _ _ _)); [destruct (keyStore w !! _)|]; cbn; congruence.
Qed.

(** For a user without a record the answer is never [true]. *)
Lemma unlockWithPin_unknown_user now userId pin w :
  keyStore w !! ("mk_pin_" +:+ userId) = None ->
  fst (unlockWithPin sodium now userId pin w) <> Return (Fulfilled true).
Proof.
  intros Hks. rewrite unlockWithPin_eq, Hks. cbn.
  destruct (locked_out _ _); [cbn; congruence|].
  unfold call_sodium. destruct (crypto_pwhash _ _ _); cbn; congruence.
Qed.

End Claims.
End UnlockClaims.

(** ** The defects around the un-awaited promises, on a concrete run *)

Module UnlockDefects.
Import Core Scenarios ToySodium.

(** C1 (the code departs from the claim): user ["u1"] has PIN ["1234"].
    The KEK derived from ["0000"] does not open the wrapped MK, yet
    [unlockWithPin("u1", "0000")] resolves to [true], caches the rejected
    promise of [unwrapKey] as the master key and records no failure, where
    the claim has it return [false] and record the failure with
    [lastAttempt = now].  Six such attempts in a row all resolve to [true]:
    the sixth is not refused as locked. *)
Theorem wrong_pin_unlocks :
  (exists item kek,
      keyStore provisioned !! "mk_pin_u1" = Some item
      /\ crypto_pwhash toy "0000"
           (VBytes (Hex.decode "04040404040404040404040404040404")) = Ok kek
      /\ crypto_aead_xchacha20poly1305_ietf_decrypt toy (KeyStore.blob item)
           (Hex.decode (KeyStore.nonce item)) (VBytes kek)
         = Fail CannotDecrypt)
  /\ fst (unlockWithPin toy 1000 "u1" "0000" provisioned)
     = Return (Fulfilled true)
  /\ mkCache (snd (unlockWithPin toy 1000 "u1" "0000" provisioned))
     = [("u1", {| key := VPromise (Rejected DecryptFailed);
                  expires := 1801000 |})]
  /\ pinFailures (snd (unlockWithPin toy 1000 "u1" "0000" provisioned))
       !! "u1" = None
  /\ map snd (Calls.trace toy six_wrong_pins provisioned)
     = repeat (Calls.Unlocked (Return (Fulfilled true))) 6.
Proof.
  split.
  - eexists _, _. split; [vm_compute; reflexivity|].
    split; vm_compute; reflexivity.
  - repeat split; vm_compute; reflexivity.
Qed.

(** C2 (the code departs from the claim): after [setPin("u1", "1234")]
    the cache is empty and [getDecryptedDek("u1")] is [null];
    [unlockWithPin("u1", "1234")] resolves to [true]; but the following
    [getDecryptedDek("u1")] returns a promise, and a rejected one, the cached
    master key being itself a promise: not the 32 bytes of the DEK that the
    stored record wraps under the MK. *)
Theorem decrypted_dek_is_a_promise :
  let unlocked := snd (unlockWithPin toy 1000 "u1" "1234" provisioned) in
  fst (getDecryptedDek toy 0 "u1" provisioned) = Return None
  /\ fst (unlockWithPin toy 1000 "u1" "1234" provisioned)
     = Return (Fulfilled true)
  /\ (exists item,
         keyStore provisioned !! "dek_u1" = Some item
         /\ crypto_aead_xchacha20poly1305_ietf_decrypt toy
              (KeyStore.blob item) (Hex.decode (KeyStore.nonce item))
              (VBytes u1_mk) = Ok u1_dek
         /\ length u1_dek = 32%nat)
  /\ fst (getDecryptedDek toy 2000 "u1" unlocked)
     = Return (Some (VPromise
         (Rejected (TypeError "unsupported input type for key"))))
  /\ fst (getDecryptedDek toy 2000 "u1" unlocked)
     <> Return (Some (VBytes u1_dek)).
Proof.
  cbv zeta. split; [vm_compute; reflexivity|].
  split; [vm_compute; reflexivity|]. split.
  - eexists. split; [vm_compute; reflexivity|].
    split; vm_compute; reflexivity.
  - split; [vm_compute; reflexivity|].
    apply UnlockClaims.getDecryptedDek_never_bytes.
Qed.

(** C4 (the code departs from the claim): for ["ghost"], who has no
    record, the dummy derivation is handed the promise of the throw-away salt
    and the call is rejected with that [TypeError]; for ["u1"] with the wrong
    PIN ["0000"] the call resolves to [true].  Neither is the [false] of the
    claim, and the two runs differ. *)
Theorem unknown_user_is_distinguishable :
  keyStore provisioned !! "mk_pin_ghost" = None
  /\ fst (unlockWithPin toy 1000 "ghost" "0000" provisioned)
     = Return (Rejected (TypeError "unsupported input type for salt"))
  /\ fst (unlockWithPin toy 1000 "u1" "0000" provisioned)
     = Return (Fulfilled true)
  /\ fst (unlockWithPin toy 1000 "ghost" "0000" provisioned)
     <> fst (unlockWithPin toy 1000 "u1" "0000" provisioned).
Proof.
  split; [vm_compute; reflexivity|].
  split; [vm_compute; reflexivity|].
  split; [vm_compute; reflexivity|].
  vm_compute. discriminate.
Qed.

End UnlockDefects.

Module UnlockWitness.
Import Core Calls Scenarios ToySodium.

(** Five failures, the last at 0 ms: at 10 minutes every PIN is turned
    away, at 15 minutes the right PIN unlocks and the record is gone. *)
Lemma pin_lockout_window_witness :
  (forall submitted,
      unlockWithPin toy 600000 "u1" submitted (with_failures 5 0 provisioned)
      = (Return (Rejected account_locked), with_failures 5 0 provisioned))
  /\ exists w',
       unlockWithPin toy 900000 "u1" "1234" (with_failures 5 0 provisioned)
       = (Return (Fulfilled true), w')
       /\ pinFailures w' !! "u1" = None.
Proof.
  split.
  - apply (UnlockClaims.pin_lockout_window toy "u1" "1234" 600000
             (with_failures 5 0 provisioned)
             {| count := 5; lastAttempt := 0 |}).
    + vm_compute. reflexivity.
    + cbn. lia.
    + cbn. lia.
  - apply (UnlockClaims.pin_lockout_window toy "u1" "1234" 900000
             (with_failures 5 0 provisioned)
             {| count := 5; lastAttempt := 0 |})
      with (w0 := init ∅) (w1 := provisioned).
    + vm_compute. reflexivity.
    + cbn. lia.
    + vm_compute. reflexivity.
    + reflexivity.
Defined.

(** Six attempts of ["ghost"], with a provisioning of ["u1"] in between:
    no failure record appears for ["ghost"]. *)
Lemma unprovisioned_user_never_locked_witness :
  pinFailures
    (run_calls toy
       [UnlockWithPin 1000 "ghost" "0000"; UnlockWithPin 2000 "ghost" "0001";
        SetPin "u1" "1234"; UnlockWithPin 3000 "ghost" "0002";
        UnlockWithPin 4000 "ghost" "0003"; UnlockWithPin 5000 "ghost" "0004";
        UnlockWithPin 6000 "ghost" "0005"] (init ∅)) !! "ghost" = None.
Proof.
  destruct (UnlockClaims.unprovisioned_user_never_locked toy "ghost")
    as [_ H].
  apply H.
  - reflexivity.
  - reflexivity.
  - repeat (apply Forall_cons; split;
              [cbn; first [tauto | discriminate]|]).
    apply Forall_nil. exact I.
Defined.

(** A cache entry written at 1000 ms is gone for a read at 31 minutes. *)
Lemma mk_cache_policy_witness :
  exists w',
    getDecryptedDek toy 1861000 "u1"
      (snd (unlockWithPin toy 1000 "u1" "1234" provisioned))
    = (Return None, w')
    /\ JsMap.get "u1" (mkCache w') = None.
Proof.
  destruct (UnlockClaims.mk_cache_policy toy)
    as (_ & _ & _ & _ & _ & _ & _ & _ & H & _).
  apply (H 1861000 1000 "u1"
           (snd (unlockWithPin toy 1000 "u1" "1234" provisioned))
           {| key := VPromise (Fulfilled u1_mk); expires := 1801000 |}).
  - change (mkCache (snd (unlockWithPin toy 1000 "u1" "1234" provisioned)))
      with (MkCache.write 1000 "u1" (VPromise (Fulfilled u1_mk)) []).
    repeat constructor.
  - vm_compute. reflexivity.
  - reflexivity.
  - vm_compute. reflexivity.
Defined.

End UnlockWitness.

(** ** The asynchronous writer: overflow and shutdown *)

Module AsyncWriterFacts.
Import AsyncDbWriter AsyncWriterStates.

(** [enqueue] on a full queue: the job is dropped and counted. *)
Lemma enqueue_full job w :
  maxQueueSize w <= Z.of_nat (length (queue w)) ->
  enqueue job w
  = (false,
     {| queue := queue w; running := running w; intervalId := intervalId w;
        maxQueueSize := maxQueueSize w;
        queueDepth := Z.of_nat (length (queue w));
        droppedJobs := droppedJobs w + 1; totalJobs := totalJobs w + 1;
        executed := executed w |}).
Proof.
  intros H. unfold enqueue. apply Z.leb_le in H. by rewrite H.
Qed.

(** [enqueue] below the maximum while the loop is running: the job is
    appended and waits. *)
Lemma enqueue_running job w :
  Z.of_nat (length (queue w)) < maxQueueSize w ->
  running w = true ->
  enqueue job w
  = (true,
     {| queue := queue w ++ [job]; running := true;
        intervalId := intervalId w; maxQueueSize := maxQueueSize w;
        queueDepth := Z.of_nat (length (queue w));
        droppedJobs := droppedJobs w; totalJobs := totalJobs w + 1;
        executed := executed w |}).
Proof.
  intros H Hr. unfold enqueue, processQueue. apply Z.leb_gt in H.
  rewrite H. cbn. by rewrite Hr.
Qed.

(** [enqueue] on an idle writer: the job is appended, and the loop that the
    call starts takes it off again and calls it. *)
Lemma enqueue_idle job w :
  Z.of_nat (length (queue w)) < maxQueueSize w ->
  running w = false ->
  queue w = [] ->
  enqueue job w
  = (true,
     {| queue := []; running := true;
        intervalId := intervalId w; maxQueueSize := maxQueueSize w;
        queueDepth := 0;
        droppedJobs := droppedJobs w; totalJobs := totalJobs w + 1;
        executed := executed w ++ [job] |}).
Proof.
  intros H Hr Hq. unfold enqueue, processQueue, loop_turn.
  apply Z.leb_gt in H. rewrite H. cbn. rewrite Hr, Hq. reflexivity.
Qed.

Lemma enqueue_false_iff job w :
  fst (enqueue job w) = false
  <-> maxQueueSize w <= Z.of_nat (length (queue w)).
Proof.
  unfold enqueue.
  destruct (maxQueueSize w <=? Z.of_nat (length (queue w))) eqn:E; cbn.
  - apply Z.leb_le in E. done.
  - apply Z.leb_gt in E. split; [done | lia].
Qed.

Lemma loop_turn_invariant w :
  running w = true -> idle_means_empty (fst (loop_turn w)).
Proof.
  intros Hr. unfold loop_turn, idle_means_empty.
  destruct (queue w); cbn; [done | congruence].
Qed.

Lemma processQueue_invariant w :
  idle_means_empty w -> idle_means_empty (fst (processQueue w)).
Proof.
  intros Hi. unfold processQueue.
  destruct (running w) eqn:Hr; cbn; [done|].
  rewrite (Hi Hr). cbn. done.
Qed.

Lemma step_invariant e w :
  idle_means_empty w -> idle_means_empty (step e w).
Proof.
  intros Hi. destruct e as [job | |]; cbn.
  - unfold enqueue.
    destruct (maxQueueSize w <=? Z.of_nat (length (queue w))); cbn;
      [exact Hi|].
    unfold processQueue; cbn.
    destruct (running w) eqn:Hr; cbn;
      [unfold idle_means_empty; cbn; congruence|].
    rewrite (Hi Hr). unfold idle_means_empty. intros _. reflexivity.
  - destruct (running w) eqn:Hr; [|done].
    by apply loop_turn_invariant.
  - unfold tick. destruct (intervalId w); [|done].
    by apply processQueue_invariant.
Qed.

Lemma run_invariant es : forall w,
  idle_means_empty w -> idle_means_empty (run es w).
Proof.
  induction es as [|e es IH]; intros w Hi; [done|].
  cbn. apply IH. by apply step_invariant.
Qed.

(** While a loop is running, [dispose] clears the timer and nothing else:
    the [processQueue] call it awaits returns at once. *)
Lemma dispose_running w :
  running w = true ->
  dispose w
  = ({| queue := queue w; running := true; intervalId := None;
        maxQueueSize := maxQueueSize w; queueDepth := queueDepth w;
        droppedJobs := droppedJobs w; totalJobs := totalJobs w;
        executed := executed w |}, Finished).
Proof.
  intros Hr. unfold dispose, processQueue. cbn. by rewrite Hr.
Qed.

(** In every state the writer can reach with jobs in its queue, [dispose]
    returns with the queue as it found it. *)
Lemma dispose_reachable_keeps_queue es maxQueueSize timer :
  let w := run es (create maxQueueSize timer) in
  queue w <> [] ->
  queue (dispose_returns w) = queue w
  /\ executed (dispose_returns w) = executed w.
Proof.
  intros w Hq.
  assert (Hi : idle_means_empty w) by (by apply run_invariant).
  destruct (running w) eqn:Hr; [|by specialize (Hi Hr)].
  unfold dispose_returns. by rewrite dispose_running.
Qed.

(** A running loop left alone empties the queue, calling every job in
    order. *)
Lemma drain_flushes q : forall w,
  queue w = q ->
  queue (drain (S (length q)) w) = []
  /\ executed (drain (S (length q)) w) = executed w ++ q.
Proof.
  induction q as [|job q IH]; intros w Hq.
  - cbn. unfold resume, loop_turn. rewrite Hq. cbn. by rewrite app_nil_r.
  - cbn [length].
    change (drain (S (S (length q))) w)
      with (match resume w with
            | (w', Finished) => w'
            | (w', Suspended) => drain (S (length q)) w'
            end).
    unfold resume, loop_turn. rewrite Hq.
    match goal with
    | |- context [drain (S (length q)) ?w1] =>
        destruct (IH w1 eq_refl) as [H1 H2]
    end.
    rewrite H1, H2. cbn. by rewrite <- app_assoc.
Qed.

(** C8 (the code departs from the claim): three jobs are enqueued on a new
    writer; the first is being awaited, the other two wait in the queue.
    [dispose()] clears the timer, but the [processQueue] call it awaits
    returns at once because the loop is already running: [dispose] returns
    with both jobs still queued and not called (with one of them still queued
    if the awaited job had settled in the meantime). *)
Theorem dispose_returns_before_flush :
  running three_enqueued = true
  /\ queue three_enqueued = [2; 3]%nat
  /\ executed three_enqueued = [1]%nat
  /\ snd (dispose three_enqueued) = Finished
  /\ intervalId (dispose_returns three_enqueued) = None
  /\ queue (dispose_returns three_enqueued) = [2; 3]%nat
  /\ executed (dispose_returns three_enqueued) = [1]%nat
  /\ queue (step JobSettled (dispose_returns three_enqueued)) = [3]%nat.
Proof. repeat split; vm_compute; reflexivity. Qed.

End AsyncWriterFacts.

Module RateLimiterExtras.
Import RateLimiter RateLimiterRuns RateLimiterSpec RateLimiterLogs.

(** The answers to a key only depend on the key's own window. *)
Lemma decisions_ext key ts : forall rl rl',
  store rl !! key = store rl' !! key ->
  maxRequests rl = maxRequests rl' ->
  windowMs rl = windowMs rl' ->
  decisions key ts rl = decisions key ts rl'.
Proof.
  induction ts as [|t ts IH]; intros rl rl' Hs Hm Hw; [reflexivity|].
  rewrite !decisions_cons.
  assert (Hfst : fst (limit t key rl) = fst (limit t key rl')).
  { unfold limit. cbn. by rewrite Hs, Hm, Hw. }
  rewrite Hfst. f_equal. apply IH; cbn; [|done|done].
  rewrite !lookup_insert_eq. by rewrite Hs, Hw.
Qed.

Lemma limiter_run_cons now key evs rl :
  run ((now, key) :: evs) rl
  = (fst (limit now key rl) :: fst (run evs (snd (limit now key rl))),
     snd (run evs (snd (limit now key rl)))).
Proof.
  cbn [run]. destruct (limit now key rl) as [over rl1]. cbn [fst snd].
  by destruct (run evs rl1).
Qed.

Lemma answers_interleaved key evs : forall rl,
  answers_for key evs rl = decisions key (times_of key evs) rl.
Proof.
  induction evs as [|[now k] evs IH]; intros rl; [reflexivity|].
  unfold answers_for, times_of in *. rewrite limiter_run_cons.
  cbn [fst snd combine List.filter].
  destruct (bool_decide (k = key)) eqn:E.
  - apply bool_decide_eq_true in E as ->. cbn [map fst snd].
    rewrite decisions_cons. f_equal. apply IH.
  - apply bool_decide_eq_false in E. rewrite IH.
    apply decisions_ext; cbn; [|done|done].
    by rewrite lookup_insert_ne.
Qed.


Lemma log_of_cons key t ts rl :
  log_of key (t :: ts) rl
  = (t, fst (limit t key rl)) :: log_of key ts (snd (limit t key rl)).
Proof. unfold log_of. by rewrite decisions_cons. Qed.

Lemma admitted_within_cons t W u d log :
  admitted_within t W ((u, d) :: log)
  = (if negb d && (t <=? u) && (u <? t + W) then 1 else 0)
    + admitted_within t W log.
Proof.
  unfold admitted_within. rewrite filter_cons. cbn [fst snd].
  destruct (negb d && (t <=? u) && (u <? t + W)) eqn:E.
  - rewrite decide_True by done. cbn [length]. lia.
  - rewrite decide_False by (intros H; exact H). lia.
Qed.

Lemma admitted_upto_cons x u d log :
  admitted_upto x ((u, d) :: log)
  = (if negb d && (u <=? x) then 1 else 0) + admitted_upto x log.
Proof.
  unfold admitted_upto. cbn [List.filter fst snd].
  destruct (negb d && (u <=? x)); cbn [length]; lia.
Qed.

Lemma admitted_upto_nonneg x log : 0 <= admitted_upto x log.
Proof. unfold admitted_upto. lia. Qed.

Lemma admitted_within_nonneg t W log : 0 <= admitted_within t W log.
Proof. unfold admitted_within. lia. Qed.

(** Requests later than [x] do not count up to [x]. *)
Lemma admitted_upto_later x key ts : forall rl,
  Forall (fun u => x < u) ts -> admitted_upto x (log_of key ts rl) = 0.
Proof.
  induction ts as [|u ts IH]; intros rl Hall; [reflexivity|].
  apply Forall_cons in Hall as [Hu Hall].
  rewrite log_of_cons, admitted_upto_cons, IH by done.
  assert (E : (u <=? x) = false) by (apply Z.leb_gt; lia).
  rewrite E, andb_false_r. lia.
Qed.

(** An interval that ends by [x] holds no more than what came up to [x]. *)
Lemma admitted_within_le_upto t W x log :
  t + W <= x + 1 -> admitted_within t W log <= admitted_upto x log.
Proof.
  intros Hx. induction log as [|[u d] log IH].
  - unfold admitted_within, admitted_upto. cbn. lia.
  - rewrite admitted_within_cons, admitted_upto_cons.
    destruct (negb d); cbn [andb]; [|lia].
    destruct (t <=? u) eqn:E1; cbn [andb];
      [|destruct (u <=? x); lia].
    destruct (u <? t + W) eqn:E2; [|destruct (u <=? x); lia].
    apply Z.ltb_lt in E2.
    assert (E3 : (u <=? x) = true) by (apply Z.leb_le; lia).
    rewrite E3. lia.
Qed.

(** The three bounds that hold along a run: what the open window still
    admits, what an interval that starts in the open window can hold, and
    what any interval can hold. *)
Lemma window_bounds key ts : forall rl info,
  store rl !! key = Some info ->
  0 <= count info ->
  0 <= maxRequests rl ->
  nondecreasing ts ->
  admitted_upto (startTime info + windowMs rl) (log_of key ts rl)
  <= Z.max 0 (maxRequests rl - count info)
  /\ (forall t, t <= startTime info + windowMs rl ->
        admitted_within t (windowMs rl) (log_of key ts rl)
        <= Z.max 0 (maxRequests rl - count info) + maxRequests rl)
  /\ (forall t,
        admitted_within t (windowMs rl) (log_of key ts rl)
        <= 2 * maxRequests rl).
Proof.
  induction ts as [|u ts IH]; intros rl info Hs Hc Hm Hnd.
  - unfold log_of, admitted_upto, admitted_within. cbn.
    repeat split; intros; lia.
  - destruct Hnd as [Hle Hnd]. rewrite log_of_cons.
    destruct (Z.lt_ge_cases (startTime info) (u - windowMs rl))
      as [Hreset | Hin].
    + rewrite limit_opens by (right; eauto). cbn [fst snd].
      match goal with
      | |- context [log_of key ts ?rl1] => set (rl' := rl1)
      end.
      destruct (IH rl' {| count := 1; startTime := u |}) as (I1 & I2 & I3);
        [apply lookup_insert_eq | cbn; lia | done | done |].
      cbn [count startTime] in I1, I2. 
      change (maxRequests rl') with (maxRequests rl) in *.
      change (windowMs rl') with (windowMs rl) in *.
      assert (Hsplit :
        (if negb (maxRequests rl <? 1) then 1 else 0)
        + Z.max 0 (maxRequests rl - 1) <= maxRequests rl).
      { destruct (maxRequests rl <? 1) eqn:E; cbn [negb];
          [apply Z.ltb_lt in E | apply Z.ltb_ge in E]; lia. }
      assert (Hupto :
        admitted_upto (u + windowMs rl)
          ((u, maxRequests rl <? 1) :: log_of key ts rl')
        <= maxRequests rl).
      { rewrite admitted_upto_cons. cbn [fst snd].
        destruct (negb (maxRequests rl <? 1)); cbn [andb] in *;
          [destruct (u <=? u + windowMs rl)|]; lia. }
      split; [|split].
      * rewrite admitted_upto_cons, admitted_upto_later.
        -- assert (E : (u <=? startTime info + windowMs rl) = false)
             by (apply Z.leb_gt; lia).
           rewrite E, andb_false_r. lia.
        -- eapply Forall_impl; [exact Hle|]. intros v Hv. cbn in Hv. lia.
      * intros t Ht.
        etransitivity;
          [apply (admitted_within_le_upto _ _ (u + windowMs rl)); lia|].
        lia.
      * intros t. rewrite admitted_within_cons.
        destruct (negb (maxRequests rl <? 1)) eqn:Ed; cbn [andb];
          [|specialize (I3 t); lia].
        destruct (t <=? u) eqn:E1; cbn [andb]; [|specialize (I3 t); lia].
        destruct (u <? t + windowMs rl) eqn:E2; [|specialize (I3 t); lia].
        apply Z.leb_le in E1. apply Z.ltb_lt in E2.
        specialize (I2 t). lia.
    + rewrite (limit_counts _ _ _ info Hs) by lia. cbn [fst snd].
      match goal with
      | |- context [log_of key ts ?rl1] => set (rl' := rl1)
      end.
      destruct (IH rl' {| count := count info + 1;
                          startTime := startTime info |})
        as (I1 & I2 & I3);
        [apply lookup_insert_eq | cbn; lia | done | done |].
      cbn [count startTime] in I1, I2.
      change (maxRequests rl') with (maxRequests rl) in *.
      change (windowMs rl') with (windowMs rl) in *.
      assert (Hsplit :
        (if negb (maxRequests rl <? count info + 1) then 1 else 0)
        + Z.max 0 (maxRequests rl - (count info + 1))
        <= Z.max 0 (maxRequests rl - count info)).
      { destruct (maxRequests rl <? count info + 1) eqn:E; cbn [negb];
          [apply Z.ltb_lt in E | apply Z.ltb_ge in E]; lia. }
      assert (Hw : forall t, t <= startTime info + windowMs rl ->
        admitted_within t (windowMs rl)
          ((u, maxRequests rl <? count info + 1) :: log_of key ts rl')
        <= Z.max 0 (maxRequests rl - count info) + maxRequests rl).
      { intros t Ht. rewrite admitted_within_cons. specialize (I2 t Ht).
        destruct (negb (maxRequests rl <? count info + 1)); cbn [andb] in *;
          [destruct (t <=? u); cbn [andb];
           [destruct (u <? t + windowMs rl)|]|]; lia. }
      split; [|split; [exact Hw|]].
      * rewrite admitted_upto_cons.
        destruct (negb (maxRequests rl <? count info + 1)); cbn [andb] in *;
          [destruct (u <=? startTime info + windowMs rl)|]; lia.
      * intros t.
        destruct (Z.le_gt_cases t (startTime info + windowMs rl))
          as [Ht | Ht]; [specialize (Hw t Ht); lia|].
        rewrite admitted_within_cons.
        assert (E : (t <=? u) = false) by (apply Z.leb_gt; lia).
        rewrite E, andb_false_r. cbn [andb]. specialize (I3 t). lia.
Qed.


Lemma nondecreasing_times_of key evs :
  nondecreasing (map fst evs) -> nondecreasing (times_of key evs).
Proof.
  assert (Hsub : forall t evs,
             Forall (fun u => t <= u) (map fst evs) ->
             Forall (fun u => t <= u) (times_of key evs)).
  { intros t l. induction l as [|[u k] l IH]; cbn; [done|].
    intros [Hu Hl]%Forall_cons. unfold times_of in *. cbn [List.filter snd].
    destruct (bool_decide (k = key)); cbn [map fst]; auto. }
  induction evs as [|[t k] evs IH]; [done|].
  cbn [map fst nondecreasing]. intros [Hle Hnd].
  unfold times_of in *. cbn [List.filter snd].
  destruct (bool_decide (k = key)); cbn [map fst nondecreasing];
    [split; [by apply Hsub | by apply IH] | by apply IH].
Qed.

(** X1: in a run in which many clients interleave, the answers a key gets
    are those it would get if it were alone: they depend on the times of its
    own requests only. *)
Theorem interleaved_keys_independent key evs rl :
  answers_for key evs rl = decisions key (times_of key evs) rl.
Proof. apply answers_interleaved. Qed.

(** X2: with a clock that does not run backwards, a limiter that starts
    without a window for a key (or with a non-negative count) never admits
    more than [2 * maxRequests] requests of that key in any interval of
    [windowMs] milliseconds, whatever the other clients do. *)
Theorem two_window_bound key evs rl :
  0 <= maxRequests rl ->
  nondecreasing (map fst evs) ->
  match store rl !! key with
  | Some info => 0 <= count info
  | None => True
  end ->
  forall t,
    admitted_within t (windowMs rl)
      (combine (times_of key evs) (answers_for key evs rl))
    <= 2 * maxRequests rl.
Proof.
  intros Hm Hnd Hst t. rewrite answers_interleaved.
  apply (nondecreasing_times_of key) in Hnd.
  change (combine (times_of key evs) (decisions key (times_of key evs) rl))
    with (log_of key (times_of key evs) rl).
  destruct (store rl !! key) as [info|] eqn:Hs.
  - by apply (window_bounds key _ rl info).
  - destruct (times_of key evs) as [|t0 ts].
    + unfold log_of, admitted_within. cbn. lia.
    + destruct Hnd as [_ Hnd].
      rewrite log_of_cons, limit_opens by (by left). cbn [fst snd].
      match goal with
      | |- context [log_of key ts ?rl1] => set (rl' := rl1)
      end.
      destruct (window_bounds key ts rl' {| count := 1; startTime := t0 |})
        as (_ & I2 & I3);
        [apply lookup_insert_eq | cbn; lia | done | done |].
      cbn [count startTime] in I2.
      change (maxRequests rl') with (maxRequests rl) in *.
      change (windowMs rl') with (windowMs rl) in *.
      rewrite admitted_within_cons.
      destruct (maxRequests rl <? 1) eqn:Ed; cbn [negb andb];
        [specialize (I3 t); lia|].
      apply Z.ltb_ge in Ed.
      destruct (t <=? t0) eqn:E1; cbn [andb]; [|specialize (I3 t); lia].
      destruct (t0 <? t + windowMs rl) eqn:E2; [|specialize (I3 t); lia].
      apply Z.leb_le in E1. apply Z.ltb_lt in E2.
      specialize (I2 t). lia.
Qed.

Lemma decisions_app key ts us : forall rl,
  decisions key (ts ++ us) rl
  = decisions key ts rl
    ++ decisions key us (snd (run (map (fun t => (t, key)) ts) rl)).
Proof.
  induction ts as [|t ts IH]; intros rl; [reflexivity|].
  cbn [app map]. rewrite !decisions_cons, IH, limiter_run_cons. reflexivity.
Qed.

(** A run inside the open window counts every request and keeps the start
    of the window. *)
Lemma run_in_window key ts : forall rl info,
  store rl !! key = Some info ->
  Forall (fun t => t <= startTime info + windowMs rl) ts ->
  let rl' := snd (run (map (fun t => (t, key)) ts) rl) in
  store rl' !! key
  = Some {| count := count info + Z.of_nat (length ts);
            startTime := startTime info |}
  /\ maxRequests rl' = maxRequests rl /\ windowMs rl' = windowMs rl.
Proof.
  induction ts as [|t ts IH]; intros rl info Hs Hall.
  - cbn. rewrite Hs, Z.add_0_r. by destruct info.
  - apply Forall_cons in Hall as [Ht Hall].
    cbn [map]. rewrite limiter_run_cons, (limit_counts _ _ _ info Hs) by lia.
    cbn [fst snd].
    match goal with
    | |- context [run _ ?rl1] => set (rl1' := rl1)
    end.
    destruct (IH rl1' {| count := count info + 1;
                         startTime := startTime info |})
      as (H1 & H2 & H3); [apply lookup_insert_eq | exact Hall |].
    cbn zeta. rewrite H1, H2, H3. cbn [count startTime length].
    split; [|done]. do 2 f_equal. lia.
Qed.

(** X3: refusals do not extend the window.  However many requests of a key
    arrive while its window is open, the first request later than
    [startTime + windowMs] opens a new window and is request number 1 of it:
    it is admitted as soon as [maxRequests >= 1]. *)
Theorem refusals_do_not_extend_window key ts t' rl info :
  store rl !! key = Some info ->
  Forall (fun t => t <= startTime info + windowMs rl) ts ->
  startTime info + windowMs rl < t' ->
  decisions key (ts ++ [t']) rl
  = decisions key ts rl ++ [maxRequests rl <? 1]
  /\ store (snd (run (map (fun t => (t, key)) (ts ++ [t'])) rl)) !! key
     = Some {| count := 1; startTime := t' |}.
Proof.
  intros Hs Hall Ht'.
  destruct (run_in_window key ts rl info Hs Hall) as (H1 & H2 & H3).
  cbn zeta in *. split.
  - rewrite decisions_app. f_equal.
    rewrite decisions_cons, limit_opens.
    + by rewrite H2.
    + right. eexists. split; [exact H1|]. cbn. lia.
  - rewrite map_app.
    assert (Hrun : forall l1 l2 r,
               snd (run (l1 ++ l2) r) = snd (run l2 (snd (run l1 r)))).
    { induction l1 as [|[a k] l1 IH1]; intros l2 r; [done|].
      cbn [app]. rewrite !limiter_run_cons. cbn [snd]. apply IH1. }
    rewrite Hrun. cbn [map]. rewrite limiter_run_cons, limit_opens.
    + cbn. apply lookup_insert_eq.
    + right. eexists. split; [exact H1|]. cbn. lia.
Qed.

End RateLimiterExtras.

Module RateLimiterExtrasWitness.
Import RateLimiter RateLimiterRuns RateLimiterLogs.

(** Two clients interleaved; client ["a"] sends ten requests around the
    boundary of its first window and never gets more than ten through in
    60 s. *)
Lemma two_window_bound_witness :
  admitted_within 59000 (windowMs (create 5 60000))
    (combine (times_of "a" two_clients)
       (answers_for "a" two_clients (create 5 60000)))
  <= 2 * maxRequests (create 5 60000).
Proof.
  apply RateLimiterExtras.two_window_bound.
  - cbn. lia.
  - cbn. repeat split; repeat constructor; lia.
  - vm_compute. exact I.
Defined.

(** Seven more requests in the window opened at 0 ms, then one at
    60.001 s: the last one is admitted. *)
Lemma refusals_do_not_extend_window_witness :
  decisions "a" ([1; 2; 3; 4; 5; 6; 7] ++ [60001])
    (snd (limit 0 "a" (create 5 60000)))
  = decisions "a" [1; 2; 3; 4; 5; 6; 7] (snd (limit 0 "a" (create 5 60000)))
    ++ [false].
Proof.
  apply (RateLimiterExtras.refusals_do_not_extend_window "a"
           [1; 2; 3; 4; 5; 6; 7] 60001 (snd (limit 0 "a" (create 5 60000)))
           {| count := 1; startTime := 0 |}).
  - vm_compute. reflexivity.
  - repeat constructor; cbn; lia.
  - cbn. lia.
Defined.

End RateLimiterExtrasWitness.

Module AsyncWriterExtras.
Import AsyncDbWriter AsyncWriterStates AsyncWriterRuns AsyncWriterFacts.

Lemma writer_run_cons e es w : run (e :: es) w = run es (step e w).
Proof. reflexivity. Qed.

(** [processQueue] without the arithmetic of its guard. *)
Lemma processQueue_eq w :
  processQueue w
  = if running w then (w, Finished)
    else match queue w with
         | [] => (w, Finished)
         | _ :: _ =>
             loop_turn
               {| queue := queue w; running := true;
                  intervalId := intervalId w;
                  maxQueueSize := maxQueueSize w; queueDepth := queueDepth w;
                  droppedJobs := droppedJobs w; totalJobs := totalJobs w;
                  executed := executed w |}
         end.
Proof.
  unfold processQueue.
  destruct (running w); [done|]. destruct (queue w); reflexivity.
Qed.

Lemma processQueue_conserves w :
  executed (fst (processQueue w)) ++ queue (fst (processQueue w))
  = executed w ++ queue w
  /\ totalJobs (fst (processQueue w)) = totalJobs w
  /\ droppedJobs (fst (processQueue w)) = droppedJobs w
  /\ maxQueueSize (fst (processQueue w)) = maxQueueSize w
  /\ (length (queue (fst (processQueue w))) <= length (queue w))%nat.
Proof.
  rewrite processQueue_eq. unfold loop_turn.
  destruct (running w); cbn [fst]; [done|].
  destruct (queue w) as [|job rest] eqn:E; cbn; [by rewrite E|].
  rewrite <- app_assoc. repeat split; try done; cbn; lia.
Qed.

Lemma loop_turn_conserves w :
  executed (fst (loop_turn w)) ++ queue (fst (loop_turn w))
  = executed w ++ queue w
  /\ totalJobs (fst (loop_turn w)) = totalJobs w
  /\ droppedJobs (fst (loop_turn w)) = droppedJobs w
  /\ maxQueueSize (fst (loop_turn w)) = maxQueueSize w
  /\ (length (queue (fst (loop_turn w))) <= length (queue w))%nat.
Proof.
  unfold loop_turn. destruct (queue w) as [|job rest] eqn:E; cbn.
  - done.
  - rewrite <- app_assoc. repeat split; try done; cbn; lia.
Qed.

(** What one segment does to the books of the writer. *)
Lemma step_conserves e w :
  executed (step e w) ++ queue (step e w)
  = executed w ++ queue w ++ accepted [e] w
  /\ totalJobs (step e w)
     = totalJobs w + Z.of_nat (length (accepted [e] w))
       + Z.of_nat (length (refused [e] w))
  /\ droppedJobs (step e w)
     = droppedJobs w + Z.of_nat (length (refused [e] w))
  /\ maxQueueSize (step e w) = maxQueueSize w.
Proof.
  destruct e as [job | |]; cbn [step accepted refused].
  - unfold enqueue.
    destruct (maxQueueSize w <=? Z.of_nat (length (queue w))); cbn [fst snd].
    + cbn. rewrite app_nil_r. repeat split; lia.
    + match goal with
      | |- context [processQueue ?w1] =>
          destruct (processQueue_conserves w1) as (H1 & H2 & H3 & H4 & _)
      end.
      rewrite H1, H2, H3, H4. cbn. repeat split; lia.
  - destruct (running w).
    + destruct (loop_turn_conserves w) as (H1 & H2 & H3 & H4 & _).
      unfold resume. rewrite H1, H2, H3, H4. cbn. rewrite app_nil_r.
      repeat split; lia.
    + cbn. rewrite app_nil_r. repeat split; lia.
  - unfold tick. destruct (intervalId w).
    + destruct (processQueue_conserves w) as (H1 & H2 & H3 & H4 & _).
      rewrite H1, H2, H3, H4. cbn. rewrite app_nil_r. repeat split; lia.
    + cbn. rewrite app_nil_r. repeat split; lia.
Qed.

Lemma accepted_cons e es w :
  accepted (e :: es) w = accepted [e] w ++ accepted es (step e w).
Proof.
  destruct e as [job | |]; cbn [accepted]; [|done|done].
  destruct (fst (enqueue job w)); reflexivity.
Qed.

Lemma refused_cons e es w :
  refused (e :: es) w = refused [e] w ++ refused es (step e w).
Proof.
  destruct e as [job | |]; cbn [refused]; [|done|done].
  destruct (fst (enqueue job w)); reflexivity.
Qed.

Lemma run_conserves es : forall w,
  executed (run es w) ++ queue (run es w)
  = executed w ++ queue w ++ accepted es w
  /\ totalJobs (run es w)
     = totalJobs w + Z.of_nat (length (accepted es w))
       + Z.of_nat (length (refused es w))
  /\ droppedJobs (run es w)
     = droppedJobs w + Z.of_nat (length (refused es w))
  /\ maxQueueSize (run es w) = maxQueueSize w.
Proof.
  induction es as [|e es IH]; intros w.
  - cbn. rewrite !app_nil_r. repeat split; lia.
  - rewrite writer_run_cons, accepted_cons, refused_cons.
    destruct (IH (step e w)) as (H1 & H2 & H3 & H4).
    destruct (step_conserves e w) as (S1 & S2 & S3 & S4).
    rewrite H1, H2, H3, H4, S2, S3, S4, !length_app.
    rewrite (app_assoc (executed (step e w))), S1, <- !app_assoc.
    repeat split; lia.
Qed.

(** X4: no job is lost, duplicated or reordered.  After any sequence of
    [enqueue] calls, timer ticks and job completions on a new writer, the
    jobs called so far followed by the jobs still queued are exactly the
    jobs that [enqueue] accepted, in the order of the calls; [totalJobs]
    counts every call of [enqueue] and [droppedJobs] the refused ones. *)
Theorem accepted_jobs_run_in_order es maxQueueSize timer :
  let w := run es (create maxQueueSize timer) in
  executed w ++ queue w = accepted es (create maxQueueSize timer)
  /\ droppedJobs w
     = Z.of_nat (length (refused es (create maxQueueSize timer)))
  /\ totalJobs w
     = Z.of_nat (length (accepted es (create maxQueueSize timer)))
       + droppedJobs w.
Proof.
  destruct (run_conserves es (create maxQueueSize timer))
    as (H1 & H2 & H3 & _).
  cbn zeta. rewrite H1, H2, H3. cbn. repeat split; lia.
Qed.

Lemma step_queue_bound e w :
  Z.of_nat (length (queue w)) <= maxQueueSize w ->
  Z.of_nat (length (queue (step e w))) <= maxQueueSize (step e w).
Proof.
  intros Hb. destruct (step_conserves e w) as (_ & _ & _ & ->).
  destruct e as [job | |]; cbn [step].
  - unfold enqueue.
    destruct (maxQueueSize w <=? Z.of_nat (length (queue w))) eqn:E;
      cbn [fst snd]; [exact Hb|].
    apply Z.leb_gt in E.
    match goal with
    | |- context [processQueue ?w1] =>
        destruct (processQueue_conserves w1) as (_ & _ & _ & _ & H)
    end.
    cbn in H. rewrite length_app in H. cbn in H. lia.
  - destruct (running w); [|exact Hb].
    destruct (loop_turn_conserves w) as (_ & _ & _ & _ & H).
    unfold resume. lia.
  - unfold tick. destruct (intervalId w); [|exact Hb].
    destruct (processQueue_conserves w) as (_ & _ & _ & _ & H). lia.
Qed.

(** X5: the queue never holds more than [maxQueueSize] jobs (for a
    non-negative maximum), whatever is enqueued and whenever the jobs
    settle. *)
Theorem queue_never_exceeds_maximum es maxQueueSize timer :
  0 <= maxQueueSize ->
  Z.of_nat (length (queue (run es (create maxQueueSize timer))))
  <= maxQueueSize.
Proof.
  intros Hm.
  assert (H : forall es w,
             Z.of_nat (length (queue w)) <= AsyncDbWriter.maxQueueSize w ->
             Z.of_nat (length (queue (run es w)))
             <= AsyncDbWriter.maxQueueSize (run es w)).
  { clear. induction es as [|e es IH]; intros w Hb; [exact Hb|].
    rewrite writer_run_cons. apply IH. by apply step_queue_bound. }
  specialize (H es (create maxQueueSize timer)).
  destruct (run_conserves es (create maxQueueSize timer)) as (_ & _ & _ & E).
  rewrite E in H. cbn in H. apply H. lia.
Qed.

(** X6: the 100 ms timer never starts anything.  In every state that a new
    writer can reach between two segments, the timer callback finds either
    the loop running or the queue empty and changes nothing: jobs are only
    ever started by [enqueue] and by the loop itself. *)
Theorem timer_tick_changes_nothing es maxQueueSize timer :
  tick (run es (create maxQueueSize timer))
  = run es (create maxQueueSize timer).
Proof.
  assert (Hi : idle_means_empty (run es (create maxQueueSize timer)))
    by (by apply run_invariant).
  unfold tick. rewrite processQueue_eq.
  destruct (intervalId _); [|done].
  destruct (running _) eqn:Hr; [done|].
  by rewrite (Hi Hr).
Qed.

(** Job completions alone empty the queue. *)
Lemma settle_all q : forall w n,
  queue w = q ->
  (length q < n)%nat ->
  idle_means_empty w ->
  let w' := run (repeat JobSettled n) w in
  queue w' = [] /\ running w' = false
  /\ executed w' = executed w ++ q.
Proof.
  induction q as [|job q IH]; intros w n Hq Hn Hi.
  - assert (Hstay : forall m w0, queue w0 = [] -> running w0 = false ->
               run (repeat JobSettled m) w0 = w0).
    { induction m as [|m IHm]; intros w0 H0 H1; [done|].
      cbn [repeat]. rewrite writer_run_cons. cbn [step]. rewrite H1.
      by apply IHm. }
    destruct n as [|n]; [cbn in Hn; lia|].
    cbn [repeat]. cbn zeta. rewrite writer_run_cons. cbn [step].
    destruct (running w) eqn:Hr.
    + unfold resume, loop_turn. rewrite Hq. cbn [fst].
      rewrite Hstay by done. cbn. by rewrite app_nil_r.
    + rewrite Hstay by done. by rewrite Hq, Hr, app_nil_r.
  - destruct (running w) eqn:Hr; [|specialize (Hi Hr); congruence].
    destruct n as [|n]; [cbn in Hn; lia|].
    cbn [repeat]. cbn zeta. rewrite writer_run_cons. cbn [step]. rewrite Hr.
    unfold resume, loop_turn. rewrite Hq. cbn [fst].
    match goal with
    | |- context [run _ ?w1] =>
        destruct (IH w1 n eq_refl) as (H1 & H2 & H3)
    end.
    + cbn in Hn. lia.
    + unfold idle_means_empty. cbn. congruence.
    + cbn zeta in *. rewrite H1, H2, H3. cbn. by rewrite <- app_assoc.
Qed.

(** X7: every accepted job is eventually called.  From any state a new
    writer can reach, once the awaited jobs have settled one after the other
    (one completion more than there are queued jobs), the queue is empty, the
    loop has stopped, and the jobs called are exactly the accepted ones in
    order. *)
Theorem accepted_jobs_all_run es maxQueueSize timer :
  let w := run es (create maxQueueSize timer) in
  let w' := run (repeat JobSettled (S (length (queue w)))) w in
  queue w' = [] /\ running w' = false
  /\ executed w' = accepted es (create maxQueueSize timer).
Proof.
  intros w w'.
  destruct (settle_all (queue w) w (S (length (queue w))) eq_refl)
    as (H1 & H2 & H3); [lia | by apply run_invariant |].
  destruct (run_conserves es (create maxQueueSize timer)) as (E & _).
  fold w in E. cbn in E.
  subst w'. cbn zeta in *. by rewrite H1, H2, H3, E.
Qed.

End AsyncWriterExtras.

Module AsyncWriterExtrasWitness.
Import AsyncDbWriter AsyncWriterRuns.

(** A writer that queues at most two jobs, under a burst of five. *)
Lemma queue_never_exceeds_maximum_witness :
  Z.of_nat (length (queue (run small_burst (create 2 7)))) <= 2.
Proof.
  apply AsyncWriterExtras.queue_never_exceeds_maximum. lia.
Defined.

End AsyncWriterExtrasWitness.

Module SetupExtras.
Import Core MkCache Calls JsMapFacts MkCacheFacts HexFacts CoreFacts
  SodiumLaws.

Lemma bytes_eqb_refl b : ToySodium.bytes_eqb b b = true.
Proof.
  induction b as [|x b IH]; [done|]. cbn. rewrite IH, andb_true_r.
  by destruct x.
Qed.

(** The stand-in AEAD opens what it sealed. *)
Lemma toy_aead_opens : aead_opens ToySodium.toy.
Proof.
  intros m nonce k c H. cbn in *. unfold ToySodium.toy_encrypt in H.
  injection H as <-. unfold ToySodium.toy_decrypt.
  rewrite (app_assoc k nonce m), take_app_length, drop_app_length.
  by rewrite bytes_eqb_refl.
Qed.

Section Setup.
Variable sodium : Sodium.

Lemma dek_not_mk_pin u u' : "dek_" +:+ u <> "mk_pin_" +:+ u'.
Proof. intros H. cbn in H. discriminate. Qed.

(** A [setPin] that resolves, spelled out: the five draws, the three library
    calls that succeeded and the two rows written. *)
Lemma setPin_fulfilled userId pin w w' :
  setPin sodium userId pin w = (Return (Fulfilled tt), w') ->
  let mk := randombytes_buf sodium (draws w) 32 in
  let dek := randombytes_buf sodium (S (draws w)) 32 in
  let nonce1 := randombytes_buf sodium (S (S (draws w))) 24 in
  let salt := randombytes_buf sodium (S (S (S (draws w)))) 16 in
  let nonce2 := randombytes_buf sodium (S (S (S (S (draws w))))) 24 in
  exists c1 kek c2,
    crypto_aead_xchacha20poly1305_ietf_encrypt sodium dek nonce1 mk = Ok c1
    /\ crypto_pwhash sodium pin (VBytes salt) = Ok kek
    /\ crypto_aead_xchacha20poly1305_ietf_encrypt sodium mk nonce2 kek = Ok c2
    /\ keyStore w !! ("dek_" +:+ userId) = None
    /\ keyStore w !! ("mk_pin_" +:+ userId) = None
    /\ keyStore w'
       = <["mk_pin_" +:+ userId :=
             {| KeyStore.id := "mk_pin_" +:+ userId;
                KeyStore.type := "master_key_pin";
                KeyStore.blob := c2;
                KeyStore.nonce := Hex.encode nonce2;
                KeyStore.meta :=
                  Some [("salt", Json.JString (Hex.encode salt))] |}]>
           (<["dek_" +:+ userId :=
                {| KeyStore.id := "dek_" +:+ userId;
                   KeyStore.type := "data_encryption_key";
                   KeyStore.blob := c1;
                   KeyStore.nonce := Hex.encode nonce1;
                   KeyStore.meta := Some [("version", Json.JNumber 1)] |}]>
              (keyStore w))
    /\ mkCache w' = mkCache w
    /\ pinFailures w' = pinFailures w.
Proof.
  intros H. run_monad.
  repeat (break_call; run_monad; simplify_eq).
  cbn zeta. eexists _, _, _.
  repeat split; try eassumption; try reflexivity.
  match goal with
  | H : <[_ := _]> _ !! _ = None |- _ =>
      rewrite lookup_insert_ne in H by apply dek_not_mk_pin; exact H
  end.
Qed.

(** [setPin] keeps every row of the key store. *)
Lemma setPin_keeps_rows userId pin w k item :
  keyStore w !! k = Some item ->
  keyStore (snd (setPin sodium userId pin w)) !! k = Some item.
Proof.
  intros Hk.
  run_monad. repeat (break_call; run_monad); try exact Hk.
  all: repeat match goal with
         | H : <[_ := _]> _ !! _ = None |- _ =>
             rewrite lookup_insert_ne in H by apply dek_not_mk_pin
         end.
  all: rewrite ?lookup_insert_ne by congruence; exact Hk.
Qed.

(** The call of the [async] function [setPin] returns a promise. *)
Lemma setPin_returns userId pin w :
  exists p, fst (setPin sodium userId pin w) = Return p.
Proof.
  run_monad. repeat (break_call; run_monad); eauto.
Qed.

(** A user who has one of the two rows is turned away. *)
Lemma setPin_rejects_existing userId pin w :
  keyStore w !! ("dek_" +:+ userId) <> None
  \/ keyStore w !! ("mk_pin_" +:+ userId) <> None ->
  exists e, fst (setPin sodium userId pin w) = Return (Rejected e).
Proof.
  intros Hor.
  destruct (setPin_returns userId pin w) as [[[]|e] Hp]; [|eauto].
  destruct (setPin sodium userId pin w) as [r w'] eqn:E.
  cbn [fst] in Hp. subst r.
  apply setPin_fulfilled in E. cbn zeta in E.
  destruct E as (? & ? & ? & _ & _ & _ & H1 & H2 & _).
  destruct Hor; congruence.
Qed.

(** X8: [setPin] never replaces a key.  Whatever the key store holds stays
    as it is, and a user who already has a wrapped DEK or a wrapped master
    key is turned away: the promise rejects. *)
Theorem setPin_never_overwrites userId pin w k item :
  keyStore w !! k = Some item ->
  keyStore (snd (setPin sodium userId pin w)) !! k = Some item
  /\ (k = "dek_" +:+ userId \/ k = "mk_pin_" +:+ userId ->
      exists e, fst (setPin sodium userId pin w) = Return (Rejected e)).
Proof.
  intros Hk. split; [by apply setPin_keeps_rows|].
  intros Hor. apply setPin_rejects_existing.
  destruct Hor as [<-|<-]; [left|right]; congruence.
Qed.

(** X9: [setPin] is not atomic.  When the password hash fails after the
    wrapped DEK was written, the promise rejects with a [dek_] row left behind
    and no [mk_pin_] row written; every later [setPin] for that user is then
    turned away, with the key store as it is. *)
Theorem failed_setPin_leaves_dek userId pin w c e :
  keyStore w !! ("dek_" +:+ userId) = None ->
  crypto_aead_xchacha20poly1305_ietf_encrypt sodium
    (randombytes_buf sodium (S (draws w)) 32)
    (randombytes_buf sodium (S (S (draws w))) 24)
    (randombytes_buf sodium (draws w) 32) = Ok c ->
  crypto_pwhash sodium pin
    (VBytes (randombytes_buf sodium (S (S (S (draws w)))) 16)) = Fail e ->
  fst (setPin sodium userId pin w) = Return (Rejected (raised e))
  /\ keyStore (snd (setPin sodium userId pin w))
     = <["dek_" +:+ userId :=
           {| KeyStore.id := "dek_" +:+ userId;
              KeyStore.type := "data_encryption_key";
              KeyStore.blob := c;
              KeyStore.nonce :=
                Hex.encode (randombytes_buf sodium (S (S (draws w))) 24);
              KeyStore.meta := Some [("version", Json.JNumber 1)] |}]>
         (keyStore w)
  /\ forall pin' w',
       keyStore w' = keyStore (snd (setPin sodium userId pin w)) ->
       (exists e', fst (setPin sodium userId pin' w') = Return (Rejected e'))
       /\ keyStore (snd (setPin sodium userId pin' w')) = keyStore w'.
Proof.
  intros Hdek Henc Hpw.
  assert (H1 : setPin sodium userId pin w
               = (Return (Rejected (raised e)),
                  {| keyStore :=
                       <["dek_" +:+ userId :=
                           {| KeyStore.id := "dek_" +:+ userId;
                              KeyStore.type := "data_encryption_key";
                              KeyStore.blob := c;
                              KeyStore.nonce :=
                                Hex.encode
                                  (randombytes_buf sodium (S (S (draws w))) 24);
                              KeyStore.meta :=
                                Some [("version", Json.JNumber 1)] |}]>
                         (keyStore w);
                     draws := S (S (S (S (draws w))));
                     mkCache := mkCache w;
                     pinFailures := pinFailures w |})).
  { run_monad. unfold crypto_aead_xchacha20poly1305_ietf_NPUBBYTES.
    rewrite Henc. run_monad. rewrite Hdek. run_monad.
    rewrite Hpw. reflexivity. }
  rewrite H1. cbn [fst snd keyStore]. split; [done|]. split; [done|].
  intros pin' w' Hks.
  assert (Hd : keyStore w' !! ("dek_" +:+ userId) <> None)
    by (rewrite Hks, lookup_insert_eq; done).
  split.
  - apply setPin_rejects_existing. by left.
  - clear -Hd. run_monad. repeat (break_call; run_monad); done.
Qed.

(** X10: the key hierarchy that [setPin] writes opens again.  With an AEAD
    that opens what it sealed, after a [setPin] that resolved the stored
    [dek_] row opens under the master key to the DEK that was generated, and
    [unlockWithPin] with the same PIN resolves to [true] and caches a promise
    fulfilled with that master key: the hex text of the nonces and of the
    salt decodes to the bytes that were drawn. *)
Theorem setPin_then_unlock_caches_master_key userId pin w w' now :
  aead_opens sodium ->
  setPin sodium userId pin w = (Return (Fulfilled tt), w') ->
  locked_out now (pinFailures w !! userId) = false ->
  (exists item,
      keyStore w' !! ("dek_" +:+ userId) = Some item
      /\ crypto_aead_xchacha20poly1305_ietf_decrypt sodium
           (KeyStore.blob item) (Hex.decode (KeyStore.nonce item))
           (VBytes (randombytes_buf sodium (draws w) 32))
         = Ok (randombytes_buf sodium (S (draws w)) 32))
  /\ fst (unlockWithPin sodium now userId pin w') = Return (Fulfilled true)
  /\ JsMap.get userId (mkCache (snd (unlockWithPin sodium now userId pin w')))
     = Some {| key := VPromise
                 (Fulfilled (randombytes_buf sodium (draws w) 32));
               expires := now + 1800000 |}.
Proof.
  intros Hlaw Hset Hlock.
  apply setPin_fulfilled in Hset. cbn zeta in Hset.
  destruct Hset as (c1 & kek & c2 & H1 & Hkek & H2 & _ & _ & Hks & _ & Hpf).
  rewrite <- Hpf in Hlock.
  split.
  - eexists. split.
    + rewrite Hks, lookup_insert_ne by apply not_eq_sym, dek_not_mk_pin.
      apply lookup_insert_eq.
    + cbn [KeyStore.blob KeyStore.nonce]. rewrite decode_encode.
      by apply Hlaw.
  - assert (Hitem : keyStore w' !! ("mk_pin_" +:+ userId) = Some _)
      by (rewrite Hks; apply lookup_insert_eq).
    rewrite (UnlockClaims.unlockWithPin_any_pin sodium now userId pin w' _ _
               (Hex.encode (randombytes_buf sodium (S (S (S (draws w)))) 16))
               kek Hlock Hitem eq_refl).
    + cbn [fst snd mkCache]. split; [done|]. rewrite write_get.
      cbn [KeyStore.blob KeyStore.nonce]. rewrite decode_encode.
      by rewrite (Hlaw _ _ _ _ H2).
    + cbn -[Hex.encode]. rewrite decide_True by done. reflexivity.
    + by rewrite decode_encode.
Qed.

End Setup.
End SetupExtras.

Module SetupExtrasWitness.
Import Core Scenarios SodiumLaws.

(** A second [setPin] for ["u1"] leaves the wrapped DEK alone and rejects. *)
Lemma setPin_never_overwrites_witness :
  exists item,
    keyStore provisioned !! "dek_u1" = Some item
    /\ keyStore (snd (setPin ToySodium.toy "u1" "9999" provisioned))
         !! "dek_u1" = Some item
    /\ exists e,
         fst (setPin ToySodium.toy "u1" "9999" provisioned)
         = Return (Rejected e).
Proof.
  eexists.
  assert (H : keyStore provisioned !! "dek_u1" = Some _)
    by (vm_compute; reflexivity).
  split; [exact H|].
  destruct (SetupExtras.setPin_never_overwrites ToySodium.toy "u1" "9999"
              provisioned "dek_u1" _ H) as [H1 H2].
  split; [exact H1|]. apply H2. left. reflexivity.
Defined.

(** With a password hash that runs out of memory, [setPin] on an empty key
    store leaves the [dek_u1] row behind. *)
Lemma failed_setPin_leaves_dek_witness :
  fst (setPin out_of_memory "u1" "1234" (init ∅))
  = Return (Rejected (SodiumError "out of memory"))
  /\ keyStore (snd (setPin out_of_memory "u1" "1234" (init ∅))) !! "dek_u1"
     <> None
  /\ keyStore (snd (setPin out_of_memory "u1" "1234" (init ∅))) !! "mk_pin_u1"
     = None.
Proof.
  edestruct (SetupExtras.failed_setPin_leaves_dek out_of_memory "u1" "1234"
               (init ∅)) as (H1 & H2 & _);
    [vm_compute; reflexivity | reflexivity | reflexivity |].
  split; [exact H1|]. rewrite H2. split.
  - vm_compute. discriminate.
  - vm_compute. reflexivity.
Defined.

(** [setPin("u1", "1234")] on an empty key store, then the right PIN. *)
Lemma setPin_then_unlock_caches_master_key_witness :
  fst (unlockWithPin ToySodium.toy 1000 "u1" "1234" provisioned)
  = Return (Fulfilled true)
  /\ JsMap.get "u1"
       (mkCache (snd (unlockWithPin ToySodium.toy 1000 "u1" "1234"
                        provisioned)))
     = Some {| key := VPromise (Fulfilled u1_mk); expires := 1801000 |}.
Proof.
  edestruct (SetupExtras.setPin_then_unlock_caches_master_key ToySodium.toy
               "u1" "1234" (init ∅) provisioned 1000) as (_ & H1 & H2);
    [exact SetupExtras.toy_aead_opens | vm_compute; reflexivity
    | vm_compute; reflexivity |].
  split; [exact H1 | exact H2].
Defined.

End SetupExtrasWitness.

Module WebAuthnExtras.
Import Core MkCache WebAuthn MkCacheFacts.

Section WebAuthnFacts.
Variable sodium : Sodium.
Variable libs : Libs.

(** [deriveKeyFromWebAuthn] settles with [webauthn_kek] and touches
    nothing. *)
Lemma deriveKeyFromWebAuthn_eq a salt w :
  deriveKeyFromWebAuthn libs (clientDataJSON a) (assertion_id a)
    (signature a) salt w
  = (Return (settle (webauthn_kek libs a salt)), w).
Proof.
  unfold deriveKeyFromWebAuthn, webauthn_kek, pure. monad_unfold.
  destruct (client_data_challenge libs _); cbn; [|done].
  destruct (from_base64 libs _); cbn; [|done].
  destruct (from_base64 libs _); cbn; [|done].
  destruct (from_base64 libs _); cbn; [|done].
  by destruct (hkdf_sha256 libs _ _ _ _).
Qed.

(** [unlockWithWebAuthn], case by case. *)
Lemma unlockWithWebAuthn_eq now userId a chall rpID origin w :
  unlockWithWebAuthn sodium libs now userId a chall rpID origin w
  = match (keyStore w !! ("fido2_" +:+ userId +:+ "_" +:+ assertion_id a))
          ≫= (fun item => KeyStore.meta item ≫= (fun m => Some (item, m)))
    with
    | None => (Return (Fulfilled false), w)
    | Some (item, meta) =>
        match buffer_from_base64 libs (Json.field "credentialID" meta) with
        | Throw e => (Return (Rejected e), w)
        | Return cid =>
        match buffer_from_base64 libs
                (Json.field "credentialPublicKey" meta) with
        | Throw e => (Return (Rejected e), w)
        | Return pk =>
        match verifyAuthenticationResponse libs a chall origin rpID
                {| credentialID := cid; credentialPublicKey := pk;
                   counter := Json.field "counter" meta |} with
        | Throw e => (Return (Rejected e), w)
        | Return (false, _) => (Return (Fulfilled false), w)
        | Return (true, c) =>
        match Json.buffer_from_hex (Json.field "salt" meta) with
        | Throw e => (Return (Rejected e), counted item meta c w)
        | Return salt =>
        match webauthn_kek libs a salt with
        | Throw e => (Return (Rejected e), counted item meta c w)
        | Return kek =>
        match keyStore (counted item meta c w) !! ("mk_fido_" +:+ userId) with
        | None => (Return (Fulfilled false), counted item meta c w)
        | Some wrapped =>
            (Return (Fulfilled true),
             {| keyStore := keyStore (counted item meta c w);
                draws := draws w;
                mkCache :=
                  write now userId
                    (VPromise (settle (call_sodium
                       (crypto_aead_xchacha20poly1305_ietf_decrypt sodium
                          (KeyStore.blob wrapped)
                          (Hex.decode (KeyStore.nonce wrapped))
                          (VBytes kek)))))
                    (mkCache w);
                pinFailures := pinFailures w |})
        end end end end end end
    end.
Proof.
  unfold unlockWithWebAuthn, KeyStore.findById, pure, counted,
    keyStore_update.
  monad_unfold. cbn [keyStore].
  destruct (keyStore w !! _) as [item|]; cbn; [|done].
  destruct (KeyStore.meta item) as [meta|]; cbn; [|done].
  destruct (buffer_from_base64 libs (Json.field "credentialID" meta));
    [|done].
  destruct (buffer_from_base64 libs _); [|done].
  destruct (verifyAuthenticationResponse libs _ _ _ _ _) as [[[] c]|];
    cbn; [|done|done].
  destruct (Json.buffer_from_hex _); [|done].
  monad_unfold. rewrite deriveKeyFromWebAuthn_eq.
  destruct (webauthn_kek libs a _); cbn; [|done].
  destruct (KeyStoreOps.update _ _ _ _ _ !! _); [|done].
  unfold unwrapKey, aeadDecrypt, setMasterKeyInCache. monad_unfold.
  cbn. unfold write.
  by destruct (call_sodium _).
Qed.

Lemma update_lookup_ne i blob nonce meta ks k :
  k <> i -> KeyStoreOps.update i blob nonce meta ks !! k = ks !! k.
Proof.
  intros Hne. unfold KeyStoreOps.update.
  destruct (ks !! i); [|done]. by rewrite lookup_insert_ne.
Qed.

Lemma update_lookup_eq i blob nonce meta ks item :
  ks !! i = Some item ->
  KeyStoreOps.update i blob nonce meta ks !! i
  = Some {| KeyStore.id := KeyStore.id item;
            KeyStore.type := KeyStore.type item;
            KeyStore.blob := blob; KeyStore.nonce := nonce;
            KeyStore.meta := meta |}.
Proof.
  intros H. unfold KeyStoreOps.update. rewrite H. apply lookup_insert_eq.
Qed.

(** X11: [unlockWithWebAuthn] acts only on a verified assertion.  If the
    call resolves to [true], or changes the key store, the cache or anything
    else, then the user has a credential row for the asserted id and
    [verifyAuthenticationResponse] accepted the assertion against that row's
    credential id, public key and counter. *)
Theorem webauthn_acts_only_when_verified now userId a chall rpID origin w :
  snd (unlockWithWebAuthn sodium libs now userId a chall rpID origin w) <> w
  \/ fst (unlockWithWebAuthn sodium libs now userId a chall rpID origin w)
     = Return (Fulfilled true) ->
  exists item meta cid pk c,
    keyStore w !! ("fido2_" +:+ userId +:+ "_" +:+ assertion_id a) = Some item
    /\ KeyStore.meta item = Some meta
    /\ buffer_from_base64 libs (Json.field "credentialID" meta) = Return cid
    /\ buffer_from_base64 libs (Json.field "credentialPublicKey" meta)
       = Return pk
    /\ verifyAuthenticationResponse libs a chall origin rpID
         {| credentialID := cid; credentialPublicKey := pk;
            counter := Json.field "counter" meta |}
       = Return (true, c).
Proof.
  rewrite unlockWithWebAuthn_eq.
  destruct (keyStore w !! _) as [item|]; cbn; [|intros [?|?]; done].
  destruct (KeyStore.meta item) as [meta|] eqn:Hm; cbn;
    [|intros [?|?]; done].
  destruct (buffer_from_base64 libs (Json.field "credentialID" meta))
    as [cid|] eqn:Hc; [|intros [?|?]; done].
  destruct (buffer_from_base64 libs (Json.field "credentialPublicKey" meta))
    as [pk|] eqn:Hp; [|intros [?|?]; done].
  destruct (verifyAuthenticationResponse libs a chall origin rpID _)
    as [[[] c]|] eqn:Hv; cbn; [|intros [?|?]; done|intros [?|?]; done].
  intros _. by exists item, meta, cid, pk, c.
Qed.

(** X12: the signature counter is stored as soon as the assertion is
    verified.  The credential row then carries the verifier's new counter
    (the other fields and the other rows are as before), whether or not the
    unlock goes on to succeed: a missing salt, a failed key derivation or a
    missing [mk_fido_] row come after the update. *)
Theorem webauthn_counter_stored_once_verified now userId a chall rpID origin
    w item meta cid pk c :
  keyStore w !! ("fido2_" +:+ userId +:+ "_" +:+ assertion_id a) = Some item ->
  KeyStore.id item = "fido2_" +:+ userId +:+ "_" +:+ assertion_id a ->
  KeyStore.meta item = Some meta ->
  buffer_from_base64 libs (Json.field "credentialID" meta) = Return cid ->
  buffer_from_base64 libs (Json.field "credentialPublicKey" meta)
  = Return pk ->
  verifyAuthenticationResponse libs a chall origin rpID
    {| credentialID := cid; credentialPublicKey := pk;
       counter := Json.field "counter" meta |}
  = Return (true, c) ->
  let w' :=
    snd (unlockWithWebAuthn sodium libs now userId a chall rpID origin w) in
  keyStore w' !! ("fido2_" +:+ userId +:+ "_" +:+ assertion_id a)
  = Some {| KeyStore.id := KeyStore.id item;
            KeyStore.type := KeyStore.type item;
            KeyStore.blob := KeyStore.blob item;
            KeyStore.nonce := KeyStore.nonce item;
            KeyStore.meta :=
              Some (set_field "counter" (Json.JNumber c) meta) |}
  /\ Json.field "counter" (set_field "counter" (Json.JNumber c) meta)
     = Some (Json.JNumber c)
  /\ forall k,
       k <> "fido2_" +:+ userId +:+ "_" +:+ assertion_id a ->
       keyStore w' !! k = keyStore w !! k.
Proof.
  intros Hks Hid Hm Hc Hp Hv. cbn zeta.
  rewrite unlockWithWebAuthn_eq, Hks. cbn. rewrite Hm. cbn.
  rewrite Hc, Hp, Hv.
  match goal with
  | |- context [keyStore (snd ?r)] =>
      assert (Hr : keyStore (snd r) = keyStore (counted item meta c w))
  end.
  { destruct (Json.buffer_from_hex _); [|done].
    destruct (webauthn_kek libs a _); [|done].
    by destruct (KeyStoreOps.update _ _ _ _ _ !! ("mk_fido_" +:+ userId)). }
  rewrite Hr. unfold counted. cbn [keyStore]. rewrite <- Hid.
  split; [apply update_lookup_eq; by rewrite Hid|]. split.
  - clear. induction meta as [|[k v] meta IH]; cbn.
    + by rewrite decide_True.
    + destruct (decide ("counter" = k)) as [->|Hne]; cbn.
      * by rewrite decide_True.
      * by rewrite decide_False.
  - intros k Hk. by apply update_lookup_ne.
Qed.

(** X13: the WebAuthn unlock neither reads nor writes the PIN-failure
    records.  With any other failure records the call gives the same answer
    and the same key store and cache, and leaves those records as they are:
    a PIN lockout does not close this path, and a WebAuthn unlock does not
    lift the lockout. *)
Theorem webauthn_ignores_pin_failures now userId a chall rpID origin w f :
  unlockWithWebAuthn sodium libs now userId a chall rpID origin
    (with_pinFailures f w)
  = (fst (unlockWithWebAuthn sodium libs now userId a chall rpID origin w),
     with_pinFailures f
       (snd (unlockWithWebAuthn sodium libs now userId a chall rpID origin
               w))).
Proof.
  rewrite !unlockWithWebAuthn_eq. cbn [with_pinFailures keyStore].
  destruct (_ ≫= _) as [[item meta]|]; [|done].
  destruct (buffer_from_base64 libs (Json.field "credentialID" meta));
    [|done].
  destruct (buffer_from_base64 libs _); [|done].
  destruct (verifyAuthenticationResponse libs _ _ _ _ _) as [[[] c]|];
    [|done|done].
  destruct (Json.buffer_from_hex _); [|done].
  destruct (webauthn_kek libs a _); [|done].
  unfold counted. cbn [keyStore].
  by destruct (KeyStoreOps.update _ _ _ _ _ !! _).
Qed.

(** X14: the WebAuthn unlock does not check that the derived key opens the
    wrapped master key.  Once the assertion is verified, the key derived and
    the [mk_fido_] row found, the call resolves to [true] and caches the
    promise of [unwrapKey] for 30 minutes, also when that promise is
    rejected because the key does not open the row. *)
Theorem webauthn_unlock_unchecked now userId a chall rpID origin w item meta
    cid pk c salt kek wrapped e :
  keyStore w !! ("fido2_" +:+ userId +:+ "_" +:+ assertion_id a) = Some item ->
  KeyStore.id item = "fido2_" +:+ userId +:+ "_" +:+ assertion_id a ->
  KeyStore.meta item = Some meta ->
  buffer_from_base64 libs (Json.field "credentialID" meta) = Return cid ->
  buffer_from_base64 libs (Json.field "credentialPublicKey" meta)
  = Return pk ->
  verifyAuthenticationResponse libs a chall origin rpID
    {| credentialID := cid; credentialPublicKey := pk;
       counter := Json.field "counter" meta |}
  = Return (true, c) ->
  Json.buffer_from_hex (Json.field "salt" meta) = Return salt ->
  webauthn_kek libs a salt = Return kek ->
  keyStore w !! ("mk_fido_" +:+ userId) = Some wrapped ->
  crypto_aead_xchacha20poly1305_ietf_decrypt sodium (KeyStore.blob wrapped)
    (Hex.decode (KeyStore.nonce wrapped)) (VBytes kek) = Fail e ->
  fst (unlockWithWebAuthn sodium libs now userId a chall rpID origin w)
  = Return (Fulfilled true)
  /\ JsMap.get userId
       (mkCache
          (snd (unlockWithWebAuthn sodium libs now userId a chall rpID origin
                  w)))
     = Some {| key := VPromise (Rejected (raised e));
               expires := now + 1800000 |}.
Proof.
  intros Hks Hid Hm Hc Hp Hv Hs Hk Hmk Hd.
  rewrite unlockWithWebAuthn_eq, Hks. cbn. rewrite Hm. cbn.
  rewrite Hc, Hp, Hv, Hs, Hk. unfold counted. cbn [keyStore].
  rewrite update_lookup_ne, Hmk, Hd.
  - cbn [fst snd mkCache]. split; [done|]. by rewrite write_get.
  - rewrite Hid. intros H. cbn in H. discriminate.
Qed.

End WebAuthnFacts.
End WebAuthnExtras.

Module WebAuthnExtrasWitness.
Import Core WebAuthn ToyWebAuthn.

(** A good assertion on an enrolled user resolves to [true], and the row
    was verified. *)
Lemma webauthn_acts_only_when_verified_witness :
  exists item meta cid pk c,
    keyStore enrolled !! "fido2_u1_k1" = Some item
    /\ KeyStore.meta item = Some meta
    /\ buffer_from_base64 toy_libs (Json.field "credentialID" meta) = Return cid
    /\ buffer_from_base64 toy_libs (Json.field "credentialPublicKey" meta)
       = Return pk
    /\ verifyAuthenticationResponse toy_libs good_assertion "c-42"
         "https://proxy.example" "proxy.example"
         {| credentialID := cid; credentialPublicKey := pk;
            counter := Json.field "counter" meta |}
       = Return (true, c).
Proof.
  apply (WebAuthnExtras.webauthn_acts_only_when_verified ToySodium.toy
           toy_libs 1000 "u1" good_assertion "c-42" "proxy.example"
           "https://proxy.example" enrolled).
  right. vm_compute. reflexivity.
Defined.

(** The passkey is verified although no master key is wrapped for it: the
    unlock resolves to [false], and the counter went from 7 to 8. *)
Lemma webauthn_counter_stored_once_verified_witness :
  fst (unlockWithWebAuthn ToySodium.toy toy_libs 1000 "u1" good_assertion
         "c-42" "proxy.example" "https://proxy.example" passkey_only)
  = Return (Fulfilled false)
  /\ ((keyStore
         (snd (unlockWithWebAuthn ToySodium.toy toy_libs 1000 "u1"
                 good_assertion "c-42" "proxy.example"
                 "https://proxy.example" passkey_only))
         !! "fido2_u1_k1") ≫= KeyStore.meta) ≫= Json.field "counter"
     = Some (Json.JNumber 8).
Proof.
  split; [vm_compute; reflexivity|].
  edestruct (WebAuthnExtras.webauthn_counter_stored_once_verified
               ToySodium.toy toy_libs 1000 "u1" good_assertion "c-42"
               "proxy.example" "https://proxy.example" passkey_only
               passkey_row) as (H1 & H2 & _);
    [vm_compute; reflexivity | reflexivity | reflexivity | reflexivity
    | reflexivity | vm_compute; reflexivity |].
  cbn zeta in H1.
  change "fido2_u1_k1"
    with ("fido2_" +:+ "u1" +:+ "_" +:+ assertion_id good_assertion).
  rewrite H1. exact H2.
Defined.

(** The derived key does not open the wrapped master key of ["u1"]; the
    unlock resolves to [true] all the same. *)
Lemma webauthn_unlock_unchecked_witness :
  fst (unlockWithWebAuthn ToySodium.toy toy_libs 1000 "u1" good_assertion
         "c-42" "proxy.example" "https://proxy.example" enrolled)
  = Return (Fulfilled true)
  /\ JsMap.get "u1"
       (mkCache
          (snd (unlockWithWebAuthn ToySodium.toy toy_libs 1000 "u1"
                  good_assertion "c-42" "proxy.example"
                  "https://proxy.example" enrolled)))
     = Some {| key := VPromise (Rejected DecryptFailed);
               expires := 1801000 |}.
Proof.
  eapply (WebAuthnExtras.webauthn_unlock_unchecked ToySodium.toy toy_libs
            1000 "u1" good_assertion "c-42" "proxy.example"
            "https://proxy.example" enrolled passkey_row _ _ _ _ _ _
            wrapped_mk_row CannotDecrypt);
    try reflexivity; vm_compute; reflexivity.
Defined.

End WebAuthnExtrasWitness.

Module KeyStoreExtras.
Import Core Calls KeyStoreOps CoreFacts.

Lemma hasMasterKey_true ks k item :
  ks !! k = Some item ->
  like "master_key_%" (KeyStore.type item) = true ->
  hasMasterKey ks = true.
Proof.
  intros Hk Hl. unfold hasMasterKey. apply bool_decide_eq_true.
  set (m := filter _ ks).
  assert (Hm : m !! k = Some item) by (by apply map_lookup_filter_Some).
  destruct (decide (size m = 0%nat)) as [E|E]; [|lia].
  apply map_size_empty_iff in E. rewrite E in Hm. by rewrite lookup_empty in Hm.
Qed.

Lemma hasMasterKey_row ks :
  hasMasterKey ks = true ->
  exists k item,
    ks !! k = Some item /\ like "master_key_%" (KeyStore.type item) = true.
Proof.
  unfold hasMasterKey. intros H. apply bool_decide_eq_true in H.
  set (m := filter _ ks) in H.
  destruct (map_choose m) as (k & item & Hm).
  { intros E. rewrite E, map_size_empty in H. lia. }
  apply map_lookup_filter_Some in Hm as [H1 H2]. eauto.
Qed.

Section Runs.
Variable sodium : Sodium.

Lemma perform_keeps_rows c w k item :
  keyStore w !! k = Some item ->
  keyStore (snd (perform sodium c w)) !! k = Some item.
Proof.
  intros Hk. destruct c as [now userId pin | userId pin | now userId];
    cbn [perform].
  - destruct (unlockWithPin sodium now userId pin w) as [r w'] eqn:E.
    cbn [snd].
    replace w' with (snd (unlockWithPin sodium now userId pin w))
      by (by rewrite E).
    by rewrite UnlockClaims.unlockWithPin_keyStore.
  - destruct (setPin sodium userId pin w) as [r w'] eqn:E. cbn [snd].
    replace w' with (snd (setPin sodium userId pin w)) by (by rewrite E).
    by apply SetupExtras.setPin_keeps_rows.
  - destruct (getDecryptedDek sodium now userId w) as [r w'] eqn:E.
    cbn [snd].
    replace w' with (snd (getDecryptedDek sodium now userId w))
      by (by rewrite E).
    by rewrite (proj1 (UnlockClaims.getDecryptedDek_frame sodium now userId w)).
Qed.

(** X15: the repository's master-key test sees what [setPin] wrote.  After a
    [setPin] that resolved, [hasMasterKey()] is [true], and it stays [true]
    through any later calls of [setPin], [unlockWithPin] and
    [getDecryptedDek]: none of them removes or retypes a row. *)
Theorem hasMasterKey_after_setPin userId pin w w' cs :
  setPin sodium userId pin w = (Return (Fulfilled tt), w') ->
  hasMasterKey (keyStore w') = true
  /\ hasMasterKey (keyStore (run_calls sodium cs w')) = true.
Proof.
  intros Hset.
  assert (H0 : hasMasterKey (keyStore w') = true).
  { apply SetupExtras.setPin_fulfilled in Hset. cbn zeta in Hset.
    destruct Hset as (? & ? & ? & _ & _ & _ & _ & _ & Hks & _).
    eapply hasMasterKey_true.
    - rewrite Hks. apply lookup_insert_eq.
    - reflexivity. }
  split; [exact H0|].
  clear Hset. revert w' H0. induction cs as [|c cs IH]; intros w' H0.
  - exact H0.
  - cbn [run_calls fold_left].
    apply (IH (snd (perform sodium c w'))).
    apply hasMasterKey_row in H0 as (k & item & Hk & Hl).
    eapply hasMasterKey_true; [|exact Hl].
    by apply perform_keeps_rows.
Qed.

(** X25: unlocking and reading never write the key store.  After any
    sequence of [unlockWithPin] and [getDecryptedDek] calls (right or wrong
    PINs, known or unknown users, locked out or not) the key store is what it
    was: only [setPin] writes to it. *)
Theorem unlock_calls_leave_key_store cs : forall w,
  Forall (fun c => forall u p, c <> SetPin u p) cs ->
  keyStore (run_calls sodium cs w) = keyStore w.
Proof.
  induction cs as [|c cs IH]; intros w Hall; [done|].
  apply Forall_cons in Hall as [Hc Hall].
  cbn [run_calls fold_left].
  change (fold_left _ cs ?w0) with (run_calls sodium cs w0).
  rewrite IH by done.
  destruct c as [now userId pin | userId pin | now userId]; cbn [perform].
  - destruct (unlockWithPin sodium now userId pin w) as [r w'] eqn:E.
    cbn [snd].
    replace w' with (snd (unlockWithPin sodium now userId pin w))
      by (by rewrite E).
    apply UnlockClaims.unlockWithPin_keyStore.
  - by destruct (Hc userId pin).
  - destruct (getDecryptedDek sodium now userId w) as [r w'] eqn:E.
    cbn [snd].
    replace w' with (snd (getDecryptedDek sodium now userId w))
      by (by rewrite E).
    apply (UnlockClaims.getDecryptedDek_frame sodium now userId w).
Qed.

End Runs.
End KeyStoreExtras.

Module KeyStoreExtrasWitness.
Import Core Calls Scenarios KeyStoreOps.

(** An empty key store has no master key; after [setPin("u1", "1234")] it
    has one, and still has after a wrong PIN and a second [setPin]. *)
Lemma hasMasterKey_after_setPin_witness :
  hasMasterKey ∅ = false
  /\ hasMasterKey (keyStore provisioned) = true
  /\ hasMasterKey
       (keyStore
          (run_calls ToySodium.toy
             [UnlockWithPin 1000 "u1" "0000"; SetPin "u1" "9999"] provisioned))
     = true.
Proof.
  split; [vm_compute; reflexivity|].
  apply (KeyStoreExtras.hasMasterKey_after_setPin ToySodium.toy "u1" "1234"
           (init ∅) provisioned).
  vm_compute. reflexivity.
Defined.

(** Six wrong PINs and a read leave the two rows of ["u1"] as [setPin]
    wrote them. *)
Lemma unlock_calls_leave_key_store_witness :
  keyStore
    (run_calls ToySodium.toy (six_wrong_pins ++ [GetDecryptedDek 7000 "u1"])
       provisioned)
  = keyStore provisioned.
Proof.
  apply KeyStoreExtras.unlock_calls_leave_key_store.
  unfold six_wrong_pins. cbn [map app].
  repeat (apply Forall_cons; split; [discriminate|]).
  apply Forall_nil. exact I.
Defined.

End KeyStoreExtrasWitness.

Module SessionExtras.
Import Api SessionStore.

Lemma append_cons c (s t : string) : String c s +:+ t = String c (s +:+ t).
Proof. reflexivity. Qed.

Lemma append_nil (t : string) : EmptyString +:+ t = t.
Proof. reflexivity. Qed.

Lemma until_semicolon_app v rest :
  until_semicolon v = v ->
  rest = EmptyString \/ (exists r, rest = String ";" r) ->
  until_semicolon (v +:+ rest) = v.
Proof.
  intros Hv Hrest. induction v as [|c v IH].
  - rewrite append_nil. destruct Hrest as [->|[r ->]]; reflexivity.
  - rewrite append_cons. cbn [until_semicolon] in *.
    destruct (Ascii.eqb c ";"); [discriminate|].
    f_equal. apply IH. congruence.
Qed.

Lemma strip_prefix_app p : forall s t,
  (String.length p <= String.length s)%nat ->
  strip_prefix p (s +:+ t) = (fun r => r +:+ t) <$> strip_prefix p s.
Proof.
  induction p as [|a p IH]; intros s t Hlen; [done|].
  destruct s as [|b s]; [cbn in Hlen; lia|].
  rewrite append_cons. cbn [strip_prefix].
  destruct (Ascii.eqb a b); [|done]. apply IH. cbn in Hlen. lia.
Qed.

Lemma length_append (s t : string) :
  String.length (s +:+ t) = (String.length s + String.length t)%nat.
Proof.
  induction s as [|c s IH]; [done|].
  rewrite append_cons. cbn [String.length]. by rewrite IH.
Qed.

Lemma append_assoc (s t u : string) : (s +:+ t) +:+ u = s +:+ (t +:+ u).
Proof.
  induction s as [|c s IH]; [done|]. rewrite !append_cons. by rewrite IH.
Qed.

Lemma match_session_id_eq cookie :
  match_session_id cookie
  = match
      match strip_prefix "session_id=" cookie with
      | Some tl =>
          match until_semicolon tl with
          | EmptyString => None
          | v => Some v
          end
      | None => None
      end
    with
    | Some v => Some v
    | None =>
        match cookie with
        | EmptyString => None
        | String _ rest => match_session_id rest
        end
    end.
Proof. destruct cookie; reflexivity. Qed.

(** The leftmost match is the one after [pre]. *)
Lemma match_session_id_found pre v rest :
  first_at_end pre = true ->
  v <> EmptyString ->
  until_semicolon v = v ->
  rest = EmptyString \/ (exists r, rest = String ";" r) ->
  match_session_id (pre +:+ "session_id=" +:+ v +:+ rest) = Some v.
Proof.
  intros Hpre Hv Hsemi Hrest. induction pre as [|c pre IH].
  - rewrite match_session_id_eq.
    change (strip_prefix "session_id=" ("" +:+ "session_id=" +:+ v +:+ rest))
      with (Some (v +:+ rest)).
    cbv beta iota. rewrite until_semicolon_app by done. by destruct v.
  - rewrite match_session_id_eq.
    cbn [first_at_end] in Hpre.
    destruct (strip_prefix "session_id=" (String c pre +:+ "session_id="))
      eqn:E; [discriminate|].
    replace (String c pre +:+ "session_id=" +:+ v +:+ rest)
      with ((String c pre +:+ "session_id=") +:+ (v +:+ rest))
      by (by rewrite append_assoc).
    rewrite strip_prefix_app, E by (rewrite length_append; cbn; lia).
    cbn [fmap option_fmap option_map]. cbv beta iota.
    rewrite !append_cons, append_assoc. by apply IH.
Qed.

(** The session that [getSession] finds for the cookie of a saved
    session. *)
Lemma getSession_saved uuid session w pre rest req :
  uuid <> EmptyString ->
  until_semicolon uuid = uuid ->
  first_at_end pre = true ->
  rest = EmptyString \/ (exists r, rest = String ";" r) ->
  Http.headers_get req "cookie"
  = Some (pre +:+ cookie_pair (fst (fst (saveSession uuid session w)))
            +:+ rest) ->
  getSessionId req = Some uuid.
Proof.
  intros Hne Hsemi Hpre Hrest Hcookie.
  assert (Hpair : cookie_pair (fst (fst (saveSession uuid session w)))
                  = "session_id=" +:+ uuid).
  { unfold cookie_pair, saveSession, set_cookie. cbn [fst].
    change (until_semicolon
              ("session_id=" +:+ uuid +:+ "; HttpOnly; Path=/; SameSite=Lax"))
      with ("session_id="
            +:+ until_semicolon
                  (uuid +:+ "; HttpOnly; Path=/; SameSite=Lax")).
    rewrite until_semicolon_app; eauto. }
  rewrite Hpair, append_assoc in Hcookie.
  unfold getSessionId. rewrite Hcookie.
  assert (Ht : Http.truthy_str
                 (Some (pre +:+ "session_id=" +:+ uuid +:+ rest)) = true).
  { destruct pre; reflexivity. }
  by rewrite Ht, match_session_id_found.
Qed.

(** X16: a saved session is found again.  After [saveSession], a request
    whose [Cookie] header carries the pair of the [Set-Cookie] header (the
    session id being a non-empty text without [';'], as a UUID is), after
    other cookies that do not contain the text ["session_id="] and before any
    further cookies, gets the saved session object from [getSession].
    Sessions saved before under other ids are all still there. *)
Theorem saved_session_is_found uuid session w pre rest req :
  uuid <> EmptyString ->
  until_semicolon uuid = uuid ->
  first_at_end pre = true ->
  rest = EmptyString \/ (exists r, rest = String ";" r) ->
  Http.headers_get req "cookie"
  = Some (pre +:+ cookie_pair (fst (fst (saveSession uuid session w)))
            +:+ rest) ->
  snd (fst (saveSession uuid session w)) = uuid
  /\ getSession req (snd (saveSession uuid session w)) = session
  /\ forall other,
       other <> uuid ->
       sessions (snd (saveSession uuid session w)) !! other
       = sessions w !! other.
Proof.
  intros Hne Hsemi Hpre Hrest Hcookie.
  split; [done|]. split.
  - unfold getSession.
    rewrite (getSession_saved uuid session w pre rest req) by done.
    cbn. by rewrite lookup_insert_eq.
  - intros other Ho. cbn. by rewrite lookup_insert_ne.
Qed.

(** X24: what a saved session opens.  For a request that carries the cookie
    of a saved session (as in X16), at any later clock reading: [requireAuth]
    lets it through when the session has a non-empty [userId] and throws
    [Unauthorized] when it has none; [requireFreshWebAuthn] lets it through
    up to five minutes after the session's [lastUVAt] and throws [Forbidden]
    after that. *)
Theorem saved_session_passes_gates uuid session w pre rest req handler now :
  uuid <> EmptyString ->
  until_semicolon uuid = uuid ->
  first_at_end pre = true ->
  rest = EmptyString \/ (exists r, rest = String ";" r) ->
  Http.headers_get req "cookie"
  = Some (pre +:+ cookie_pair (fst (fst (saveSession uuid session w)))
            +:+ rest) ->
  let w' := ApiRouter.at_clock now (snd (saveSession uuid session w)) in
  (forall u, userId session = Some u -> u <> EmptyString ->
             requireAuth handler req w' = handler req w')
  /\ (userId session = None ->
      requireAuth handler req w'
      = (Throw (Unauthorized "Authentication required."), w'))
  /\ (forall t, lastUVAt session = Some t -> t <> 0 -> now - t <= 300000 ->
                requireFreshWebAuthn handler req w' = handler req w')
  /\ (forall t, lastUVAt session = Some t -> 300000 < now - t ->
                requireFreshWebAuthn handler req w'
                = (Throw (Forbidden
                     "Fresh WebAuthn authentication required."), w')).
Proof.
  intros Hne Hsemi Hpre Hrest Hcookie w'.
  assert (Hs : getSession req w' = session).
  { unfold getSession.
    rewrite (getSession_saved uuid session w pre rest req) by done.
    cbn. by rewrite lookup_insert_eq. }
  unfold requireAuth, requireFreshWebAuthn. rewrite Hs.
  repeat split.
  - intros u -> Hu. by destruct u.
  - by intros ->.
  - intros t Ht H0 Hle. unfold stale, not_lastUVAt. rewrite Ht.
    assert (E1 : (t =? 0) = false) by (by apply Z.eqb_neq).
    assert (E2 : (FRESH_WEBAUTHN_TTL <? clock w' - t) = false).
    { apply Z.ltb_ge. unfold FRESH_WEBAUTHN_TTL.
      cbn [clock w' ApiRouter.at_clock]. lia. }
    by rewrite E1, E2.
  - intros t Ht Hlt. unfold stale, not_lastUVAt. rewrite Ht.
    assert (E2 : (FRESH_WEBAUTHN_TTL <? clock w' - t) = true).
    { apply Z.ltb_lt. unfold FRESH_WEBAUTHN_TTL.
      cbn [clock w' ApiRouter.at_clock]. lia. }
    rewrite E2. by rewrite orb_true_r.
Qed.

End SessionExtras.

Module SessionExtrasWitness.
Import Api SessionStore Samples.

(** A session saved under a UUID, read back from a header with three
    cookies. *)
Lemma saved_session_is_found_witness :
  getSession
    (request_of
       [("cookie",
         "theme=dark; session_id=1b4e28ba-2fa1-41d2-883f-0016d3cca427; l=en")])
    (snd (saveSession "1b4e28ba-2fa1-41d2-883f-0016d3cca427"
            {| userId := Some "u1"; challenge := None;
               lastUVAt := Some 1700000000000 |}
            (verified_world 1700000000000 false)))
  = {| userId := Some "u1"; challenge := None;
       lastUVAt := Some 1700000000000 |}.
Proof.
  apply (SessionExtras.saved_session_is_found
           "1b4e28ba-2fa1-41d2-883f-0016d3cca427" _ _ "theme=dark; " "; l=en").
  - discriminate.
  - vm_compute. reflexivity.
  - vm_compute. reflexivity.
  - right. eexists. reflexivity.
  - vm_compute. reflexivity.
Defined.

(** The same session two minutes later: both gates let the request
    through. *)
Lemma saved_session_passes_gates_witness :
  requireAuth ok_handler
    (request_of
       [("cookie", "session_id=1b4e28ba-2fa1-41d2-883f-0016d3cca427")])
    (ApiRouter.at_clock 1700000120000
       (snd (saveSession "1b4e28ba-2fa1-41d2-883f-0016d3cca427"
               {| userId := Some "u1"; challenge := None;
                  lastUVAt := Some 1700000000000 |}
               (verified_world 1700000000000 false))))
  = (Return {| Http.status := 200; Http.payload := "OK" |},
     ApiRouter.at_clock 1700000120000
       (snd (saveSession "1b4e28ba-2fa1-41d2-883f-0016d3cca427"
               {| userId := Some "u1"; challenge := None;
                  lastUVAt := Some 1700000000000 |}
               (verified_world 1700000000000 false)))).
Proof.
  edestruct (SessionExtras.saved_session_passes_gates
               "1b4e28ba-2fa1-41d2-883f-0016d3cca427"
               {| userId := Some "u1"; challenge := None;
                  lastUVAt := Some 1700000000000 |}
               (verified_world 1700000000000 false) "" ""
               (request_of
                  [("cookie",
                    "session_id=1b4e28ba-2fa1-41d2-883f-0016d3cca427")])
               ok_handler 1700000120000) as (H1 & _).
  - discriminate.
  - vm_compute. reflexivity.
  - vm_compute. reflexivity.
  - left. reflexivity.
  - vm_compute. reflexivity.
  - cbn zeta in H1. rewrite (H1 "u1" eq_refl); [reflexivity | discriminate].
Defined.

End SessionExtrasWitness.

Module ApiRouterExtras.
Import Api ApiRouter RateLimiter RateLimiterSpec.

Section RouterFacts.
Variables unlockPinHandler webauthnChallengeHandler webauthnFinishHandler
          setKillSwitchHandler exportHandler rotateKeyHandler
          decryptHandler : Handler.
Variable plainHandler : string -> Handler.
Variable dynamicHandler : dynamic_route -> Handler.
Variable errorResponse : js_error -> Http.Response.
Variable personalMode : bool.

Abbreviation gated :=
  (Router.registerHandlers unlockPinHandler webauthnChallengeHandler
     webauthnFinishHandler setKillSwitchHandler exportHandler
     rotateKeyHandler decryptHandler).
Abbreviation table :=
  (handlers unlockPinHandler webauthnChallengeHandler webauthnFinishHandler
     setKillSwitchHandler exportHandler rotateKeyHandler decryptHandler
     plainHandler personalMode).
Abbreviation handle :=
  (handleRequest unlockPinHandler webauthnChallengeHandler
     webauthnFinishHandler setKillSwitchHandler exportHandler
     rotateKeyHandler decryptHandler plainHandler dynamicHandler
     errorResponse personalMode).

Lemma lookup_foldl_insert (l : list string) :
  forall (h : gmap string Handler) k,
  foldl (fun h k => <[k := plainHandler k]> h) h l !! k
  = if decide (k ∈ l) then Some (plainHandler k) else h !! k.
Proof.
  induction l as [|x l IH]; intros h k; cbn [foldl].
  - rewrite decide_False by apply not_elem_of_nil. done.
  - rewrite IH. destruct (decide (k ∈ l)) as [Hin|Hnin].
    + rewrite decide_True by (by right). done.
    + destruct (decide (k = x)) as [->|Hne].
      * rewrite decide_True by (by left). apply lookup_insert_eq.
      * rewrite decide_False by (rewrite elem_of_cons; tauto).
        by apply lookup_insert_ne.
Qed.

(** Where a route key is looked up. *)
Lemma table_lookup k :
  table !! k
  = if decide (k ∈ personal_routes) then
      if personalMode then Some (plainHandler k)
      else match gated !! k with
           | Some h => Some h
           | None =>
               if decide (k ∈ plain_routes) then Some (plainHandler k)
               else None
           end
    else match gated !! k with
         | Some h => Some h
         | None =>
             if decide (k ∈ plain_routes) then Some (plainHandler k)
             else None
         end.
Proof.
  unfold handlers.
  assert (H : (gated ∪ foldl (fun h k => <[k := plainHandler k]> h) ∅
                         plain_routes) !! k
              = match gated !! k with
                | Some h => Some h
                | None =>
                    if decide (k ∈ plain_routes) then Some (plainHandler k)
                    else None
                end).
  { rewrite lookup_union, lookup_foldl_insert, lookup_empty.
    destruct (gated !! k); [|by destruct (decide _)].
    by destruct (decide _). }
  destruct personalMode.
  - rewrite lookup_foldl_insert, H.
    by destruct (decide (k ∈ personal_routes)).
  - rewrite H. by destruct (decide (k ∈ personal_routes)).
Qed.

Ltac not_in_routes :=
  let H := fresh in
  intros H;
  repeat (apply elem_of_cons in H as [H|H]; [cbn in H; simplify_eq|]);
  by apply elem_of_nil in H.

(** An exact route behind a gate goes through the request-id middleware and
    [wrapHandler]. *)
Lemma handle_gated uuid method path h req w :
  gated !! (method +:+ ":" +:+ path) = Some h ->
  (method +:+ ":" +:+ path) ∉ personal_routes ->
  handle uuid method path req w
  = Some (wrapHandler errorResponse (withRequestId uuid h) req w).
Proof.
  intros Hg Hp. unfold handleRequest.
  by rewrite table_lookup, decide_False, Hg.
Qed.


(** The request-id header leaves the cookie and the client address
    alone. *)
Lemma request_id_transparent uuid req w :
  getSession (request_id uuid req) w = getSession req w
  /\ client_key (request_id uuid req) = client_key req.
Proof.
  unfold request_id. destruct (Http.headers req !! "x-request-id"); [done|].
  unfold getSession, getSessionId, client_key, Http.headers_get.
  cbn [Http.headers]. by rewrite !lookup_insert_ne by discriminate.
Qed.


(** The three gates of [GET /export], in order. *)
Lemma export_gate uuid req w :
  killSwitch w = false ->
  handle uuid "GET" "/export" req w
  = Some
      (let w' :=
         set_limiter ExportLimiter
           (snd (limit (clock w) (client_key req) (exportRateLimiter w)))
           w in
       if fst (limit (clock w) (client_key req) (exportRateLimiter w))
       then (errorResponse (TooManyRequests
               "Too many requests, please try again later."), w')
       else if stale (getSession req w) (clock w)
       then (errorResponse (Forbidden
               "Fresh WebAuthn authentication required."), w')
       else wrapHandler errorResponse exportHandler (request_id uuid req)
              w').
Proof.
  intros Hkill.
  rewrite (handle_gated uuid "GET" "/export"
             (Router.withKillSwitch
                (Router.withExportRateLimit
                   (requireFreshWebAuthn exportHandler)))).
  - destruct (request_id_transparent uuid req w) as [Hs Hk].
    f_equal. unfold wrapHandler at 1. unfold withRequestId.
    unfold Router.withKillSwitch, createKillSwitchMiddleware.
    rewrite Hkill.
    unfold Router.withExportRateLimit, createRateLimitMiddleware.
    rewrite Hk. cbn [get_limiter].
    destruct (limit (clock w) (client_key req) (exportRateLimiter w))
      as [[] rl]; cbn [fst snd]; [done|].
    unfold requireFreshWebAuthn.
    replace (getSession (request_id uuid req)
               (set_limiter ExportLimiter rl w))
      with (getSession req w) by (by rewrite <- Hs).
    cbn [set_limiter clock].
    by destruct (stale (getSession req w) (clock w)).
  - unfold Router.registerHandlers. cbn zeta.
    rewrite !lookup_insert_ne by discriminate. apply lookup_insert_eq.
  - not_in_routes.
Qed.

(** A request to [GET /export] that is over the limit, or has no fresh
    WebAuthn session, is refused after the limiter counted it. *)
Lemma export_refused uuid req w rl over :
  killSwitch w = false ->
  limit (clock w) (client_key req) (exportRateLimiter w) = (over, rl) ->
  over = true \/ stale (getSession req w) (clock w) = true ->
  handle uuid "GET" "/export" req w
  = Some (errorResponse
            (if over
             then TooManyRequests "Too many requests, please try again later."
             else Forbidden "Fresh WebAuthn authentication required."),
          set_limiter ExportLimiter rl w).
Proof.
  intros Hkill Hl Hor.
  rewrite (export_gate uuid req w Hkill), Hl. cbn [fst snd]. cbv zeta.
  destruct over; [done|]. destruct Hor as [?|Hs]; [done|]. by rewrite Hs.
Qed.

(** X18: on [GET /export] the rate limiter counts a request before its
    session is looked at.  Two requests without fresh WebAuthn from one
    address are each answered [Forbidden], and they use up the address's
    quota of two: a third request from the address within the minute is
    answered [TooManyRequests], whatever its session, and [exportHandler] is
    not called. *)
Theorem stale_requests_spend_export_quota uuid1 uuid2 uuid3 r1 r2 r3 w t2 t3 :
  killSwitch w = false ->
  maxRequests (exportRateLimiter w) = 2 ->
  windowMs (exportRateLimiter w) = 60000 ->
  store (exportRateLimiter w) !! client_key r1 = None ->
  client_key r2 = client_key r1 ->
  client_key r3 = client_key r1 ->
  stale (getSession r1 w) (clock w) = true ->
  stale (getSession r2 w) t2 = true ->
  clock w <= t2 <= t3 ->
  t3 <= clock w + 60000 ->
  exists w1 w2 w3,
    handleRequest unlockPinHandler webauthnChallengeHandler
      webauthnFinishHandler setKillSwitchHandler exportHandler
      rotateKeyHandler decryptHandler plainHandler dynamicHandler
      errorResponse personalMode uuid1 "GET" "/export" r1 w
    = Some (errorResponse (Forbidden
              "Fresh WebAuthn authentication required."), w1)
    /\ handleRequest unlockPinHandler webauthnChallengeHandler
         webauthnFinishHandler setKillSwitchHandler exportHandler
         rotateKeyHandler decryptHandler plainHandler dynamicHandler
         errorResponse personalMode uuid2 "GET" "/export" r2
         (at_clock t2 w1)
       = Some (errorResponse (Forbidden
                 "Fresh WebAuthn authentication required."), w2)
    /\ handleRequest unlockPinHandler webauthnChallengeHandler
         webauthnFinishHandler setKillSwitchHandler exportHandler
         rotateKeyHandler decryptHandler plainHandler dynamicHandler
         errorResponse personalMode uuid3 "GET" "/export" r3
         (at_clock t3 w2)
       = Some (errorResponse (TooManyRequests
                 "Too many requests, please try again later."), w3).
Proof.
  intros Hkill Hmax Hwin Hstore Hk2 Hk3 Hs1 Hs2 Ht Ht3.
  set (ip := client_key r1) in *.
  set (rl0 := exportRateLimiter w) in *.
  pose (rl1 := {| store := <[ip := {| count := 1; startTime := clock w |}]>
                             (store rl0);
                  maxRequests := maxRequests rl0;
                  windowMs := windowMs rl0 |}).
  pose (rl2 := {| store := <[ip := {| count := 1 + 1;
                                      startTime := clock w |}]> (store rl1);
                  maxRequests := maxRequests rl1;
                  windowMs := windowMs rl1 |}).
  pose (rl3 := {| store := <[ip := {| count := 2 + 1;
                                      startTime := clock w |}]> (store rl2);
                  maxRequests := maxRequests rl2;
                  windowMs := windowMs rl2 |}).
  assert (L1 : limit (clock w) ip rl0 = (false, rl1)).
  { rewrite limit_opens by (by left). f_equal. by rewrite Hmax. }
  assert (L2 : limit t2 ip rl1 = (false, rl2)).
  { rewrite (limit_counts _ _ _ {| count := 1; startTime := clock w |});
      [|by apply lookup_insert_eq | cbn; lia].
    f_equal. cbn [count maxRequests rl1]. by rewrite Hmax. }
  assert (L3 : limit t3 ip rl2 = (true, rl3)).
  { rewrite (limit_counts _ _ _ {| count := 2; startTime := clock w |});
      [|by apply lookup_insert_eq | cbn; lia].
    f_equal. cbn [count maxRequests rl1 rl2]. by rewrite Hmax. }
  exists (set_limiter ExportLimiter rl1 w).
  exists (set_limiter ExportLimiter rl2
            (at_clock t2 (set_limiter ExportLimiter rl1 w))).
  exists (set_limiter ExportLimiter rl3
            (at_clock t3
               (set_limiter ExportLimiter rl2
                  (at_clock t2 (set_limiter ExportLimiter rl1 w))))).
  split; [|split].
  - apply (export_refused uuid1 r1 w rl1 false Hkill L1). by right.
  - apply (export_refused uuid2 r2
             (at_clock t2 (set_limiter ExportLimiter rl1 w)) rl2 false).
    + exact Hkill.
    + rewrite Hk2. exact L2.
    + right. exact Hs2.
  - apply (export_refused uuid3 r3
             (at_clock t3
                (set_limiter ExportLimiter rl2
                   (at_clock t2 (set_limiter ExportLimiter rl1 w))))
             rl3 true).
    + exact Hkill.
    + rewrite Hk3. exact L3.
    + by left.
Qed.

(** An unlock route: the kill switch, then the shared unlock limiter, then
    the route's handler. *)
Lemma unlock_gate uuid method path req w :
  (method, path) ∈ unlock_endpoints ->
  killSwitch w = false ->
  exists h,
    h ∈ [unlockPinHandler; webauthnChallengeHandler; webauthnFinishHandler]
    /\ handle uuid method path req w
       = Some
           (let w' :=
              set_limiter UnlockLimiter
                (snd (limit (clock w) (client_key req) (unlockRateLimiter w)))
                w in
            if fst (limit (clock w) (client_key req) (unlockRateLimiter w))
            then (errorResponse (TooManyRequests
                    "Too many requests, please try again later."), w')
            else wrapHandler errorResponse h (request_id uuid req) w').
Proof.
  intros Hin Hkill. unfold unlock_endpoints in Hin.
  destruct (request_id_transparent uuid req w) as [_ Hk].
  repeat (apply elem_of_cons in Hin as [Hin|Hin];
          [injection Hin as -> ->;
           eexists; split;
           [|erewrite handle_gated;
             [|unfold Router.registerHandlers; cbn zeta;
               rewrite ?lookup_insert_ne by discriminate;
               apply lookup_insert_eq
              |not_in_routes];
             f_equal; unfold wrapHandler at 1; unfold withRequestId;
             unfold Router.withKillSwitch, createKillSwitchMiddleware;
             rewrite Hkill;
             unfold Router.withUnlockRateLimit, createRateLimitMiddleware;
             rewrite Hk; cbn [get_limiter];
             destruct (limit (clock w) (client_key req)
                         (unlockRateLimiter w)) as [[] rl];
             cbn [fst snd]; reflexivity];
           by repeat constructor|]).
  by apply elem_of_nil in Hin.
Qed.

Lemma unlock_step uuid method path req w ip c t0 :
  keeps_gates unlockPinHandler ->
  keeps_gates webauthnChallengeHandler ->
  keeps_gates webauthnFinishHandler ->
  (method, path) ∈ unlock_endpoints ->
  client_key req = ip ->
  counted_unlocks ip c t0 w ->
  clock w <= t0 + 60000 ->
  exists res w',
    handle uuid method path req w = Some (res, w')
    /\ counted_unlocks ip (c + 1) t0 w'
    /\ (5 <= c ->
        res = errorResponse (TooManyRequests
                "Too many requests, please try again later.")).
Proof.
  intros K1 K2 K3 Hin Hip (Hkill & Hmax & Hwin & Hst) Ht.
  destruct (unlock_gate uuid method path req w Hin Hkill) as (h & Hh & E).
  assert (Kh : keeps_gates h).
  { repeat (apply elem_of_cons in Hh as [->|Hh]; [assumption|]).
    by apply elem_of_nil in Hh. }
  rewrite Hip in E.
  rewrite (limit_counts _ _ _ _ Hst) in E
    by (cbn [startTime]; rewrite Hwin; lia).
  cbn [fst snd count startTime] in E. rewrite Hmax in E.
  cbv zeta in E.
  set (w1 := set_limiter UnlockLimiter _ w) in E.
  assert (H1 : counted_unlocks ip (c + 1) t0 w1).
  { unfold counted_unlocks, w1. cbn. rewrite lookup_insert_eq. done. }
  destruct (5 <? c + 1) eqn:Hover.
  - exists (errorResponse (TooManyRequests
              "Too many requests, please try again later.")), w1.
    done.
  - apply Z.ltb_ge in Hover.
    destruct (wrapHandler errorResponse h (request_id uuid req) w1)
      as [res w'] eqn:Ew.
    exists res, w'. split; [done|]. split; [|lia].
    assert (Hw' : w' = snd (h (request_id uuid req) w1)).
    { unfold wrapHandler in Ew.
      destruct (h (request_id uuid req) w1) as [[?|?] ?]; by simplify_eq. }
    destruct (Kh (request_id uuid req) w1) as [Hk Hl].
    destruct H1 as (G1 & G2 & G3 & G4).
    unfold counted_unlocks. rewrite Hw', Hk, Hl. done.
Qed.

Lemma serve_counted rs : forall w ip c t0,
  keeps_gates unlockPinHandler ->
  keeps_gates webauthnChallengeHandler ->
  keeps_gates webauthnFinishHandler ->
  Forall (fun r =>
            (arrival_method r, arrival_path r) ∈ unlock_endpoints
            /\ client_key (arrival_request r) = ip
            /\ arrival_time r <= t0 + 60000) rs ->
  counted_unlocks ip c t0 w ->
  forall i res,
    fst (serve unlockPinHandler webauthnChallengeHandler
           webauthnFinishHandler setKillSwitchHandler exportHandler
           rotateKeyHandler decryptHandler plainHandler dynamicHandler
           errorResponse personalMode rs w) !! i = Some res ->
    5 <= c + Z.of_nat i ->
    res = Some (errorResponse (TooManyRequests
                  "Too many requests, please try again later.")).
Proof.
  induction rs as [|r rs IH]; intros w ip c t0 K1 K2 K3 Hall Hc i res Hi Hge.
  - cbn in Hi. by rewrite lookup_nil in Hi.
  - apply Forall_cons in Hall as [(Hin & Hip & Ht) Hall].
    cbn [serve] in Hi. cbv zeta in Hi.
    assert (Hc' : counted_unlocks ip c t0 (at_clock (arrival_time r) w))
      by exact Hc.
    destruct (unlock_step (arrival_uuid r) (arrival_method r)
                (arrival_path r) (arrival_request r)
                (at_clock (arrival_time r) w) ip c t0 K1 K2 K3 Hin Hip Hc' Ht)
      as (res1 & w1 & E & Hc1 & Hover).
    rewrite E in Hi.
    destruct (serve _ _ _ _ _ _ _ _ _ _ _ rs w1) as [out w2] eqn:Es.
    cbn [fst] in Hi. destruct i as [|i].
    + cbn in Hi. injection Hi as <-. f_equal. apply Hover. lia.
    + cbn in Hi.
      apply (IH w1 ip (c + 1) t0 K1 K2 K3 Hall Hc1 i res); [|lia].
      by rewrite Es.
Qed.

(** X22: the three unlock routes draw on one quota.  [POST /unlock/pin],
    [/unlock/webauthn/challenge] and [/unlock/webauthn/finish] are wrapped
    with the same limiter: of the requests one address sends to these routes,
    in any mix, within a minute of its first one, the sixth and every later
    one is answered [TooManyRequests], whatever the handlers answered before
    (the handlers having no access to the kill switch and the limiter). *)
Theorem unlock_routes_share_one_quota r rs w ip i res :
  keeps_gates unlockPinHandler ->
  keeps_gates webauthnChallengeHandler ->
  keeps_gates webauthnFinishHandler ->
  killSwitch w = false ->
  maxRequests (unlockRateLimiter w) = 5 ->
  windowMs (unlockRateLimiter w) = 60000 ->
  store (unlockRateLimiter w) !! ip = None ->
  Forall (fun r' =>
            (arrival_method r', arrival_path r') ∈ unlock_endpoints
            /\ client_key (arrival_request r') = ip
            /\ arrival_time r' <= arrival_time r + 60000) (r :: rs) ->
  fst (serve unlockPinHandler webauthnChallengeHandler webauthnFinishHandler
         setKillSwitchHandler exportHandler rotateKeyHandler decryptHandler
         plainHandler dynamicHandler errorResponse personalMode (r :: rs) w)
    !! i = Some res ->
  (5 <= i)%nat ->
  res = Some (errorResponse (TooManyRequests
                "Too many requests, please try again later.")).
Proof.
  intros K1 K2 K3 Hkill Hmax Hwin Hst Hall Hi Hge.
  destruct i as [|i]; [lia|].
  apply Forall_cons in Hall as [(Hin & Hip & Ht) Hall].
  cbn [serve] in Hi. cbv zeta in Hi.
  destruct (unlock_gate (arrival_uuid r) (arrival_method r) (arrival_path r)
              (arrival_request r) (at_clock (arrival_time r) w) Hin Hkill)
    as (h & Hh & E).
  assert (Kh : keeps_gates h).
  { repeat (apply elem_of_cons in Hh as [->|Hh]; [assumption|]).
    by apply elem_of_nil in Hh. }
  rewrite Hip in E.
  rewrite (limit_opens _ ip (unlockRateLimiter (at_clock (arrival_time r) w)))
    in E by (by left).
  cbn [fst snd unlockRateLimiter at_clock clock] in E.
  rewrite Hmax in E. change (5 <? 1) with false in E. cbv zeta iota in E.
  set (w1 := set_limiter UnlockLimiter _ _) in E.
  assert (H1 : counted_unlocks ip 1 (arrival_time r) w1).
  { unfold counted_unlocks, w1. cbn. rewrite lookup_insert_eq. done. }
  destruct (wrapHandler errorResponse h
              (request_id (arrival_uuid r) (arrival_request r)) w1)
    as [res1 w'] eqn:Ew.
  assert (Hw' : w' = snd (h (request_id (arrival_uuid r) (arrival_request r))
                            w1)).
  { unfold wrapHandler in Ew.
    destruct (h _ w1) as [[?|?] ?]; by simplify_eq. }
  assert (H2 : counted_unlocks ip 1 (arrival_time r) w').
  { destruct (Kh (request_id (arrival_uuid r) (arrival_request r)) w1)
      as [Hk Hl].
    destruct H1 as (G1 & G2 & G3 & G4).
    unfold counted_unlocks. rewrite Hw', Hk, Hl. done. }
  rewrite E in Hi.
  destruct (serve _ _ _ _ _ _ _ _ _ _ _ rs w') as [out w2] eqn:Es.
  cbn in Hi.
  apply (serve_counted rs w' ip 1 (arrival_time r) K1 K2 K3 Hall H2 i res);
    [by rewrite Es | lia].
Qed.

(** X19: no record can be decrypted through the router.  The decrypting
    handler is registered under the literal key ["GET:/decrypt/:id"], and
    [handleRequest] looks the request up by its exact path: for every id other
    than the text [":id"] itself, [GET /decrypt/<id>] matches no route and
    [handleRequest] returns [null]; the path [/decrypt/:id], taken
    literally, is the one that reaches [decryptHandler]. *)
Theorem decrypt_route_matches_no_id uuid id req w :
  id <> ":id" ->
  handleRequest unlockPinHandler webauthnChallengeHandler
    webauthnFinishHandler setKillSwitchHandler exportHandler rotateKeyHandler
    decryptHandler plainHandler dynamicHandler errorResponse personalMode
    uuid "GET" ("/decrypt/" +:+ id) req w
  = None
  /\ (killSwitch w = false ->
      handleRequest unlockPinHandler webauthnChallengeHandler
        webauthnFinishHandler setKillSwitchHandler exportHandler
        rotateKeyHandler decryptHandler plainHandler dynamicHandler
        errorResponse personalMode uuid "GET" "/decrypt/:id" req w
      = Some (wrapHandler errorResponse decryptHandler (request_id uuid req)
                w)).
Proof.
  intros Hid. split.
  2: { intros Hkill.
       rewrite (handle_gated uuid "GET" "/decrypt/:id"
                  (Router.withKillSwitch decryptHandler)).
       - unfold wrapHandler, withRequestId, Router.withKillSwitch,
           createKillSwitchMiddleware. by rewrite Hkill.
       - unfold Router.registerHandlers. cbn zeta. apply lookup_insert_eq.
       - not_in_routes. }
  unfold handleRequest.
  rewrite table_lookup.
  rewrite decide_False by not_in_routes.
  assert (Hg : gated !! ("GET" +:+ ":" +:+ "/decrypt/" +:+ id) = None).
  { unfold Router.registerHandlers. cbn zeta.
    rewrite !lookup_insert_ne; [apply lookup_empty|..];
      intros H; cbv [String.append] in H; congruence. }
  rewrite Hg, decide_False by not_in_routes.
  reflexivity.
Qed.

End RouterFacts.
End ApiRouterExtras.

Module ApiRouterExtrasWitness.
Import Api ApiRouter Samples.


(** Two requests without a session, then one with a fresh session, all from
    203.0.113.7 within ten seconds. *)
Lemma stale_requests_spend_export_quota_witness :
  exists w1 w2 w3,
    handleRequest ok_handler ok_handler ok_handler ok_handler marking_handler
      ok_handler ok_handler (fun _ => ok_handler) (fun _ => ok_handler)
      (fun e => {| Http.status := 500; Http.payload := "error" |}) true
      "u-1" "GET" "/export"
      (request_of [("x-forwarded-for", "203.0.113.7")])
      (verified_world 1700000120000 false)
    = Some ({| Http.status := 500; Http.payload := "error" |}, w1)
    /\ handleRequest ok_handler ok_handler ok_handler ok_handler
         marking_handler ok_handler ok_handler (fun _ => ok_handler)
         (fun _ => ok_handler)
         (fun e => {| Http.status := 500; Http.payload := "error" |}) true
         "u-2" "GET" "/export"
         (request_of [("x-forwarded-for", "203.0.113.7")])
         (at_clock 1700000125000 w1)
       = Some ({| Http.status := 500; Http.payload := "error" |}, w2)
    /\ handleRequest ok_handler ok_handler ok_handler ok_handler
         marking_handler ok_handler ok_handler (fun _ => ok_handler)
         (fun _ => ok_handler)
         (fun e => {| Http.status := 500; Http.payload := "error" |}) true
         "u-3" "GET" "/export" cookie_request (at_clock 1700000130000 w2)
       = Some ({| Http.status := 500; Http.payload := "error" |}, w3).
Proof.
  apply (ApiRouterExtras.stale_requests_spend_export_quota ok_handler
           ok_handler ok_handler ok_handler marking_handler ok_handler
           ok_handler (fun _ => ok_handler) (fun _ => ok_handler)
           (fun e => {| Http.status := 500; Http.payload := "error" |}) true
           "u-1" "u-2" "u-3"
           (request_of [("x-forwarded-for", "203.0.113.7")])
           (request_of [("x-forwarded-for", "203.0.113.7")])
           cookie_request (verified_world 1700000120000 false)
           1700000125000 1700000130000);
    try (vm_compute; reflexivity); cbn; lia.
Defined.

(** Six unlock requests from 203.0.113.7 within six seconds, over all three
    routes: the sixth is answered with the error response. *)
Lemma unlock_routes_share_one_quota_witness :
  fst (serve ok_handler ok_handler ok_handler ok_handler ok_handler
         ok_handler ok_handler (fun _ => ok_handler) (fun _ => ok_handler)
         (fun e => {| Http.status := 500; Http.payload := "error" |}) true
         six_unlocks (verified_world 1700000120000 false)) !! 5%nat
  = Some (Some {| Http.status := 500; Http.payload := "error" |})
  /\ Some {| Http.status := 500; Http.payload := "error" |}
     = Some ((fun e => {| Http.status := 500; Http.payload := "error" |})
               (TooManyRequests "Too many requests, please try again later.")).
Proof.
  assert (H : fst (serve ok_handler ok_handler ok_handler ok_handler
                     ok_handler ok_handler ok_handler (fun _ => ok_handler)
                     (fun _ => ok_handler)
                     (fun e => {| Http.status := 500;
                                  Http.payload := "error" |}) true
                     six_unlocks (verified_world 1700000120000 false))
                !! 5%nat
              = Some (Some {| Http.status := 500; Http.payload := "error" |}))
    by (vm_compute; reflexivity).
  split; [exact H|].
  refine (ApiRouterExtras.unlock_routes_share_one_quota ok_handler ok_handler
            ok_handler ok_handler ok_handler ok_handler ok_handler
            (fun _ => ok_handler) (fun _ => ok_handler)
            (fun e => {| Http.status := 500; Http.payload := "error" |}) true
            (unlock_arrival 0 "/unlock/pin")
            five_more_unlocks (verified_world 1700000120000 false)
            "203.0.113.7" 5 _ _ _ _ _ _ _ _ _ H _).
  - intros req w. split; reflexivity.
  - intros req w. split; reflexivity.
  - intros req w. split; reflexivity.
  - reflexivity.
  - reflexivity.
  - reflexivity.
  - vm_compute. reflexivity.
  - unfold five_more_unlocks.
    repeat (apply Forall_cons; split;
            [split;
             [cbn; by repeat constructor
             |split; [vm_compute; reflexivity|cbn; lia]]|]).
    apply Forall_nil. exact I.
  - lia.
Defined.

(** [GET /decrypt/42] matches no route. *)
Lemma decrypt_route_matches_no_id_witness :
  handleRequest ok_handler ok_handler ok_handler ok_handler ok_handler
    ok_handler marking_handler (fun _ => ok_handler) (fun _ => ok_handler)
    (fun e => {| Http.status := 500; Http.payload := "error" |}) true
    "u-1" "GET" "/decrypt/42" cookie_request
    (verified_world 1700000120000 false)
  = None.
Proof.
  apply (ApiRouterExtras.decrypt_route_matches_no_id ok_handler ok_handler
           ok_handler ok_handler ok_handler ok_handler marking_handler
           (fun _ => ok_handler) (fun _ => ok_handler)
           (fun e => {| Http.status := 500; Http.payload := "error" |}) true
           "u-1" "42").
  discriminate.
Defined.

End ApiRouterExtrasWitness.

Module StoreExtras.
Import Core MkCache JsMapFacts MkCacheFacts RateLimiter RateLimiterRuns.

(** X20: writing a user who is already cached into a full cache still
    evicts.  [setMasterKeyInCache] removes the oldest entry whenever the
    cache holds 100 entries, before it looks whether the user has an entry:
    when a cached user other than the oldest unlocks again, the oldest user
    loses the cached key and the cache is left with 99 entries. *)
Theorem cached_user_write_evicts_oldest now userId k k0 e0 rest e :
  100 <= JsMap.size ((k0, e0) :: rest) ->
  NoDup (JsMap.keys ((k0, e0) :: rest)) ->
  userId <> k0 ->
  JsMap.get userId rest = Some e ->
  JsMap.get k0 (write now userId k ((k0, e0) :: rest)) = None
  /\ JsMap.get userId (write now userId k ((k0, e0) :: rest))
     = Some {| key := k; expires := now + 1800000 |}
  /\ JsMap.size (write now userId k ((k0, e0) :: rest))
     = JsMap.size ((k0, e0) :: rest) - 1.
Proof.
  intros Hfull Hnd Hne Hget.
  assert (Hw : write now userId k ((k0, e0) :: rest)
               = JsMap.set userId
                   {| key := k; expires := now + mkCacheTTL |} rest).
  { unfold write.
    assert (Hs : (100 <=? JsMap.size ((k0, e0) :: rest)) = true)
      by (by apply Z.leb_le).
    rewrite Hs. cbn [JsMap.first_key JsMap.delete].
    by rewrite decide_True. }
  rewrite Hw. split; [|split].
  - rewrite get_set_ne by done.
    apply get_None_keys. cbn in Hnd. by apply NoDup_cons in Hnd as [? _].
  - apply get_set_eq.
  - unfold JsMap.size. rewrite set_present_length by congruence.
    cbn [length]. lia.
Qed.

Lemma run_store_dom evs : forall rl,
  dom (store (snd (run evs rl)))
  = dom (store rl) ∪ list_to_set (map snd evs).
Proof.
  induction evs as [|[now key] evs IH]; intros rl.
  - cbn. by rewrite (right_id_L ∅ (∪)).
  - cbn [run map list_to_set snd].
    destruct (limit now key rl) as [over rl1] eqn:E.
    specialize (IH rl1). destruct (run evs rl1) as [ds rl2]. cbn [snd] in *.
    rewrite IH.
    replace rl1 with (snd (limit now key rl)) by (by rewrite E).
    cbn [limit snd store]. rewrite dom_insert_L.
    by rewrite (comm_L (∪) {[key]}), (assoc_L (∪)).
Qed.

(** X21: the rate limiter never forgets a client.  After any sequence of
    requests the store holds a record for every key it held before and for
    every key that made a request: [limit] only ever adds or replaces
    records, so the store grows with the number of distinct addresses
    seen. *)
Theorem limiter_store_only_grows evs rl :
  dom (store (snd (run evs rl)))
  = dom (store rl) ∪ list_to_set (map snd evs)
  /\ (size (store rl) <= size (store (snd (run evs rl))))%nat.
Proof.
  split; [apply run_store_dom|].
  rewrite <- !size_dom. apply subseteq_size.
  rewrite run_store_dom. apply union_subseteq_l.
Qed.

Lemma final_expiry_cons expiry t ts :
  CacheUse.final_expiry expiry (t :: ts)
  = CacheUse.final_expiry (t + mkCacheTTL) ts.
Proof.
  unfold CacheUse.final_expiry. destruct ts as [|t' ts]; [reflexivity|].
  change (last (t :: t' :: ts)) with (last (t' :: ts)).
  destruct (last (t' :: ts)) eqn:E; [reflexivity|].
  by apply last_None in E.
Qed.

(** X23: a cached master key has no maximum lifetime.  Every
    [getDecryptedDek] that finds the entry before its expiry moves the expiry
    to 30 minutes after the call: as long as each call comes before the
    expiry set by the one before, the entry stays in the cache with the key
    it was written with, however long ago the unlock was. *)
Theorem cached_key_lives_while_used sodium userId ts : forall w e,
  JsMap.get userId (mkCache w) = Some e ->
  CacheUse.each_before_expiry (expires e) ts ->
  JsMap.get userId
    (mkCache
       (run_calls sodium (map (fun t => Calls.GetDecryptedDek t userId) ts)
          w))
  = Some {| key := key e; expires := CacheUse.final_expiry (expires e) ts |}.
Proof.
  induction ts as [|t ts IH]; intros w e Hget Hts.
  - cbn. rewrite Hget. by destruct e.
  - destruct Hts as [Ht Hts].
    cbn [map run_calls fold_left]. rewrite final_expiry_cons.
    change (fold_left _ ?cs ?w0) with (run_calls sodium cs w0).
    set (w1 := snd (Calls.perform sodium (Calls.GetDecryptedDek t userId) w)).
    assert (H1 : mkCache w1 = snd (read t userId (mkCache w))).
    { unfold w1. cbn [Calls.perform].
      rewrite CoreFacts.getDecryptedDek_eq. cbn zeta.
      destruct (fst (read t userId (mkCache w))); [|done].
      by destruct (keyStore w !! _). }
    assert (H2 : JsMap.get userId (mkCache w1)
                 = Some {| key := key e; expires := t + mkCacheTTL |}).
    { rewrite H1, (read_hit _ _ _ _ Hget Ht). cbn [snd]. apply get_set_eq. }
    apply (IH w1 _ H2). exact Hts.
Qed.

End StoreExtras.

Module StoreExtrasWitness.
Import Core MkCache FullCache.

(** In a full cache, [user 5] unlocks again: [user 0] is evicted. *)
Lemma cached_user_write_evicts_oldest_witness :
  JsMap.get (user 0) (write 1000 (user 5) (VBytes []) full) = None
  /\ JsMap.get (user 5) (write 1000 (user 5) (VBytes []) full)
     = Some {| key := VBytes []; expires := 1801000 |}
  /\ JsMap.size (write 1000 (user 5) (VBytes []) full) = 99.
Proof.
  apply (StoreExtras.cached_user_write_evicts_oldest 1000 (user 5) (VBytes [])
           (user 0) {| key := VBytes []; expires := 1800000 |}
           (tail full) {| key := VBytes []; expires := 1800000 |}).
  - vm_compute. discriminate.
  - refine (bool_decide_unpack _ _). vm_compute. exact I.
  - vm_compute. discriminate.
  - vm_compute. reflexivity.
Defined.

(** Four reads 25 minutes apart keep the key of ["u1"] cached, 100 minutes
    after the unlock. *)
Lemma cached_key_lives_while_used_witness :
  JsMap.get "u1"
    (mkCache
       (run_calls ToySodium.toy
          (map (fun t => Calls.GetDecryptedDek t "u1") CacheUse.four_reads)
          CacheUse.unlocked))
  = Some {| key := VPromise (Fulfilled Scenarios.u1_mk);
            expires := 7800000 |}.
Proof.
  apply (StoreExtras.cached_key_lives_while_used ToySodium.toy "u1"
           CacheUse.four_reads CacheUse.unlocked
           {| key := VPromise (Fulfilled Scenarios.u1_mk);
              expires := 1801000 |}).
  - vm_compute. reflexivity.
  - vm_compute. repeat split.
Defined.

End StoreExtrasWitness.
